(** * Market-data acquisition and signal engine

    A shallow embedding of the three service modules of the data service,

      - [app/services/indicators.py]  (class [TechnicalIndicators]),
      - [app/services/ml_predict.py]  (class [MLPredictService]),
      - [app/services/stock_data.py]  (class [StockDataService]),

    and of the handlers of [app/routes/stocks.py] and
    [app/routes/ml_predict.py] that call them, followed by the properties
    that the design document states about them and by further properties
    of the code: of the directory and its cache, of the two adapters of the
    retriever, of the indicator set, of the estimators and of the handlers.

    Modelling conventions.
      - A pandas frame of bars is a [list Bar]; a column is a [list Q].
      - A Python float is an exact rational.  Where the code can meet a value
        that is not a finite number (the warm-up rows of a rolling window, a
        division by zero, the output of the third-party [ta] package) the
        value is a [pyfloat], which adds the two infinities and NaN with the
        IEEE comparison rules.  Rounding is not modelled.
      - [try: ... except Exception:] is an error monad, [result], with the
        handler written out by [try_except].
      - Third-party code the services call ([ta], scikit-learn, the HTTP
        upstreams, the listings and the spot table of [akshare],
        [json.loads], [pd.to_datetime]) is a parameter, bundled in a class
        per package.
      - What outlives a request (the one slot of [lru_cache]) and what a
        request does besides returning (calls of the historical provider,
        pauses) is explicit state, passed in and handed back. *)

From Stdlib Require Import QArith Qabs Qminmax Lqa Lia ZArith List String Ascii.
From stdpp Require Import base option gmap strings pretty list.

(* ===================================================================== *)
(** * The Python runtime *)
(* ===================================================================== *)

Module Py.

(** The exception classes that the modelled code can see. *)
Inductive exn : Type :=
| ValueError | IndexError | TypeError | KeyError | LinAlgError
| RequestException | JSONDecodeError.

(** A computation either returns or raises. *)
Inductive result (A : Type) : Type :=
| Ok (a : A)
| Raise (e : exn).
Arguments Ok {A} a.
Arguments Raise {A} e.

#[global] Instance result_ret : MRet result := fun A a => Ok a.
#[global] Instance result_bind : MBind result := fun A B k m =>
  match m with Ok a => k a | Raise e => Raise e end.

(** [try: body  except Exception as e: handler e] *)
Definition try_except {A} (body : result A) (handler : exn → result A) : result A :=
  match body with Ok a => Ok a | Raise e => handler e end.

(** ** Order on rationals, as booleans *)

Definition Qltb (x y : Q) : bool := (Qnum x * QDen y <? Qnum y * QDen x)%Z.
Definition Qgtb (x y : Q) : bool := Qltb y x.

(** ** Floats that may be infinite or undefined *)

Inductive pyfloat : Type :=
| Fin (q : Q)
| PInf
| NInf
| NaN.

(** [pd.isna] *)
Definition isna (x : pyfloat) : bool :=
  match x with NaN => true | _ => false end.

(** [a > b]; every comparison with NaN is false. *)
Definition pf_gt (a b : pyfloat) : bool :=
  match a, b with
  | NaN, _ | _, NaN => false
  | Fin x, Fin y => Qgtb x y
  | PInf, PInf => false
  | PInf, _ => true
  | _, PInf => false
  | NInf, _ => false
  | Fin _, NInf => true
  end.
Definition pf_lt (a b : pyfloat) : bool := pf_gt b a.

(** The built-ins [max(a, b)] and [min(a, b)] keep their first argument
    unless the second compares strictly better. *)
Definition py_max (a b : pyfloat) : pyfloat := if pf_gt b a then b else a.
Definition py_min (a b : pyfloat) : pyfloat := if pf_lt b a then b else a.

Definition pf_neg (a : pyfloat) : pyfloat :=
  match a with
  | Fin x => Fin (- x)
  | PInf => NInf
  | NInf => PInf
  | NaN => NaN
  end.

Definition pf_add (a b : pyfloat) : pyfloat :=
  match a, b with
  | NaN, _ | _, NaN => NaN
  | Fin x, Fin y => Fin (x + y)
  | PInf, NInf | NInf, PInf => NaN
  | PInf, _ | _, PInf => PInf
  | NInf, _ | _, NInf => NInf
  end.
Definition pf_sub (a b : pyfloat) : pyfloat := pf_add a (pf_neg b).

(** An infinity of the sign of [q]; [0 * inf] is NaN. *)
Definition inf_of_sign (q : Q) : pyfloat :=
  if Qgtb q 0 then PInf else if Qltb q 0 then NInf else NaN.

Definition pf_mul (a b : pyfloat) : pyfloat :=
  match a, b with
  | NaN, _ | _, NaN => NaN
  | Fin x, Fin y => Fin (x * y)
  | Fin x, PInf | PInf, Fin x => inf_of_sign x
  | Fin x, NInf | NInf, Fin x => inf_of_sign (- x)
  | PInf, PInf | NInf, NInf => PInf
  | PInf, NInf | NInf, PInf => NInf
  end.

(** numpy division: a zero divisor gives an infinity, or NaN for [0 / 0]. *)
Definition pf_div (a b : pyfloat) : pyfloat :=
  match a, b with
  | NaN, _ | _, NaN => NaN
  | Fin x, Fin y => if Qeq_bool y 0 then inf_of_sign x else Fin (x / y)
  | Fin _, (PInf | NInf) => Fin 0
  | (PInf | NInf), (PInf | NInf) => NaN
  | PInf, Fin y => if Qltb y 0 then NInf else PInf
  | NInf, Fin y => if Qltb y 0 then PInf else NInf
  end.

(** ** Sequences *)

(** Where a slice bound lands in a sequence of length [n]. *)
Definition slice_index (n i : Z) : Z :=
  if (i <? 0)%Z then Z.max 0 (n + i) else Z.min n i.

(** [l[start:stop]], either bound possibly omitted. *)
Definition py_slice {A} (start stop : option Z) (l : list A) : list A :=
  let n := Z.of_nat (length l) in
  let lo := from_option (slice_index n) 0%Z start in
  let hi := from_option (slice_index n) n stop in
  take (Z.to_nat (hi - lo)) (drop (Z.to_nat lo) l).

(** [l[-1]] and [series.iloc[-1]] *)
Definition iloc_last {A} (l : list A) : result A :=
  match last l with Some a => Ok a | None => Raise IndexError end.

(** [series.tail(n)] *)
Definition tail {A} (n : nat) (l : list A) : list A :=
  drop (length l - n) l.

(** [sum], [np.sum], [np.mean] *)
Definition Qsum (l : list Q) : Q := foldr Qplus 0%Q l.
Definition Qlen {A} (l : list A) : Q := inject_Z (Z.of_nat (length l)).
Definition Qmean (l : list Q) : Q := (Qsum l / Qlen l)%Q.

(** [dict.get(key, default)] *)
Definition dict_get {V} (d : gmap string V) (key : string) (dflt : V) : V :=
  default dflt (d !! key).

End Py.
Export Py.

(* ===================================================================== *)
(** * Bars *)
(* ===================================================================== *)

(** One row of the frame that the retriever builds. *)
Record Bar : Type := mkBar {
  date : string;
  open : Q;
  close : Q;
  high : Q;
  low : Q;
  volume : Q;
  amount : Q
}.

(** The columns the services read. *)
Definition closes (df : list Bar) : list Q := close <$> df.
Definition highs (df : list Bar) : list Q := high <$> df.
Definition lows (df : list Bar) : list Q := low <$> df.

(** [df.empty or len(df) < 60] *)
Definition too_short (df : list Bar) : bool :=
  bool_decide (df = []) || (length df <? 60)%nat.

(** [series.rolling(w).mean()] at position [i]: undefined until [w] values
    are available. *)
Definition rolling_mean_at (w : nat) (xs : list Q) (i : nat) : pyfloat :=
  if (S i <? w)%nat then NaN
  else Fin (Qmean (take w (drop (S i - w) xs))).

(** [series.rolling(w).mean().iloc[-1]] *)
Definition rolling_mean_last (w : nat) (xs : list Q) : pyfloat :=
  rolling_mean_at w xs (length xs - 1).

(** [series.min()] and [series.max()] of a non-empty column; NaN on an
    empty one. *)
Definition series_min (xs : list Q) : pyfloat :=
  match xs with
  | [] => NaN
  | x :: r => Fin (foldl (fun m y => if Qltb y m then y else m) x r)
  end.
Definition series_max (xs : list Q) : pyfloat :=
  match xs with
  | [] => NaN
  | x :: r => Fin (foldl (fun m y => if Qgtb y m then y else m) x r)
  end.

(* ===================================================================== *)
(** * indicators.py *)
(* ===================================================================== *)

Module Indicators.

(** The last value of each series that the [ta] package computes.  Its
    default windows (MACD 12/26/9, RSI 14, stochastic 14/3, Bollinger 20/2)
    make every one of them NaN on a short or degenerate input, which is why
    the caller tests [pd.isna]. *)
Class TaLib : Type := {
  macd : list Q → pyfloat;
  macd_signal : list Q → pyfloat;
  macd_diff : list Q → pyfloat;
  rsi : list Q → pyfloat;
  stoch : list Q → list Q → list Q → pyfloat;
  stoch_signal : list Q → list Q → list Q → pyfloat;
  bollinger_hband : list Q → pyfloat;
  bollinger_mavg : list Q → pyfloat;
  bollinger_lband : list Q → pyfloat
}.

(** [float(x) if not pd.isna(x) else d] *)
Definition float_or (x : pyfloat) (d : Q) : pyfloat :=
  if negb (isna x) then x else Fin d.

(** [result[key]] for a key that was stored above. *)
Definition getitem (result : gmap string pyfloat) (key : string) : pyfloat :=
  default NaN (result !! key).

Section calculate.
Context {ta : TaLib}.

Definition calculate_all (df : list Bar) : gmap string pyfloat :=
  if too_short df then ∅ else
  let result : gmap string pyfloat := ∅ in
  let result := <["current_price" := Fin (List.last (closes df) 0%Q)]> result in
  let result := <["ma5" := rolling_mean_last 5 (closes df)]> result in
  let result := <["ma10" := rolling_mean_last 10 (closes df)]> result in
  let result := <["ma20" := rolling_mean_last 20 (closes df)]> result in
  let result := <["ma60" := rolling_mean_last 60 (closes df)]> result in
  let result := <["macd" := float_or (macd (closes df)) 0]> result in
  let result := <["signal" := float_or (macd_signal (closes df)) 0]> result in
  let result := <["hist" := float_or (macd_diff (closes df)) 0]> result in
  let result := <["rsi" := float_or (rsi (closes df)) 50]> result in
  let result :=
    <["kdj_k" := float_or (stoch (highs df) (lows df) (closes df)) 50]> result in
  let result :=
    <["kdj_d" := float_or (stoch_signal (highs df) (lows df) (closes df)) 50]> result in
  let result :=
    <["kdj_j" := pf_sub (pf_mul (Fin 3) (getitem result "kdj_k"))
                        (pf_mul (Fin 2) (getitem result "kdj_d"))]> result in
  let result := <["boll_upper" := float_or (bollinger_hband (closes df)) 0]> result in
  let result := <["boll_middle" := float_or (bollinger_mavg (closes df)) 0]> result in
  let result := <["boll_lower" := float_or (bollinger_lband (closes df)) 0]> result in
  let recent_low := series_min (tail 20 (lows df)) in
  let recent_high := series_max (tail 20 (highs df)) in
  let result := <["support_level" := recent_low]> result in
  let result := <["resistance_level" := recent_high]> result in
  result.

End calculate.

Inductive signal_type : Type := bullish | bearish | neutral.

Record Signal : Type := mkSignal {
  name : string;
  type : signal_type;
  desc : string
}.

Definition get_signals (indicators : gmap string pyfloat) : list Signal :=
  let signals : list Signal := [] in
  let signals :=
    if pf_gt (dict_get indicators "macd" (Fin 0)) (dict_get indicators "signal" (Fin 0))
    then signals ++ [mkSignal "MACD" bullish "金叉"]
    else signals ++ [mkSignal "MACD" bearish "死叉"] in
  let rsi := dict_get indicators "rsi" (Fin 50) in
  let signals :=
    if pf_gt rsi (Fin 70) then signals ++ [mkSignal "RSI" bearish "超买"]
    else if pf_lt rsi (Fin 30) then signals ++ [mkSignal "RSI" bullish "超卖"]
    else signals ++ [mkSignal "RSI" neutral "中性"] in
  let kdj_j := dict_get indicators "kdj_j" (Fin 50) in
  let signals :=
    if pf_gt kdj_j (Fin 80) then signals ++ [mkSignal "KDJ" bearish "超买"]
    else if pf_lt kdj_j (Fin 20) then signals ++ [mkSignal "KDJ" bullish "超卖"]
    else signals ++ [mkSignal "KDJ" neutral "中性"] in
  let price := dict_get indicators "current_price" (Fin 0) in
  let ma5 := dict_get indicators "ma5" (Fin 0) in
  let ma20 := dict_get indicators "ma20" (Fin 0) in
  let signals :=
    if pf_gt price ma5 && pf_gt ma5 ma20
    then signals ++ [mkSignal "均线" bullish "多头排列"]
    else if pf_lt price ma5 && pf_lt ma5 ma20
    then signals ++ [mkSignal "均线" bearish "空头排列"]
    else signals ++ [mkSignal "均线" neutral "交织"] in
  signals.

End Indicators.

(* ===================================================================== *)
(** * The parts of numpy and pandas that ml_predict.py uses *)
(* ===================================================================== *)

Module Np.

(** [np.diff(a)]: consecutive differences, one element shorter. *)
Fixpoint diff (a : list Q) : list Q :=
  match a with
  | x :: (y :: _) as r => (y - x)%Q :: diff r
  | _ => []
  end.

(** [a / b] on one-dimensional arrays.  Shapes [(n,)] and [(m,)] broadcast
    only when they are equal or one of them is 1; otherwise numpy raises
    "operands could not be broadcast together". *)
Definition divide (a b : list Q) : result (list pyfloat) :=
  if (length a =? length b)%nat
  then Ok (zip_with (fun x y => pf_div (Fin x) (Fin y)) a b)
  else match a, b with
       | [x], _ => Ok ((fun y => pf_div (Fin x) (Fin y)) <$> b)
       | _, [y] => Ok ((fun x => pf_div (Fin x) (Fin y)) <$> a)
       | _, _ => Raise ValueError
       end.

(** [np.sum(mask)] for a boolean mask. *)
Definition count_true {A} (p : A → bool) (l : list A) : Q :=
  inject_Z (Z.of_nat (length (List.filter p l))).

(** [np.arange(n)] *)
Definition arange (n : nat) : list Q := (fun i => inject_Z (Z.of_nat i)) <$> seq 0 n.

(** The sums that enter the normal equations of a straight-line fit. *)
Definition Sx (x : list Q) : Q := Qsum x.
Definition Sxx (x : list Q) : Q := Qsum ((fun xi => xi * xi)%Q <$> x).
Definition Sxy (x y : list Q) : Q := Qsum (zip_with Qmult x y).

(** [np.polyfit(x, y, 1)]: the least-squares line through the points
    [(x_i, y_i)], highest power first.  numpy refuses an empty [x] and
    vectors of different lengths; a singular system (all [x_i] equal) is
    outside what the line fit determines and is modelled as a failure of
    the solver.  Otherwise the result is, in exact arithmetic, the solution
    of the normal equations. *)
Definition polyfit1 (x y : list Q) : result (Q * Q) :=
  match x with
  | [] => Raise TypeError
  | _ =>
    if negb (length x =? length y)%nat then Raise TypeError else
    let n := Qlen x in
    let den := (n * Sxx x - Sx x * Sx x)%Q in
    if Qeq_bool den 0 then Raise LinAlgError else
    let slope := ((n * Sxy x y - Sx x * Qsum y) / den)%Q in
    let intercept := ((Qsum y - slope * Sx x) / n)%Q in
    Ok (slope, intercept)
  end.

(** [pd.Series(xs).ewm(span=span).mean().iloc[-1]] with the default
    [adjust=True]: the average of the observations weighted by
    [(1 - alpha)^i], [i] counting back from the last one, with
    [alpha = 2 / (span + 1)].  Numerator and denominator are accumulated
    from the oldest observation on, as pandas does. *)
Definition ewm_step (r : Q) (acc : Q * Q) (x : Q) : Q * Q :=
  (x + r * acc.1, 1 + r * acc.2)%Q.

Definition ewm_mean_last (span : Q) (xs : list Q) : result Q :=
  match xs with
  | [] => Raise IndexError
  | _ =>
    let alpha := (2 / (span + 1))%Q in
    let '(num, den) := foldl (ewm_step (1 - alpha)%Q) (0%Q, 0%Q) xs in
    Ok (num / den)%Q
  end.

(** [series.pct_change(k)] at position [i]: [x_i / x_(i-k) - 1]. *)
Definition pct_change_at (k : nat) (xs : list Q) (i : nat) : pyfloat :=
  if (i <? k)%nat then NaN else
  match xs !! i, xs !! (i - k)%nat with
  | Some a, Some b => pf_sub (pf_div (Fin a) (Fin b)) (Fin 1)
  | _, _ => NaN
  end.

(** The sample variance (one degree of freedom removed) of a window. *)
Definition sample_var (w : list Q) : Q :=
  (Qsum ((fun c => (c - Qmean w) * (c - Qmean w)) <$> w) / (Qlen w - 1))%Q.

End Np.

(* ===================================================================== *)
(** * ml_predict.py *)
(* ===================================================================== *)

Module MLPredict.

Inductive trend_label : Type := up | down | sideways.

(** The dictionary [{'trend': .., 'price': .., 'confidence': ..}] that each
    estimator returns. *)
Record Estimate : Type := mkEstimate {
  trend : trend_label;
  price : pyfloat;
  confidence : pyfloat
}.

(** The nine-key dictionary that [predict_all] returns. *)
Record Prediction : Type := mkPrediction {
  lstm_trend : trend_label;
  lstm_price : pyfloat;
  lstm_confidence : pyfloat;
  prophet_trend : trend_label;
  prophet_price : pyfloat;
  prophet_confidence : pyfloat;
  xgboost_trend : trend_label;
  xgboost_price : pyfloat;
  xgboost_confidence : pyfloat
}.

(** What every [except] clause returns:
    [{'trend': 'sideways', 'price': float(df['close'].iloc[-1]), 'confidence': 0.5}].
    Reading the last close raises on an empty frame. *)
Definition fallback (df : list Bar) : result Estimate :=
  c ← iloc_last (closes df);
  Ok (mkEstimate sideways (Fin c) (Fin 0.5)).

Definition _lstm_predict (df : list Bar) : result Estimate :=
  try_except
    (let close := closes df in
     ema_short ← Np.ewm_mean_last 5 close;
     ema_long ← Np.ewm_mean_last 20 close;
     current_price ← iloc_last close;
     let trend_factor := pf_div (Fin (ema_short - ema_long)) (Fin ema_long) in
     let predicted_price :=
       pf_mul (Fin current_price) (pf_add (Fin 1) (pf_mul trend_factor (Fin 0.5))) in
     let trend :=
       if pf_gt predicted_price (Fin (current_price * 1.01)) then up
       else if pf_lt predicted_price (Fin (current_price * 0.99)) then down
       else sideways in
     recent_returns ←
       Np.divide (Np.diff (py_slice (Some (-10)%Z) None close))
                 (py_slice (Some (-11)%Z) (Some (-1)%Z) close);
     let consistency :=
       match trend with
       | up => pf_div (Fin (Np.count_true (fun r => pf_gt r (Fin 0)) recent_returns))
                      (Fin (Qlen recent_returns))
       | _ => pf_div (Fin (Np.count_true (fun r => pf_lt r (Fin 0)) recent_returns))
                     (Fin (Qlen recent_returns))
       end in
     let confidence := py_min (Fin 0.9) (py_max (Fin 0.3) consistency) in
     Ok (mkEstimate trend predicted_price confidence))
    (fun e => fallback df).

(** The quantities of the straight-line fit, named as in the source. *)
Definition ss_res (close x : list Q) (slope intercept : Q) : Q :=
  let y_pred := (fun xi => slope * xi + intercept)%Q <$> x in
  Qsum (zip_with (fun c p => (c - p) * (c - p))%Q close y_pred).
Definition ss_tot (close : list Q) : Q :=
  Qsum ((fun c => (c - Qmean close) * (c - Qmean close))%Q <$> close).
Definition r2_of (close x : list Q) (slope intercept : Q) : Q :=
  if Qgtb (ss_tot close) 0
  then (1 - ss_res close x slope intercept / ss_tot close)%Q
  else 0%Q.

Definition _prophet_predict (df : list Bar) : result Estimate :=
  try_except
    (let close := py_slice (Some (-30)%Z) None (closes df) in
     let x := Np.arange (length close) in
     '(slope, intercept) ← Np.polyfit1 x close;
     let future_x := (Qlen close + 5)%Q in
     let predicted_price := (slope * future_x + intercept)%Q in
     current_price ← iloc_last close;
     let trend :=
       if Qgtb slope 0 && Qgtb predicted_price (current_price * 1.01) then up
       else if Qltb slope 0 && Qltb predicted_price (current_price * 0.99) then down
       else sideways in
     let r2 := r2_of close x slope intercept in
     let confidence := py_min (Fin 0.9) (py_max (Fin 0.3) (Fin (Qabs r2))) in
     Ok (mkEstimate trend (Fin predicted_price) confidence))
    (fun e => fallback df).

(** One row of [df_features]: the derived columns (the bar's own columns
    are finite and never make [dropna] remove a row). *)
Record FeatureRow : Type := mkFeatureRow {
  return_1 : pyfloat;
  return_5 : pyfloat;
  return_10 : pyfloat;
  ma5 : pyfloat;
  ma20 : pyfloat;
  ma_ratio : pyfloat;
  volatility : pyfloat;
  target : Z
}.

(** [df_features[feature_cols].values] for one row. *)
Definition feature_cols (r : FeatureRow) : list pyfloat :=
  [return_1 r; return_5 r; return_10 r; ma_ratio r; volatility r].

(** [dropna] keeps a row when none of its columns is NaN. *)
Definition has_nan (r : FeatureRow) : bool :=
  existsb isna [return_1 r; return_5 r; return_10 r; ma5 r; ma20 r; ma_ratio r; volatility r].
Definition dropna (rows : list FeatureRow) : list FeatureRow :=
  List.filter (fun r => negb (has_nan r)) rows.

(** What scikit-learn and the float unit contribute. *)
Class Sklearn : Type := {
  (** [np.sqrt] on a non-negative float (inside [rolling(..).std()]) *)
  sqrt : Q → Q;
  (** [GradientBoostingClassifier(n_estimators, max_depth, random_state)
      .fit(X, y)] followed by [.predict_proba(X_latest)[0]], as the pair
      [(prob[0], prob[1])]; fitting or scoring may raise. *)
  fit_predict_proba :
    Z → Z → Z → list (list pyfloat) → list Z → list (list pyfloat) → result (Q * Q)
}.

Section estimators.
Context {sk : Sklearn}.

(** [series.rolling(10).std()] at position [i]. *)
Definition rolling_std_at (w : nat) (xs : list Q) (i : nat) : pyfloat :=
  if (S i <? w)%nat then NaN
  else Fin (sqrt (Np.sample_var (take w (drop (S i - w) xs)))).

(** [(close.shift(-5) > close).astype(int)] at position [i]: a comparison
    with the undefined shifted value is false, so the last five labels are 0. *)
Definition target_at (xs : list Q) (i : nat) : Z :=
  match xs !! (i + 5)%nat, xs !! i with
  | Some later, Some now => if Qgtb later now then 1%Z else 0%Z
  | _, _ => 0%Z
  end.

(** The derived columns of row [i]. *)
Definition features_at (xs : list Q) (i : nat) : FeatureRow :=
  let m5 := rolling_mean_at 5 xs i in
  let m20 := rolling_mean_at 20 xs i in
  {| return_1 := Np.pct_change_at 1 xs i;
     return_5 := Np.pct_change_at 5 xs i;
     return_10 := Np.pct_change_at 10 xs i;
     ma5 := m5;
     ma20 := m20;
     ma_ratio := pf_div m5 m20;
     volatility := rolling_std_at 10 xs i;
     target := target_at xs i |}.

Definition build_features (df : list Bar) : list FeatureRow :=
  features_at (closes df) <$> seq 0 (length df).

Definition _xgboost_predict (df : list Bar) : result Estimate :=
  try_except
    (let df_features := build_features df in
     let df_features := dropna df_features in
     if (length df_features <? 50)%nat then fallback df else
     let X := feature_cols <$> py_slice None (Some (-5)%Z) df_features in
     let y := target <$> py_slice None (Some (-5)%Z) df_features in
     let X_latest := feature_cols <$> py_slice (Some (-1)%Z) None df_features in
     prob ← fit_predict_proba 50 3 42 X y X_latest;
     let '(trend, confidence) :=
       if Qgtb prob.2 0.6 then (up, Fin prob.2)
       else if Qgtb prob.1 0.6 then (down, Fin prob.1)
       else (sideways, py_max (Fin prob.1) (Fin prob.2)) in
     current_price ← iloc_last (closes df);
     let predicted_price :=
       match trend with
       | up => pf_mul (Fin current_price) (pf_add (Fin 1) (pf_mul (Fin 0.03) confidence))
       | down => pf_mul (Fin current_price) (pf_sub (Fin 1) (pf_mul (Fin 0.03) confidence))
       | sideways => Fin current_price
       end in
     Ok (mkEstimate trend predicted_price confidence))
    (fun e => fallback df).

Definition _empty_result : Prediction :=
  {| lstm_trend := sideways; lstm_price := Fin 0; lstm_confidence := Fin 0.5;
     prophet_trend := sideways; prophet_price := Fin 0; prophet_confidence := Fin 0.5;
     xgboost_trend := sideways; xgboost_price := Fin 0; xgboost_confidence := Fin 0.5 |}.

Definition predict_all (df : list Bar) : result Prediction :=
  if too_short df then Ok _empty_result else
  lstm_result ← _lstm_predict df;
  prophet_result ← _prophet_predict df;
  xgb_result ← _xgboost_predict df;
  Ok {| lstm_trend := trend lstm_result;
        lstm_price := price lstm_result;
        lstm_confidence := confidence lstm_result;
        prophet_trend := trend prophet_result;
        prophet_price := price prophet_result;
        prophet_confidence := confidence prophet_result;
        xgboost_trend := trend xgb_result;
        xgboost_price := price xgb_result;
        xgboost_confidence := confidence xgb_result |}.

End estimators.

End MLPredict.

(* ===================================================================== *)
(** * stock_data.py *)
(* ===================================================================== *)

Module StockData.

(** A Python [str] is held as its UTF-8 bytes: an ASCII character is one
    byte below 128, every other character a sequence of bytes from 128 up. *)
Definition is_ascii (c : ascii) : bool := (nat_of_ascii c <? 128)%nat.

Definition isdigit (c : ascii) : bool :=
  (48 <=? nat_of_ascii c)%nat && (nat_of_ascii c <=? 57)%nat.

Fixpoint str_forall (p : ascii → bool) (s : string) : bool :=
  match s with
  | EmptyString => true
  | String c r => p c && str_forall p r
  end.

Fixpoint str_map (f : ascii → ascii) (s : string) : string :=
  match s with
  | EmptyString => EmptyString
  | String c r => String (f c) (str_map f r)
  end.

(** [str.upper] on one ASCII character: a-z go to A-Z. *)
Definition upper_char (c : ascii) : ascii :=
  let n := nat_of_ascii c in
  if (97 <=? n)%nat && (n <=? 122)%nat then ascii_of_nat (n - 32) else c.

(** What [str.upper] makes of the characters outside ASCII is the Unicode
    database's: the full-width ａ goes to Ａ, ß to SS, and a Chinese
    character stays.  It is given for a maximal run of such characters. *)
Class Unicode : Type := {
  upper_run : string → string
}.

Section unicode.
Context {uc : Unicode}.

(** The upper-casing of the run of non-ASCII bytes read so far. *)
Definition upper_pending (run : string) : string :=
  if String.eqb run "" then "" else upper_run run.

(** [s.upper()], with the non-ASCII bytes before [s] pending in [run]. *)
Fixpoint upper_from (run s : string) : string :=
  match s with
  | EmptyString => upper_pending run
  | String c r =>
    if is_ascii c
    then upper_pending run +:+ String (upper_char c) (upper_from "" r)
    else upper_from (run +:+ String c "") r
  end.

(** [s.upper()] *)
Definition upper (s : string) : string := upper_from "" s.

End unicode.

(** [needle in hay] *)
Fixpoint contains (needle hay : string) : bool :=
  String.prefix needle hay ||
  match hay with
  | EmptyString => false
  | String _ r => contains needle r
  end.

(** [s.startswith(p)] *)
Definition startswith (s p : string) : bool := String.prefix p s.

(** [s.find(c)]: the first position of [c], or -1. *)
Fixpoint find (c : ascii) (s : string) : Z :=
  match s with
  | EmptyString => (-1)%Z
  | String a r =>
    if Ascii.eqb a c then 0%Z
    else let k := find c r in if (k <? 0)%Z then (-1)%Z else (k + 1)%Z
  end.

(** [s.rfind(c)]: the last position of [c], or -1. *)
Fixpoint rfind (c : ascii) (s : string) : Z :=
  match s with
  | EmptyString => (-1)%Z
  | String a r =>
    let k := rfind c r in
    if (0 <=? k)%Z then (k + 1)%Z
    else if Ascii.eqb a c then 0%Z else (-1)%Z
  end.

(** [s[start:stop]] for bounds with [0 <= start]. *)
Definition str_slice (start stop : Z) (s : string) : string :=
  String.substring (Z.to_nat start) (Z.to_nat (stop - start)) s.

(** An entry of the stock directory. *)
Record Stock : Type := mkStock {
  code : string;
  name : string;
  market : string
}.

(** [search_stocks], over the cached result of [get_stock_list]. *)
Definition search_stocks {uc : Unicode} (all_stocks : list Stock) (keyword : string)
  : list Stock :=
  if String.eqb keyword "" then all_stocks else
  let keyword := upper keyword in
  py_slice None (Some 100%Z)
    (List.filter (fun s => contains keyword (code s) || contains keyword (upper (name s)))
                 all_stocks).

Definition get_stock_info (all_stocks : list Stock) (c : string) : option Stock :=
  List.find (fun stock => String.eqb (code stock) c) all_stocks.

(** The two upstream providers and the decoders applied to their answers. *)
Class Upstream : Type := {
  (** [session.get(url, params, headers, timeout=15)] for a symbol and a
      scale: the status code and the body, or an exception. *)
  sina_get : string → string → result (Z * string);
  (** [json.loads] followed by [pd.DataFrame], the renaming of [day] to
      [date] and [pd.to_numeric] on the five numeric columns; the rows of
      the decoded list, in order. *)
  sina_decode : string → result (list Bar);
  (** [ak.stock_zh_a_hist(symbol, period, adjust="qfq")] on its [n]-th
      call of the request: an exception, [None], or a frame whose columns
      have been renamed and selected. *)
  stock_zh_a_hist : string → string → nat → result (option (list Bar));
  (** [pd.to_datetime(d).strftime('%Y-%m-%d')] for one date cell. *)
  to_date : string → result string
}.

(** The effects of one request that later steps can observe: how many
    times the historical provider was called, and the pauses taken. *)
Record World : Type := mkWorld {
  hist_calls : nat;
  slept : list Q
}.

Definition sleep (secs : Q) (w : World) : World :=
  {| hist_calls := hist_calls w; slept := slept w ++ [secs] |}.

Section retriever.
Context {up : Upstream}.

Definition call_hist (c period : string) (w : World)
  : result (option (list Bar)) * World :=
  (stock_zh_a_hist c period (hist_calls w),
   {| hist_calls := S (hist_calls w); slept := slept w |}).

(** [df['date'] = pd.to_datetime(df['date']).dt.strftime('%Y-%m-%d')] *)
Fixpoint format_dates (df : list Bar) : result (list Bar) :=
  match df with
  | [] => Ok []
  | b :: r =>
    d ← to_date (date b);
    r' ← format_dates r;
    Ok (mkBar d (open b) (close b) (high b) (low b) (volume b) (amount b) :: r')
  end.

(** The body of one pass of the retry loop, after the pause: [Some df] when
    the pass reaches [return df.tail(250)], [None] when it falls out of the
    [if]. *)
Definition akshare_attempt (c period : string) (w : World)
  : result (option (list Bar)) * World :=
  let period :=
    if String.eqb period "weekly" then "weekly"
    else if String.eqb period "monthly" then "monthly"
    else "daily" in
  let '(answer, w) := call_hist c period w in
  (df ← answer;
   match df with
   | Some ((_ :: _) as df) =>
     df ← format_dates df;
     Ok (Some (tail 250 df))
   | _ => Ok None
   end, w).

(** [for retry in range(3): try: ... except Exception: ...] *)
Fixpoint akshare_loop (c period : string) (retries : list nat) (w : World)
  : list Bar * World :=
  match retries with
  | [] => ([], w)
  | retry :: rest =>
    let w := sleep (0.3 * inject_Z (Z.of_nat retry)) w in
    let '(r, w) := akshare_attempt c period w in
    match r with
    | Ok (Some df) => (df, w)
    | Ok None | Raise _ => akshare_loop c period rest w
    end
  end.

Definition _get_kline_akshare (c period : string) (w : World)
  : result (list Bar) * World :=
  let '(df, w) := akshare_loop c period (seq 0 3) w in
  (Ok df, w).

Definition scale_map (period : string) : string :=
  if String.eqb period "daily" then "240"
  else if String.eqb period "weekly" then "1680"
  else if String.eqb period "monthly" then "7200"
  else "240".

Definition _get_kline_sina (c period : string) : result (list Bar) :=
  returned ←
    try_except
      (let symbol := if startswith c "6" then "sh" +:+ c else "sz" +:+ c in
       let scale := scale_map period in
       response ← sina_get symbol scale;
       let '(status_code, text) := response in
       if (status_code =? 200)%Z then
         let start := (find "("%char text + 1)%Z in
         let end_ := rfind ")"%char text in
         if (0 <? start)%Z && (start <? end_)%Z then
           let json_str := str_slice start end_ text in
           data ← sina_decode json_str;
           match data with
           | _ :: _ =>
             let df := (fun b => mkBar (date b) (open b) (close b) (high b) (low b)
                                       (volume b) 0) <$> data in
             Ok (Some df)
           | [] => Ok None
           end
         else Ok None
       else Ok None)
      (fun e => Ok None);
  match returned with
  | Some df => Ok df
  | None => Ok []
  end.

(** [df is not None and not df.empty] *)
Definition nonempty (df : list Bar) : bool :=
  match df with [] => false | _ => true end.

Definition get_kline (c period : string) (w : World) : result (list Bar) * World :=
  match _get_kline_sina c period with
  | Raise e => (Raise e, w)
  | Ok df =>
    if nonempty df then (Ok df, w) else
    match _get_kline_akshare c period w with
    | (Raise e, w) => (Raise e, w)
    | (Ok df, w) => if nonempty df then (Ok df, w) else (Ok [], w)
    end
  end.

End retriever.

(** ** The stock directory and its cache *)

(** The two listings of [akshare], as the rows (code, short name) that the
    [n]-th load of the process receives, or an exception. *)
Class Listing : Type := {
  stock_info_sh_name_code : nat → result (list (string * string));
  stock_info_sz_name_code : nat → result (list (string * string))
}.

(** What the process remembers between requests: the one slot of
    [lru_cache(maxsize=1)] on [get_stock_list], and how many times the body
    of [get_stock_list] has run. *)
Record Process : Type := mkProcess {
  stock_list_cache : option (list Stock);
  loads : nat
}.

Section directory.
Context {ls : Listing} {uc : Unicode}.

(** The body of [get_stock_list], on its [n]-th run. *)
Definition load_stock_list (n : nat) : result (list Stock) :=
  try_except
    (sh_stocks ← stock_info_sh_name_code n;
     let sh_stocks := List.filter (fun row => startswith row.1 "6") sh_stocks in
     let sh_list := (fun row => mkStock row.1 row.2 "SH") <$> sh_stocks in
     sz_stocks ← stock_info_sz_name_code n;
     let sz_stocks := List.filter (fun row => startswith row.1 "0") sz_stocks in
     let sz_list := (fun row => mkStock row.1 row.2 "SZ") <$> sz_stocks in
     Ok (sh_list ++ sz_list))
    (fun e => Ok []).

(** [get_stock_list] under [lru_cache(maxsize=1)]: a stored value is
    returned without running the body; a returned value is stored, a raised
    exception is not. *)
Definition get_stock_list (p : Process) : result (list Stock) * Process :=
  match stock_list_cache p with
  | Some all_stocks => (Ok all_stocks, p)
  | None =>
    match load_stock_list (loads p) with
    | Ok all_stocks => (Ok all_stocks, mkProcess (Some all_stocks) (S (loads p)))
    | Raise e => (Raise e, mkProcess None (S (loads p)))
    end
  end.

(** [search_stocks] and [get_stock_info] as the service exposes them: on
    the cached directory. *)
Definition search_stocks_cached (keyword : string) (p : Process)
  : result (list Stock) * Process :=
  let '(r, p) := get_stock_list p in
  (all_stocks ← r; Ok (search_stocks all_stocks keyword), p).

Definition get_stock_info_cached (c : string) (p : Process)
  : result (option Stock) * Process :=
  let '(r, p) := get_stock_list p in
  (all_stocks ← r; Ok (get_stock_info all_stocks c), p).

End directory.

(** ** Realtime quotes *)

(** One row of the spot table.  Each numeric cell is given by what
    [float(cell)] makes of it: a float, or the exception raised on a cell
    that is no number. *)
Record SpotRow : Type := mkSpotRow {
  spot_code : string;
  spot_name : string;
  spot_price : result pyfloat;
  spot_change : result pyfloat;
  spot_change_pct : result pyfloat;
  spot_open : result pyfloat;
  spot_high : result pyfloat;
  spot_low : result pyfloat;
  spot_volume : result pyfloat;
  spot_amount : result pyfloat
}.

(** The dictionary that [get_realtime_quote] returns. *)
Record Quote : Type := mkQuote {
  q_code : string;
  q_name : string;
  q_price : pyfloat;
  q_change : pyfloat;
  q_change_pct : pyfloat;
  q_open : pyfloat;
  q_high : pyfloat;
  q_low : pyfloat;
  q_volume : pyfloat;
  q_amount : pyfloat
}.

(** [ak.stock_zh_a_spot_em()]: the whole table, or an exception. *)
Class SpotTable : Type := {
  stock_zh_a_spot_em : result (list SpotRow)
}.

Definition get_realtime_quote {st : SpotTable} (c : string) : result (option Quote) :=
  try_except
    (df ← stock_zh_a_spot_em;
     let stock := List.filter (fun row => String.eqb (spot_code row) c) df in
     match stock with
     | [] => Ok None
     | row :: _ =>
       price ← spot_price row;
       change ← spot_change row;
       change_pct ← spot_change_pct row;
       open_ ← spot_open row;
       high_ ← spot_high row;
       low_ ← spot_low row;
       volume_ ← spot_volume row;
       amount_ ← spot_amount row;
       Ok (Some (mkQuote c (spot_name row) price change change_pct
                         open_ high_ low_ volume_ amount_))
     end)
    (fun e => Ok None).

(** ** Announcements *)

(** One element of the announcement list: the two keys the service reads,
    each possibly absent. *)
Record NoticeItem : Type := mkNoticeItem {
  item_title : option string;
  item_notice_date : option string
}.

(** The dictionary appended for each announcement. *)
Record News : Type := mkNews {
  news_title : string;
  news_time : string;
  news_source : string
}.

(** [session.get(url).json()] for a code and a page size, followed by
    [data.get('data', {}).get('list', [])]: the items, or an exception. *)
Class NoticeFeed : Type := {
  notice_list : string → Z → result (list NoticeItem)
}.

(** [item.get('notice_date', '')[:10] if item.get('notice_date') else ''] *)
Definition notice_time (item : NoticeItem) : string :=
  match item_notice_date item with
  | Some d => if String.eqb d "" then "" else String.substring 0 10 d
  | None => ""
  end.

Definition get_stock_news {nf : NoticeFeed} (c : string) (limit : Z) : result (list News) :=
  returned ←
    try_except
      (items ← notice_list c limit;
       let news_list :=
         (fun item => mkNews (default "" (item_title item)) (notice_time item) "东方财富")
           <$> py_slice None (Some limit) items in
       Ok (Some news_list))
      (fun e => Ok None);
  match returned with
  | Some news_list => Ok news_list
  | None => Ok []
  end.

End StockData.

(* ===================================================================== *)
(** * routes/stocks.py and routes/ml_predict.py *)
(* ===================================================================== *)

Module Routes.
Import Indicators MLPredict StockData.

(** The bodies of the responses. *)
Record KlineResponse : Type := mkKlineResponse {
  kline_code : string;
  kline_name : string;
  kline_period : string;
  kline_data : list Bar
}.

Inductive IndicatorsResponse : Type :=
| IndicatorsError (error : string)
| IndicatorsOk (indicators : gmap string pyfloat) (signals : list Signal).

Record PredictResponse : Type := mkPredictResponse {
  predict_error : option string;
  predict_result : Prediction
}.

Section routes.
Context {up : Upstream} {ls : Listing} {uc : Unicode} {st : SpotTable} {ta : TaLib}
        {sk : Sklearn}.

(** [GET /stocks]: [search_stocks(keyword or "")] *)
Definition get_stocks (keyword : option string) (p : Process)
  : result (list Stock) * Process :=
  search_stocks_cached (default "" keyword) p.

(** [GET /stocks/{code}/info] *)
Definition get_stock_info (c : string) (p : Process) : result Stock * Process :=
  let '(r, p) := get_stock_info_cached c p in
  (info ← r;
   match info with
   | Some info => Ok info
   | None => Ok (mkStock c "未知" "")
   end, p).

(** [GET /stocks/{code}/kline] *)
Definition get_kline (c period : string) (p : Process) (w : World)
  : result KlineResponse * Process * World :=
  let '(r, w) := StockData.get_kline c period w in
  match r with
  | Raise e => (Raise e, p, w)
  | Ok df =>
    let '(ri, p) := get_stock_info_cached c p in
    match ri with
    | Raise e => (Raise e, p, w)
    | Ok info =>
      let name := match info with Some info => StockData.name info | None => "未知" end in
      if negb (nonempty df)
      then (Ok (mkKlineResponse c name period []), p, w)
      else (Ok (mkKlineResponse c name period df), p, w)
    end
  end.

(** [GET /stocks/{code}/realtime] *)
Definition get_realtime (c : string) : result (Quote + string) :=
  quote ← get_realtime_quote c;
  match quote with
  | Some quote => Ok (inl quote)
  | None => Ok (inr "获取实时行情失败")
  end.

(** [GET /stocks/{code}/indicators]: always on the daily series. *)
Definition get_indicators (c : string) (w : World) : result IndicatorsResponse * World :=
  let '(r, w) := StockData.get_kline c "daily" w in
  (df ← r;
   if negb (nonempty df) then Ok (IndicatorsError "获取数据失败") else
   let indicators := calculate_all df in
   let signals := get_signals indicators in
   Ok (IndicatorsOk indicators signals), w).

(** [GET /predict] *)
Definition predict (c period : string) (w : World) : result PredictResponse * World :=
  let '(r, w) := StockData.get_kline c period w in
  (df ← r;
   if negb (nonempty df)
   then Ok (mkPredictResponse (Some "获取数据失败")
              (mkPrediction sideways (Fin 0) (Fin 0.5)
                            sideways (Fin 0) (Fin 0.5)
                            sideways (Fin 0) (Fin 0.5)))
   else
     result ← predict_all df;
     Ok (mkPredictResponse None result), w).

End routes.

End Routes.

(* ===================================================================== *)
(** * The vocabulary of the design document *)
(* ===================================================================== *)

Module Spec.

(** "a > b" on floats, as a relation: NaN is related to nothing. *)
Inductive gt_float : pyfloat → pyfloat → Prop :=
| gt_fin x y : (y < x)%Q → gt_float (Fin x) (Fin y)
| gt_pinf_fin y : gt_float PInf (Fin y)
| gt_pinf_ninf : gt_float PInf NInf
| gt_fin_ninf x : gt_float (Fin x) NInf.

(** A float is a number of the closed interval [[lo, hi]]. *)
Definition within (lo hi : Q) (v : pyfloat) : Prop :=
  ∃ q, v = Fin q ∧ (lo <= q)%Q ∧ (q <= hi)%Q.

(** Forcing a number into [[lo, hi]]. *)
Definition clamp (lo hi x : Q) : Q := Qmax lo (Qmin hi x).

(** An oscillator reading against an overbought and an oversold level:
    above [hi] bearish, below [lo] bullish, otherwise neutral. *)
Definition three_way (v : pyfloat) (hi lo : Q) : Indicators.signal_type :=
  if pf_gt v (Fin hi) then Indicators.bearish
  else if pf_lt v (Fin lo) then Indicators.bullish
  else Indicators.neutral.

(** Estimator A in the words of the design document.  The daily return of
    a bar is its change over the previous close, relative to that close. *)
Definition daily_returns (close : list Q) : list pyfloat :=
  zip_with (fun prev cur => pf_div (Fin (cur - prev)) (Fin prev)) close (drop 1 close).

(** Among the last ten daily returns, the fraction whose sign agrees with
    the direction: positive returns for [up], negative ones otherwise. *)
Definition agreeing_fraction (close : list Q) (t : MLPredict.trend_label) : Q :=
  let recent := tail 10 (daily_returns close) in
  let agree :=
    match t with
    | MLPredict.up => Np.count_true (fun r => pf_gt r (Fin 0)) recent
    | _ => Np.count_true (fun r => pf_lt r (Fin 0)) recent
    end in
  (agree / Qlen recent)%Q.

Definition estimator_A (close : list Q) : option MLPredict.Estimate :=
  match Np.ewm_mean_last 5 close, Np.ewm_mean_last 20 close, last close with
  | Ok short, Ok long, Some current =>
    let trend_factor := pf_div (Fin (short - long)) (Fin long) in
    let predicted_price :=
      pf_mul (Fin current) (pf_add (Fin 1) (pf_mul trend_factor (Fin 0.5))) in
    let label :=
      if pf_gt predicted_price (Fin (current * 1.01)) then MLPredict.up
      else if pf_lt predicted_price (Fin (current * 0.99)) then MLPredict.down
      else MLPredict.sideways in
    Some (MLPredict.mkEstimate label predicted_price
            (Fin (clamp 0.3 0.9 (agreeing_fraction close label))))
  | _, _, _ => None
  end.

(** A line [a * x + b] is a least-squares line for the points
    [(x_i, y_i)] when no other line has a smaller sum of squared
    residuals. *)
Definition least_squares (x y : list Q) (a b : Q) : Prop :=
  ∀ a' b', (MLPredict.ss_res y x a b <= MLPredict.ss_res y x a' b')%Q.

(** The abscissa [k] steps beyond a window whose points sit at
    [0, 1, ..., n - 1]: [k] past the last of them. *)
Definition steps_beyond (window : list Q) (k : Q) : Q := (Qlen window - 1 + k)%Q.

(** Estimator B's price in the words of the design document: the
    least-squares line through the last 30 closes, at [x = 0 .. 29],
    extrapolated 5 steps beyond the window. *)
Definition estimator_B_price (close : list Q) : option Q :=
  let window := tail 30 close in
  match Np.polyfit1 (Np.arange (length window)) window with
  | Ok (slope, intercept) => Some (slope * steps_beyond window 5 + intercept)%Q
  | Raise _ => None
  end.

(** Estimator C: the label and the confidence that the class
    probabilities [(P(down), P(up))] decide. *)
Definition decide_trend (prob : Q * Q) : MLPredict.trend_label * pyfloat :=
  if Qgtb prob.2 0.6 then (MLPredict.up, Fin prob.2)
  else if Qgtb prob.1 0.6 then (MLPredict.down, Fin prob.1)
  else (MLPredict.sideways, py_max (Fin prob.1) (Fin prob.2)).

(** Two class probabilities: non-negative and adding up to one. *)
Definition probabilities (prob : Q * Q) : Prop :=
  (0 <= prob.1)%Q ∧ (0 <= prob.2)%Q ∧ (prob.1 + prob.2 == 1)%Q.

(** A classifier is well behaved when whatever it returns are class
    probabilities. *)
Definition well_behaved (sk : MLPredict.Sklearn) : Prop :=
  ∀ n d s X y X_latest prob,
    @MLPredict.fit_predict_proba sk n d s X y X_latest = Ok prob → probabilities prob.

(** Row [i] of an [n]-bar series has a label when the close five bars
    later exists. *)
Definition labelled (n i : nat) : bool := (i + 5 <? n)%nat.

(** The rows that have all their features and a label. *)
Definition valid_labelled_rows {sk : MLPredict.Sklearn} (df : list Bar) : list nat :=
  List.filter
    (fun i => negb (MLPredict.has_nan (MLPredict.features_at (closes df) i))
              && labelled (length df) i)
    (seq 0 (length df)).

(** [needle] occurs in [hay] as a contiguous substring. *)
Definition occurs_in (needle hay : string) : Prop :=
  ∃ before after, hay = String.append before (String.append needle after).

(** A string made of decimal digits only, like the codes of the stock
    directory. *)
Fixpoint digits (s : string) : bool :=
  match s with
  | EmptyString => true
  | String c r =>
    (48 <=? nat_of_ascii c)%nat && (nat_of_ascii c <=? 57)%nat && digits r
  end.

(** A string of ASCII characters only. *)
Definition ascii_only (s : string) : bool := StockData.str_forall StockData.is_ascii s.

(** Two characters that are the same letter: equal, or a lower-case ASCII
    letter and its capital, 32 places before it. *)
Definition case_pair (a b : ascii) : bool :=
  let na := nat_of_ascii a in
  let nb := nat_of_ascii b in
  Ascii.eqb a b
  || ((97 <=? na)%nat && (na <=? 122)%nat && (nb =? na - 32)%nat)
  || ((97 <=? nb)%nat && (nb <=? 122)%nat && (na =? nb - 32)%nat).

(** Two strings that differ at most in the case of their ASCII letters. *)
Fixpoint same_ignoring_case (x y : string) : bool :=
  match x, y with
  | EmptyString, EmptyString => true
  | String a x, String b y => case_pair a b && same_ignoring_case x y
  | _, _ => false
  end.

(** A property of the Unicode database: no character outside ASCII has
    an upper case made of decimal digits, and none has an empty one. *)
Definition no_digit_upper (uc : StockData.Unicode) : Prop :=
  ∀ r, r ≠ "" → StockData.str_forall (fun c => negb (StockData.is_ascii c)) r = true →
       StockData.str_forall StockData.isdigit (@StockData.upper_run uc r) = false.

(** The character [c] does not occur in [s]. *)
Fixpoint lacks (c : ascii) (s : string) : bool :=
  match s with
  | EmptyString => true
  | String a r => negb (Ascii.eqb a c) && lacks c r
  end.

(** A JSONP answer: a payload between the first opening and the last
    closing parenthesis. *)
Definition wrapped (pre body post : string) : string :=
  pre +:+ "(" +:+ body +:+ ")" +:+ post.

(** The period that reaches the historical provider. *)
Definition period_sent (period : string) : string :=
  if String.eqb period "weekly" then "weekly"
  else if String.eqb period "monthly" then "monthly" else "daily".

(** What a pass of the retry loop can use of an answer of the historical
    provider: a non-empty frame whose dates all parse, with the dates
    rewritten. *)
Definition usable {up : StockData.Upstream} (answer : result (option (list Bar)))
  : option (list Bar) :=
  match answer with
  | Ok (Some ((_ :: _) as rows)) =>
    match StockData.format_dates rows with Ok rows' => Some rows' | Raise _ => None end
  | _ => None
  end.

(** The pauses before the three attempts, in seconds. *)
Definition pauses : list Q := [0.3 * 0; 0.3 * 1; 0.3 * 2]%Q.

(** Strictly rising and strictly falling series. *)
Fixpoint increasing (xs : list Q) : bool :=
  match xs with
  | x :: r => match r with y :: _ => Qltb x y | [] => true end && increasing r
  | [] => true
  end.
Fixpoint decreasing (xs : list Q) : bool :=
  match xs with
  | x :: r => match r with y :: _ => Qgtb x y | [] => true end && decreasing r
  | [] => true
  end.

(** The eight numeric cells of a row of the spot table, in the order in
    which the service converts them. *)
Definition cells (row : StockData.SpotRow) : list (result pyfloat) :=
  [StockData.spot_price row; StockData.spot_change row; StockData.spot_change_pct row;
   StockData.spot_open row; StockData.spot_high row; StockData.spot_low row;
   StockData.spot_volume row; StockData.spot_amount row].

End Spec.

(* ===================================================================== *)
(** * Test data and test doubles *)
(* ===================================================================== *)

Module Fixtures.
Import Indicators MLPredict.

(** A bar whose four prices are all [c]. *)
Definition flat_bar (c : Q) : Bar := mkBar "2024-01-02" c c c c 1000 0.

(** [n] bars with [close[i] = c0 + i]. *)
Definition rising (c0 : Q) (n : nat) : list Bar :=
  (fun i => flat_bar (c0 + inject_Z (Z.of_nat i))) <$> seq 0 n.

(** [n] bars that climb from 100 to 105 and fall back, with period 10, so
    that the five-bar-ahead labels are mixed. *)
Definition zigzag_close (i : nat) : Q :=
  let k := (i mod 10)%nat in
  100 + inject_Z (Z.of_nat (if (k <=? 5)%nat then k else 10 - k)).
Definition zigzag (n : nat) : list Bar :=
  (fun i => flat_bar (zigzag_close i)) <$> seq 0 n.

(** [n] bars with the same close. *)
Definition flat (c : Q) (n : nat) : list Bar := replicate n (flat_bar c).

(** A [ta] whose every series ends with the given value. *)
Definition ta_const (v : pyfloat) : TaLib :=
  {| macd := fun _ => v; macd_signal := fun _ => v; macd_diff := fun _ => v;
     rsi := fun _ => v;
     stoch := fun _ _ _ => v; stoch_signal := fun _ _ _ => v;
     bollinger_hband := fun _ => v; bollinger_mavg := fun _ => v;
     bollinger_lband := fun _ => v |}.

(** A square root to six decimals. *)
Definition sqrt6 (q : Q) : Q :=
  Qmake (Z.sqrt (Qnum q * 1000000000000 / QDen q)) 1000000.

(** A classifier that answers with fixed class probabilities. *)
Definition sk_const (p0 p1 : Q) : Sklearn :=
  {| sqrt := sqrt6; fit_predict_proba := fun _ _ _ _ _ _ => Ok (p0, p1) |}.

(** A classifier whose fit fails. *)
Definition sk_raise : Sklearn :=
  {| sqrt := sqrt6; fit_predict_proba := fun _ _ _ _ _ _ => Raise ValueError |}.

(** An upstream pair: the snapshot endpoint answers [response] and its
    body decodes to [rows]; the historical provider answers [hist n] on its
    [n]-th call; every date cell parses. *)
Definition upstream (response : result (Z * string)) (rows : result (list Bar))
    (hist : nat → result (option (list Bar))) : StockData.Upstream :=
  {| StockData.sina_get := fun _ _ => response;
     StockData.sina_decode := fun _ => rows;
     StockData.stock_zh_a_hist := fun _ _ n => hist n;
     StockData.to_date := fun d => Ok d |}.

(** The wrapper that the snapshot endpoint puts around its JSON array. *)
Definition jsonp : string := "var _sh600000_240=([{}]);".

(** A directory of [n] Shanghai entries with codes 600000, 600001, ... *)
Definition directory (n : nat) : list StockData.Stock :=
  (fun i => StockData.mkStock (pretty (600000 + N.of_nat i)%N)
                              (String.append "Bank " (pretty i)) "SH") <$> seq 0 n.

(** The state of the world before a request. *)
Definition w0 : StockData.World := StockData.mkWorld 0 [].

(** The part of the Unicode database that the examples need: the
    full-width letters ａ-ｚ (bytes EF BD 81 .. EF BD 9A) go to Ａ-Ｚ (bytes
    EF BC A1 .. EF BC BA), and every other character stays. *)
Fixpoint upper_fullwidth (s : string) : string :=
  match s with
  | EmptyString => EmptyString
  | String a t =>
    match t with
    | String b (String c r) =>
      if (nat_of_ascii a =? 239)%nat && (nat_of_ascii b =? 189)%nat
         && (129 <=? nat_of_ascii c)%nat && (nat_of_ascii c <=? 154)%nat
      then String a (String (ascii_of_nat 188)
                            (String (ascii_of_nat (nat_of_ascii c + 32)) (upper_fullwidth r)))
      else String a (upper_fullwidth t)
    | _ => String a (upper_fullwidth t)
    end
  end.

Definition unicode : StockData.Unicode := {| StockData.upper_run := upper_fullwidth |}.

(** [n] bars with [close[i] = c0 - i]. *)
Definition falling (c0 : Q) (n : nat) : list Bar :=
  (fun i => flat_bar (c0 - inject_Z (Z.of_nat i))) <$> seq 0 n.

End Fixtures.

(* ===================================================================== *)
(** * Properties of the runtime model *)
(* ===================================================================== *)

Import Indicators MLPredict StockData Spec Fixtures.

Lemma Qltb_lt (x y : Q) : Qltb x y = true ↔ (x < y)%Q.
Proof. unfold Qltb, Qlt. apply Z.ltb_lt. Qed.

Lemma Qltb_nlt (x y : Q) : Qltb x y = false ↔ (y <= x)%Q.
Proof. unfold Qltb, Qle. apply Z.ltb_ge. Qed.

Lemma Qgtb_gt (x y : Q) : Qgtb x y = true ↔ (y < x)%Q.
Proof. apply Qltb_lt. Qed.

Lemma Qgtb_ngt (x y : Q) : Qgtb x y = false ↔ (x <= y)%Q.
Proof. apply Qltb_nlt. Qed.

(** The boolean comparison computes the relation. *)
Lemma pf_gt_spec (a b : pyfloat) : pf_gt a b = true ↔ gt_float a b.
Proof.
  split.
  - destruct a, b; simpl; try discriminate; intros H; try constructor.
    by apply Qgtb_gt.
  - destruct 1; simpl; try reflexivity. by apply Qgtb_gt.
Qed.

Lemma pf_gt_false (a b : pyfloat) : pf_gt a b = false ↔ ¬ gt_float a b.
Proof.
  rewrite <- pf_gt_spec. destruct (pf_gt a b); split; done.
Qed.

Lemma pf_lt_spec (a b : pyfloat) : pf_lt a b = true ↔ gt_float b a.
Proof. apply pf_gt_spec. Qed.

Lemma gt_float_asym (a b : pyfloat) : gt_float a b → ¬ gt_float b a.
Proof.
  intros H1 H2. destruct H1; inversion H2; subst.
  eapply Qlt_irrefl, Qlt_trans; eauto.
Qed.

Lemma gt_float_trans (a b c : pyfloat) : gt_float a b → gt_float b c → gt_float a c.
Proof.
  intros H1 H2. destruct H1; inversion H2; subst; try constructor.
  eapply Qlt_trans; eauto.
Qed.

(** A frame is too short exactly when it has fewer than 60 rows. *)
Lemma too_short_lt (df : list Bar) : too_short df = true ↔ (length df < 60)%nat.
Proof.
  unfold too_short. rewrite orb_true_iff, bool_decide_eq_true, Nat.ltb_lt.
  split; [intros [-> | H]; simpl; lia | tauto].
Qed.

Lemma too_short_ge (df : list Bar) : too_short df = false ↔ (60 <= length df)%nat.
Proof.
  rewrite <- not_true_iff_false, too_short_lt. lia.
Qed.

(* ===================================================================== *)
(** * Short series *)
(* ===================================================================== *)

(** C1.  A series of fewer than 60 bars, the empty one included, gets an
    empty indicator set from [calculate_all] and the fixed default record
    from [predict_all]: three times trend sideways, price 0, confidence 0.5. *)
Theorem short_series_defaults `{TaLib} `{Sklearn} (df : list Bar) :
  (length df < 60)%nat →
  calculate_all df = ∅ ∧
  predict_all df =
    Ok (mkPrediction sideways (Fin 0) (Fin 0.5)
                     sideways (Fin 0) (Fin 0.5)
                     sideways (Fin 0) (Fin 0.5)).
Proof.
  intros Hlen. apply too_short_lt in Hlen.
  unfold calculate_all, predict_all. rewrite Hlen. done.
Qed.

Lemma short_series_defaults_witness :
  (length (rising 100 59) < 60)%nat ∧
  @calculate_all (ta_const NaN) (rising 100 59) = ∅ ∧
  @predict_all (sk_const 0.5 0.5) (rising 100 59) =
    Ok (mkPrediction sideways (Fin 0) (Fin 0.5)
                     sideways (Fin 0) (Fin 0.5)
                     sideways (Fin 0) (Fin 0.5)).
Proof.
  split; [vm_compute; lia |].
  apply (@short_series_defaults (ta_const NaN) (sk_const 0.5 0.5) (rising 100 59)).
  vm_compute; lia.
Defined.

(* ===================================================================== *)
(** * The signal classifier *)
(* ===================================================================== *)

Lemma gt_float_fin (x y : Q) : gt_float (Fin x) (Fin y) ↔ (y < x)%Q.
Proof. split; [by inversion 1 | by constructor]. Qed.

(** Case analysis on every test of a chain of conditionals. *)
Ltac break_ifs :=
  repeat match goal with |- context [if ?c then _ else _] => destruct c end.

Lemma three_way_spec (v : pyfloat) (hi lo : Q) :
  (lo <= hi)%Q →
  (three_way v hi lo = bearish ↔ gt_float v (Fin hi)) ∧
  (three_way v hi lo = bullish ↔ gt_float (Fin lo) v) ∧
  (three_way v hi lo = neutral ↔ ¬ gt_float v (Fin hi) ∧ ¬ gt_float (Fin lo) v).
Proof.
  intros Hle. unfold three_way.
  destruct (pf_gt v (Fin hi)) eqn:E1; [apply pf_gt_spec in E1 | apply pf_gt_false in E1].
  - assert (¬ gt_float (Fin lo) v) as E2.
    { intros E2. pose proof (gt_float_trans _ _ _ E2 E1) as E3.
      apply gt_float_fin in E3. lra. }
    repeat split; try done; tauto.
  - destruct (pf_lt v (Fin lo)) eqn:E2;
      [apply pf_lt_spec in E2 | unfold pf_lt in E2; apply pf_gt_false in E2];
      repeat split; try done; tauto.
Qed.

(** The RSI and KDJ entries are the three-way classification of the
    reading, with 50 standing in for a missing key. *)
Lemma get_signals_rsi_kdj (indicators : gmap string pyfloat) :
  ∃ s1 s4,
    get_signals indicators =
      [s1;
       mkSignal "RSI" (three_way (dict_get indicators "rsi" (Fin 50)) 70 30)
                (match three_way (dict_get indicators "rsi" (Fin 50)) 70 30 with
                 | bearish => "超买" | bullish => "超卖" | neutral => "中性" end);
       mkSignal "KDJ" (three_way (dict_get indicators "kdj_j" (Fin 50)) 80 20)
                (match three_way (dict_get indicators "kdj_j" (Fin 50)) 80 20 with
                 | bearish => "超买" | bullish => "超卖" | neutral => "中性" end);
       s4].
Proof.
  unfold get_signals, three_way. break_ifs; simpl; do 2 eexists; reflexivity.
Qed.

(** C7.  For every indicator mapping, the empty and the all-zero one
    included, [get_signals] returns exactly four signals, named MACD, RSI,
    KDJ and moving-average alignment in this order; the MACD signal is
    bullish exactly when macd > signal, bearish exactly when not, and never
    neutral. *)
Theorem get_signals_four_in_order (indicators : gmap string pyfloat) :
  ∃ s1 s2 s3 s4,
    get_signals indicators = [s1; s2; s3; s4] ∧
    List.map Indicators.name [s1; s2; s3; s4] = ["MACD"; "RSI"; "KDJ"; "均线"] ∧
    (type s1 = bullish ↔
       gt_float (dict_get indicators "macd" (Fin 0)) (dict_get indicators "signal" (Fin 0))) ∧
    (type s1 = bearish ↔
       ¬ gt_float (dict_get indicators "macd" (Fin 0)) (dict_get indicators "signal" (Fin 0))) ∧
    type s1 ≠ neutral.
Proof.
  unfold get_signals.
  destruct (pf_gt (dict_get indicators "macd" (Fin 0))
                  (dict_get indicators "signal" (Fin 0))) eqn:Em.
  all: break_ifs.
  all: simpl; do 4 eexists; split; [reflexivity |]; simpl.
  all: first [apply pf_gt_spec in Em | apply pf_gt_false in Em].
  all: repeat split; try done.
Qed.

(** The degenerate mappings of C7, evaluated. *)
Example get_signals_empty :
  get_signals ∅ =
    [mkSignal "MACD" bearish "死叉"; mkSignal "RSI" neutral "中性";
     mkSignal "KDJ" neutral "中性"; mkSignal "均线" neutral "交织"].
Proof. reflexivity. Qed.

Example get_signals_all_zero :
  get_signals (list_to_map ((fun k => (k, Fin 0)) <$>
    ["current_price"; "ma5"; "ma10"; "ma20"; "ma60"; "macd"; "signal"; "hist";
     "rsi"; "kdj_k"; "kdj_d"; "kdj_j"; "boll_upper"; "boll_middle"; "boll_lower";
     "support_level"; "resistance_level"])) =
    [mkSignal "MACD" bearish "死叉"; mkSignal "RSI" bullish "超卖";
     mkSignal "KDJ" bullish "超卖"; mkSignal "均线" neutral "交织"].
Proof. vm_compute. reflexivity. Qed.

(** C8.  The RSI and KDJ thresholds are strict.  An RSI equal to 70 is
    neutral and the RSI signal is bearish exactly when RSI > 70; an RSI equal
    to 30 is neutral and the signal is bullish exactly when RSI < 30.  The
    KDJ signal is bearish iff J > 80, bullish iff J < 20, neutral otherwise. *)
Theorem rsi_kdj_thresholds_strict (indicators : gmap string pyfloat) :
  let rsi := dict_get indicators "rsi" (Fin 50) in
  let kdj_j := dict_get indicators "kdj_j" (Fin 50) in
  ∃ s1 s2 s3 s4,
    get_signals indicators = [s1; s2; s3; s4] ∧
    Indicators.name s2 = "RSI" ∧ Indicators.name s3 = "KDJ" ∧
    (∀ q, rsi = Fin q → (q == 70)%Q → type s2 = neutral) ∧
    (type s2 = bearish ↔ gt_float rsi (Fin 70)) ∧
    (∀ q, rsi = Fin q → (q == 30)%Q → type s2 = neutral) ∧
    (type s2 = bullish ↔ gt_float (Fin 30) rsi) ∧
    (type s3 = bearish ↔ gt_float kdj_j (Fin 80)) ∧
    (type s3 = bullish ↔ gt_float (Fin 20) kdj_j) ∧
    (type s3 = neutral ↔ ¬ gt_float kdj_j (Fin 80) ∧ ¬ gt_float (Fin 20) kdj_j).
Proof.
  intros rsi kdj_j.
  destruct (get_signals_rsi_kdj indicators) as (s1 & s4 & ->).
  fold rsi kdj_j.
  destruct (three_way_spec rsi 70 30) as (Hr1 & Hr2 & Hr3); [lra |].
  destruct (three_way_spec kdj_j 80 20) as (Hk1 & Hk2 & Hk3); [lra |].
  do 4 eexists. split; [reflexivity |]. simpl.
  repeat split; try tauto.
  - intros q -> Hq. apply Hr3. rewrite !gt_float_fin. lra.
  - intros q -> Hq. apply Hr3. rewrite !gt_float_fin. lra.
Qed.

(** The boundary readings of C8, evaluated: 70 and 30 are neutral, 70.0001
    is bearish, 29.9999 is bullish. *)
Example rsi_boundaries :
  List.map (fun v => type <$> get_signals {["rsi" := Fin v]} !! 1%nat)
           [70; 70.0001; 30; 29.9999]%Q =
    [Some neutral; Some bearish; Some neutral; Some bullish].
Proof. vm_compute. reflexivity. Qed.

(* ===================================================================== *)
(** * The indicator calculator *)
(* ===================================================================== *)

Lemma float_or_not_nan (x : pyfloat) (d : Q) : isna (float_or x d) = false.
Proof. by destruct x. Qed.

(** C9.  On a series of at least 60 bars the indicator set holds a K and a
    D that are not NaN, and its J is [3 * K - 2 * D], computed from exactly
    these two stored values. *)
Theorem kdj_j_identity `{TaLib} (df : list Bar) :
  (60 ≤ length df)%nat →
  ∃ k d : pyfloat,
    calculate_all df !! "kdj_k" = Some k ∧
    calculate_all df !! "kdj_d" = Some d ∧
    isna k = false ∧ isna d = false ∧
    calculate_all df !! "kdj_j" = Some (pf_sub (pf_mul (Fin 3) k) (pf_mul (Fin 2) d)) ∧
    (∀ a b : Q, k = Fin a → d = Fin b →
       calculate_all df !! "kdj_j" = Some (Fin (3 * a - 2 * b))).
Proof.
  intros Hlen. apply too_short_ge in Hlen.
  unfold calculate_all. rewrite Hlen.
  exists (float_or (stoch (highs df) (lows df) (closes df)) 50),
         (float_or (stoch_signal (highs df) (lows df) (closes df)) 50).
  cbv zeta. unfold getitem.
  split_and!.
  - by simplify_map_eq.
  - by simplify_map_eq.
  - apply float_or_not_nan.
  - apply float_or_not_nan.
  - by simplify_map_eq.
  - intros a b Ha Hb. simplify_map_eq. by rewrite Ha, Hb.
Qed.

Lemma kdj_j_identity_witness :
  (60 ≤ length (rising 100 60))%nat ∧
  ∃ k d : pyfloat,
    @calculate_all (ta_const (Fin 80)) (rising 100 60) !! "kdj_k" = Some k ∧
    @calculate_all (ta_const (Fin 80)) (rising 100 60) !! "kdj_d" = Some d ∧
    isna k = false ∧ isna d = false ∧
    @calculate_all (ta_const (Fin 80)) (rising 100 60) !! "kdj_j" =
      Some (pf_sub (pf_mul (Fin 3) k) (pf_mul (Fin 2) d)) ∧
    (∀ a b : Q, k = Fin a → d = Fin b →
       @calculate_all (ta_const (Fin 80)) (rising 100 60) !! "kdj_j" =
         Some (Fin (3 * a - 2 * b))).
Proof.
  split; [vm_compute; lia |].
  apply (@kdj_j_identity (ta_const (Fin 80)) (rising 100 60)). vm_compute; lia.
Defined.

(* ===================================================================== *)
(** * Slices and arrays *)
(* ===================================================================== *)

Lemma slice_index_range (n i : Z) : (0 <= n)%Z → (0 <= slice_index n i <= n)%Z.
Proof. intros Hn. unfold slice_index. destruct (i <? 0)%Z eqn:E; lia. Qed.

Lemma py_slice_length {A} (start stop : option Z) (l : list A) :
  length (py_slice start stop l) =
    Z.to_nat (from_option (slice_index (Z.of_nat (length l))) (Z.of_nat (length l)) stop
              - from_option (slice_index (Z.of_nat (length l))) 0%Z start).
Proof.
  unfold py_slice. cbv zeta.
  set (n := Z.of_nat (length l)).
  assert (0 <= n)%Z as Hn by lia.
  assert (0 <= from_option (slice_index n) 0%Z start <= n)%Z as Hlo.
  { destruct start; simpl; [by apply slice_index_range | lia]. }
  assert (0 <= from_option (slice_index n) n stop <= n)%Z as Hhi.
  { destruct stop; simpl; [by apply slice_index_range | lia]. }
  rewrite length_take, length_drop. lia.
Qed.

(** [l[-k:]] is the last [k] elements. *)
Lemma py_slice_last {A} (k : nat) (l : list A) :
  (0 < k)%nat → py_slice (Some (- Z.of_nat k)%Z) None l = tail k l.
Proof.
  intros Hk. unfold py_slice, tail, slice_index. simpl.
  destruct (Z.ltb_spec (- Z.of_nat k) 0); [| lia].
  replace (Z.to_nat (Z.max 0 (Z.of_nat (length l) + - Z.of_nat k)))
    with (length l - k)%nat by lia.
  apply take_ge. rewrite length_drop. lia.
Qed.

(** [l[:-k]] is everything but the last [k] elements. *)
Lemma py_slice_but_last {A} (k : nat) (l : list A) :
  (0 < k)%nat → py_slice None (Some (- Z.of_nat k)%Z) l = take (length l - k) l.
Proof.
  intros Hk. unfold py_slice, slice_index. simpl.
  destruct (Z.ltb_spec (- Z.of_nat k) 0); [| lia].
  rewrite drop_0. f_equal. lia.
Qed.

(** [l[:k]] is the first [k] elements. *)
Lemma py_slice_first {A} (k : nat) (l : list A) :
  py_slice None (Some (Z.of_nat k)) l = take k l.
Proof.
  unfold py_slice, slice_index. simpl.
  destruct (Z.ltb_spec (Z.of_nat k) 0); [lia |].
  rewrite drop_0.
  destruct (Nat.le_gt_cases k (length l)).
  - f_equal. lia.
  - rewrite !take_ge by lia. done.
Qed.

Lemma tail_length {A} (k : nat) (l : list A) : length (tail k l) = Nat.min k (length l).
Proof. unfold tail. rewrite length_drop. lia. Qed.

Lemma diff_length (a : list Q) : length (Np.diff a) = (length a - 1)%nat.
Proof.
  induction a as [| x [| y r] IH]; simpl in *; try done. rewrite IH. lia.
Qed.

(** Two arrays of different lengths, neither of length one, do not
    broadcast. *)
Lemma divide_mismatch (a b : list Q) :
  length a ≠ length b → length a ≠ 1%nat → length b ≠ 1%nat →
  Np.divide a b = Raise ValueError.
Proof.
  intros Hab Ha Hb. unfold Np.divide.
  destruct (Nat.eqb_spec (length a) (length b)) as [|_]; [done |].
  destruct a as [| x [| x' a]], b as [| y [| y' b]]; simpl in *; done.
Qed.

Lemma iloc_last_ok {A} (l : list A) : l ≠ [] → ∃ v, iloc_last l = Ok v ∧ last l = Some v.
Proof.
  intros Hl. unfold iloc_last. destruct (last l) eqn:E; [eauto |].
  apply last_None in E. done.
Qed.

Lemma closes_nonempty (df : list Bar) : df ≠ [] → closes df ≠ [].
Proof. by destruct df. Qed.

(** On a non-empty frame the [except] clause returns its record. *)
Lemma fallback_ok (df : list Bar) :
  df ≠ [] →
  ∃ c, last (closes df) = Some c ∧
       fallback df = Ok (mkEstimate sideways (Fin c) (Fin 0.5)).
Proof.
  intros Hdf. unfold fallback.
  destruct (iloc_last_ok (closes df)) as (c & -> & Hc); [by apply closes_nonempty |].
  eauto.
Qed.

(** [min(0.9, max(0.3, q))] is the clamp of [q] to [[0.3, 0.9]]. *)
Lemma clamp_confidence (q : Q) :
  ∃ z, py_min (Fin 0.9) (py_max (Fin 0.3) (Fin q)) = Fin z ∧
       (z == clamp 0.3 0.9 q)%Q ∧ (0.3 <= z)%Q ∧ (z <= 0.9)%Q.
Proof.
  unfold py_min, py_max, pf_lt, pf_gt, clamp.
  destruct (Qgtb q 0.3) eqn:E1.
  - destruct (Qgtb 0.9 q) eqn:E2.
    + apply Qgtb_gt in E1, E2. exists q. split; [done |].
      rewrite Q.min_r, Q.max_r by lra. split; [reflexivity | lra].
    + apply Qgtb_gt in E1. apply Qgtb_ngt in E2. exists 0.9%Q. split; [done |].
      rewrite Q.min_l, Q.max_r by lra. split; [reflexivity | lra].
  - apply Qgtb_ngt in E1. exists 0.3%Q. split; [done |].
    rewrite Q.min_r, Q.max_l by lra. split; [reflexivity | lra].
Qed.

(* ===================================================================== *)
(** * Estimator A *)
(* ===================================================================== *)

(** [np.diff(close[-10:])] has nine elements and [close[-11:-1]] has ten
    once the series has eleven closes, so their quotient raises. *)
Lemma recent_returns_raise (close : list Q) :
  (11 ≤ length close)%nat →
  Np.divide (Np.diff (py_slice (Some (-10)%Z) None close))
            (py_slice (Some (-11)%Z) (Some (-1)%Z) close) = Raise ValueError.
Proof.
  intros Hlen.
  assert (length (Np.diff (py_slice (Some (-10)%Z) None close)) = 9%nat) as H9.
  { rewrite diff_length, py_slice_length. simpl. unfold slice_index. simpl. lia. }
  assert (length (py_slice (Some (-11)%Z) (Some (-1)%Z) close) = 10%nat) as H10.
  { rewrite py_slice_length. simpl. unfold slice_index. simpl. lia. }
  apply divide_mismatch; lia.
Qed.

Lemma ewm_mean_last_ok (span : Q) (xs : list Q) :
  xs ≠ [] → ∃ v, Np.ewm_mean_last span xs = Ok v.
Proof.
  destruct xs as [| x xs]; [done |]. intros _. unfold Np.ewm_mean_last.
  destruct (foldl _ _ _). eauto.
Qed.

(** From eleven bars on, estimator A always ends in its [except] clause. *)
Lemma lstm_predict_is_fallback (df : list Bar) :
  (11 ≤ length df)%nat → _lstm_predict df = fallback df.
Proof.
  intros Hlen. unfold _lstm_predict.
  assert (closes df ≠ []) as Hne by (destruct df; [simpl in Hlen; lia | done]).
  destruct (ewm_mean_last_ok 5 _ Hne) as [es ->].
  destruct (ewm_mean_last_ok 20 _ Hne) as [el ->].
  destruct (iloc_last_ok _ Hne) as (c & -> & _).
  cbn [mbind result_bind].
  rewrite recent_returns_raise; [done |].
  unfold closes. by rewrite length_fmap.
Qed.

(** With ten bars the shapes agree and the estimator does compute a
    confidence from the returns. *)
Example lstm_predict_ten_bars :
  _lstm_predict (rising 100 10) ≠ fallback (rising 100 10).
Proof. vm_compute. discriminate. Qed.

(** C2.  On the 60-bar series [close[i] = 100 + i] the code returns trend
    sideways, the last close 159 and confidence 0.5: the return
    computation raises and the [except] clause answers.  The design
    document's estimator gives trend up with the agreeing fraction of the
    last ten returns (all positive) clamped to 0.9. *)
Theorem lstm_predict_rising_series :
  _lstm_predict (rising 100 60) = Ok (mkEstimate sideways (Fin 159) (Fin 0.5)) ∧
  ∃ p, estimator_A (closes (rising 100 60)) = Some (mkEstimate up p (Fin 0.9)).
Proof.
  split; [vm_compute; reflexivity |].
  eexists. vm_compute. reflexivity.
Qed.

(* ===================================================================== *)
(** * The straight-line fit *)
(* ===================================================================== *)

Section line_fit.
Local Open Scope Q_scope.

Lemma Qlen_nil {A} : Qlen (@nil A) == 0.
Proof. reflexivity. Qed.

Lemma Qlen_cons {A} (a : A) (l : list A) : Qlen (a :: l) == Qlen l + 1.
Proof.
  unfold Qlen. cbn [length]. rewrite Nat2Z.inj_succ, <- Z.add_1_r, inject_Z_plus. reflexivity.
Qed.

Lemma Qlen_pos {A} (l : list A) : l ≠ [] → 0 < Qlen l.
Proof.
  destruct l; [done |]. intros _. unfold Qlen. cbn [length].
  change 0 with (inject_Z 0). rewrite <- Zlt_Qlt. lia.
Qed.

Lemma Qlen_nonneg {A} (l : list A) : 0 <= Qlen l.
Proof. unfold Qlen. change 0 with (inject_Z 0). rewrite <- Zle_Qle. lia. Qed.

Lemma Qsum_cons (a : Q) (l : list Q) : Qsum (a :: l) = a + Qsum l.
Proof. reflexivity. Qed.

(** The residual sum of squares, expanded in the sums of the data. *)
Lemma ss_res_expand (x y : list Q) (a b : Q) :
  length x = length y →
  ss_res y x a b ==
    Np.Sxy y y - 2 * a * Np.Sxy x y - 2 * b * Qsum y
    + a * a * Np.Sxx x + 2 * a * b * Np.Sx x + Qlen x * (b * b).
Proof.
  revert y. induction x as [| xi x IH]; intros [| yi y] Hlen; try discriminate.
  - unfold ss_res, Np.Sxy, Np.Sxx, Np.Sx, Qlen. simpl. ring.
  - injection Hlen as Hlen. specialize (IH y Hlen).
    unfold ss_res, Np.Sxy, Np.Sxx, Np.Sx in *. cbn [fmap list_fmap zip_with].
    rewrite !Qsum_cons, Qlen_cons.
    cbn [fmap] in IH. rewrite IH. ring.
Qed.

Lemma Qsquare_nonneg (q : Q) : 0 <= q * q.
Proof.
  destruct (Qlt_le_dec q 0) as [H | H].
  - assert (q * q == (- q) * (- q)) as -> by ring.
    apply Qmult_le_0_compat; lra.
  - by apply Qmult_le_0_compat.
Qed.

(** A sum of squares is not negative. *)
Lemma ss_res_nonneg (x y : list Q) (a b : Q) : 0 <= ss_res y x a b.
Proof.
  unfold ss_res. generalize ((λ xi : Q, a * xi + b) <$> x) as p.
  induction y as [| yi y IH]; intros [| pi p]; cbn [zip_with]; try (unfold Qsum; simpl; lra).
  rewrite Qsum_cons. specialize (IH p).
  pose proof (Qsquare_nonneg (yi - pi)). lra.
Qed.

(** The normal equations of the fit. *)
Lemma polyfit1_normal (x y : list Q) (a b : Q) :
  Np.polyfit1 x y = Ok (a, b) →
  length x = length y ∧
  ¬ Qlen x * Np.Sxx x - Np.Sx x * Np.Sx x == 0 ∧
  Qlen x * b + a * Np.Sx x == Qsum y ∧
  b * Np.Sx x + a * Np.Sxx x == Np.Sxy x y.
Proof.
  intros Hfit.
  assert (x ≠ []) as Hne by (intros ->; discriminate).
  unfold Np.polyfit1 in Hfit. destruct x as [| x0 x']; [done |].
  remember (x0 :: x') as x eqn:Ex. clear Ex.
  destruct (Nat.eqb_spec (length x) (length y)) as [Hlen | Hlen]; [| discriminate].
  cbn [negb] in Hfit.
  destruct (Qeq_bool _ 0) eqn:Hden; [discriminate |].
  apply Qeq_bool_neq in Hden.
  pose proof (Qlen_pos x Hne) as Hn.
  revert Hfit Hden Hn.
  generalize (Np.Sxy x y) (Qsum y) (Np.Sxx x) (Np.Sx x) (Qlen x).
  intros sxy sy sxx sx n [= <- <-] Hden Hn.
  split; [done |]. split; [done |].
  split; field; split; lra.
Qed.

(** [np.polyfit(x, y, 1)] returns a least-squares line. *)
Lemma polyfit1_least_squares (x y : list Q) (a b : Q) :
  Np.polyfit1 x y = Ok (a, b) →
  ∀ a' b', ss_res y x a b <= ss_res y x a' b'.
Proof.
  intros Hfit a' b'.
  destruct (polyfit1_normal x y a b Hfit) as (Hlen & _ & H1 & H2).
  rewrite (ss_res_expand x y a b Hlen), (ss_res_expand x y a' b' Hlen).
  (* the difference is the sum of the squares [((a' - a) x_i + (b' - b))^2] *)
  pose proof (ss_res_nonneg x ((λ _, 0) <$> x) (a' - a) (b' - b)) as Hsq.
  rewrite (ss_res_expand x _ (a' - a) (b' - b)) in Hsq by (by rewrite length_fmap).
  assert (Np.Sxy ((λ _, 0) <$> x) ((λ _, 0) <$> x) == 0) as Z1.
  { unfold Np.Sxy. clear. induction x; [reflexivity |]. cbn [fmap list_fmap zip_with].
    cbn [fmap] in IHx. rewrite Qsum_cons, IHx. ring. }
  assert (Np.Sxy x ((λ _, 0) <$> x) == 0) as Z2.
  { unfold Np.Sxy. clear. induction x; [reflexivity |]. cbn [fmap list_fmap zip_with].
    cbn [fmap] in IHx. rewrite Qsum_cons, IHx. ring. }
  assert (Qsum ((λ _, 0) <$> x) == 0) as Z3.
  { clear. induction x; [reflexivity |]. cbn [fmap list_fmap].
    cbn [fmap] in IHx. rewrite Qsum_cons, IHx. ring. }
  rewrite Z1, Z2, Z3 in Hsq.
  generalize dependent (Np.Sxy y y). generalize dependent (Np.Sxy x y).
  generalize dependent (Qsum y). generalize dependent (Np.Sxx x).
  generalize dependent (Np.Sx x). generalize dependent (Qlen x).
  intros n sx sxx H1 sy sxy H2 Hsq syy.
  nra.
Qed.

Lemma sum_sq_nonneg (m : Q) (l : list Q) :
  0 <= Qsum ((λ c, (c - m) * (c - m)) <$> l).
Proof.
  induction l as [| d l IH]; [unfold Qsum; simpl; lra |].
  rewrite fmap_cons, Qsum_cons. pose proof (Qsquare_nonneg (d - m)). lra.
Qed.

(** A vanishing sum of squared deviations: every value is the centre. *)
Lemma sum_sq_zero (m : Q) (l : list Q) :
  Qsum ((λ c, (c - m) * (c - m)) <$> l) == 0 → Forall (λ c, c == m) l.
Proof.
  induction l as [| c l IH]; [constructor |].
  rewrite fmap_cons, Qsum_cons. intros Hsum.
  pose proof (Qsquare_nonneg (c - m)) as Hc.
  pose proof (sum_sq_nonneg m l) as Hl.
  constructor.
  - assert ((c - m) * (c - m) == 0) as H0 by lra.
    apply Qmult_integral in H0. lra.
  - apply IH. lra.
Qed.

Lemma ss_tot_nonneg (close : list Q) : 0 <= ss_tot close.
Proof. apply sum_sq_nonneg. Qed.

(** The sums of a constant series. *)
Lemma constant_sums (m : Q) (x y : list Q) :
  length x = length y → Forall (λ c, c == m) y →
  Qsum y == Qlen x * m ∧ Np.Sxy x y == m * Np.Sx x.
Proof.
  revert y. induction x as [| xi x IH]; intros [| yi y] Hlen Hall; try discriminate.
  - unfold Np.Sxy, Np.Sx, Qlen, Qsum. simpl. split; ring.
  - injection Hlen as Hlen. inversion Hall as [| ? ? Hy Hall']; subst.
    destruct (IH y Hlen Hall') as [H1 H2].
    unfold Np.Sxy, Np.Sx in *. cbn [zip_with]. rewrite !Qsum_cons, Qlen_cons, H1, H2, Hy.
    split; ring.
Qed.

(** The line fitted to a constant series is that constant. *)
Lemma polyfit1_constant (m : Q) (x y : list Q) (a b : Q) :
  Np.polyfit1 x y = Ok (a, b) → Forall (λ c, c == m) y → a == 0 ∧ b == m.
Proof.
  intros Hfit Hall.
  destruct (polyfit1_normal x y a b Hfit) as (Hlen & Hden & H1 & H2).
  destruct (constant_sums m x y Hlen Hall) as [Hs Hxy].
  assert (x ≠ []) as Hne by (intros ->; discriminate).
  pose proof (Qlen_pos x Hne) as Hn.
  rewrite Hs in H1. rewrite Hxy in H2.
  revert Hden H1 H2 Hn. generalize (Np.Sxx x) (Np.Sx x) (Qlen x). intros sxx sx n Hden H1 H2 Hn.
  assert (a * (n * sxx - sx * sx) == 0) as Ha.
  { assert (a * (n * sxx - sx * sx) == n * (b * sx + a * sxx) - sx * (n * b + a * sx)) as ->
      by ring.
    rewrite H1, H2. ring. }
  apply Qmult_integral in Ha. destruct Ha as [Ha | Ha]; [| done].
  split; [done |]. rewrite Ha in H1.
  assert (n * (b - m) == 0) as Hb by lra.
  apply Qmult_integral in Hb. lra.
Qed.

End line_fit.

(* ===================================================================== *)
(** * Estimator B *)
(* ===================================================================== *)

(** When the system is regular the fit succeeds. *)
Lemma polyfit1_ok (x y : list Q) :
  x ≠ [] → length x = length y →
  Qeq_bool (Qlen x * Np.Sxx x - Np.Sx x * Np.Sx x) 0 = false →
  ∃ slope intercept, Np.polyfit1 x y = Ok (slope, intercept).
Proof.
  intros Hne Hlen Hden. unfold Np.polyfit1. destruct x as [| x0 x']; [done |].
  remember (x0 :: x') as x eqn:Ex. clear Ex.
  rewrite (proj2 (Nat.eqb_eq _ _) Hlen). cbn [negb]. rewrite Hden. eauto.
Qed.

Lemma arange_30_regular :
  Qeq_bool (Qlen (Np.arange 30) * Np.Sxx (Np.arange 30)
            - Np.Sx (Np.arange 30) * Np.Sx (Np.arange 30)) 0 = false.
Proof. vm_compute. reflexivity. Qed.

Lemma arange_length (n : nat) : length (Np.arange n) = n.
Proof. unfold Np.arange. by rewrite length_fmap, length_seq. Qed.

Lemma last_tail {A} (k : nat) (l : list A) : (0 < k)%nat → last (tail k l) = last l.
Proof.
  intros Hk. unfold tail.
  destruct (decide (l = [])) as [-> | Hl]; [done |].
  rewrite !last_lookup, lookup_drop, length_drop. f_equal.
  assert (0 < length l)%nat by (destruct l; [done | simpl; lia]). lia.
Qed.

(** Estimator B on a frame of at least 30 bars, with its window, its fit
    and its handler resolved. *)
Lemma prophet_predict_unfold (df : list Bar) :
  (30 ≤ length df)%nat →
  let w := tail 30 (closes df) in
  let x := Np.arange 30 in
  length w = 30%nat ∧
  ∃ slope intercept cur,
    Np.polyfit1 x w = Ok (slope, intercept) ∧
    last (closes df) = Some cur ∧
    _prophet_predict df =
      Ok (mkEstimate
            (if Qgtb slope 0 && Qgtb (slope * (Qlen w + 5) + intercept) (cur * 1.01) then up
             else if Qltb slope 0 && Qltb (slope * (Qlen w + 5) + intercept) (cur * 0.99)
                  then down else sideways)
            (Fin (slope * (Qlen w + 5) + intercept))
            (py_min (Fin 0.9) (py_max (Fin 0.3) (Fin (Qabs (r2_of w x slope intercept)))))).
Proof.
  intros Hlen w x.
  assert (length w = 30%nat) as Hw.
  { unfold w. rewrite tail_length. unfold closes. rewrite length_fmap. lia. }
  split; [done |].
  destruct (polyfit1_ok x w) as (slope & intercept & Hfit).
  { done. }
  { unfold x. by rewrite arange_length. }
  { apply arange_30_regular. }
  assert (w ≠ []) as Hne by (intros E; rewrite E in Hw; done).
  destruct (iloc_last_ok w Hne) as (cur & Hcur & Hlast).
  exists slope, intercept, cur. split; [done |].
  split. { unfold w in Hlast. by rewrite last_tail in Hlast by lia. }
  unfold _prophet_predict.
  change (Some (-30)%Z) with (Some (- Z.of_nat 30)%Z).
  rewrite (py_slice_last 30) by lia. fold w. rewrite Hw. fold x.
  rewrite Hfit. cbn [mbind result_bind]. rewrite Hcur. done.
Qed.

Lemma Qgtb_0_false (q : Q) : (q == 0)%Q → Qgtb q 0 = false.
Proof. intros H. apply Qgtb_ngt. lra. Qed.

(** Estimator B on at least 30 bars.  The line it uses is a least-squares
    line for the last 30 closes at [x = 0 .. 29]; the price is that line at
    [x = 35]; the confidence is the clamp of [|R^2|] to [[0.3, 0.9]], and
    on a window without variance it is the floor 0.3, the trend is
    sideways and the price is the common close. *)
Lemma prophet_predict_fit (df : list Bar) :
  (30 ≤ length df)%nat →
  let w := tail 30 (closes df) in
  let x := Np.arange 30 in
  ∃ slope intercept t p z,
    _prophet_predict df = Ok (mkEstimate t (Fin p) (Fin z)) ∧
    least_squares x w slope intercept ∧
    (p == slope * 35 + intercept)%Q ∧
    (0.3 <= z <= 0.9)%Q ∧
    (0 < ss_tot w → z == clamp 0.3 0.9 (Qabs (1 - ss_res w x slope intercept / ss_tot w)))%Q ∧
    (ss_tot w == 0 → z = 0.3 ∧ t = sideways ∧ Forall (λ c, p == c) w)%Q.
Proof.
  intros Hlen w x.
  destruct (prophet_predict_unfold df Hlen) as (Hw & slope & intercept & cur & Hfit & Hcur & Hrun).
  fold w x in Hw, Hfit, Hrun.
  destruct (clamp_confidence (Qabs (r2_of w x slope intercept))) as (z & Hz & Hclamp & Hlo & Hhi).
  rewrite Hz in Hrun.
  eexists slope, intercept, _, _, z. split; [exact Hrun |].
  assert (Qlen w + 5 == 35)%Q as H35.
  { unfold Qlen. rewrite Hw. reflexivity. }
  split_and!.
  - intros a' b'. by apply polyfit1_least_squares.
  - by rewrite H35.
  - done.
  - done.
  - intros Hpos. rewrite Hclamp. unfold r2_of.
    by rewrite (proj2 (Qgtb_gt _ _) Hpos).
  - intros Hzero.
    assert (r2_of w x slope intercept = 0%Q) as Hr2.
    { unfold r2_of. by rewrite Qgtb_0_false. }
    assert (Forall (λ c, c == Qmean w)%Q w) as Hall by (by apply sum_sq_zero).
    destruct (polyfit1_constant _ _ _ _ _ Hfit Hall) as [Hs Hi].
    split_and!.
    + rewrite Hr2 in Hz. vm_compute in Hz. by injection Hz as <-.
    + by rewrite (Qgtb_0_false slope Hs), (proj2 (Qltb_nlt slope 0)) by lra.
    + eapply Forall_impl; [exact Hall |]. cbn beta. intros c Hc.
      rewrite Hs, Hi, Hc. ring.
Qed.

(** The flat series of the design document's scenario. *)
Lemma prophet_predict_fit_flat :
  (30 ≤ length (flat 100 60))%nat ∧
  ∃ slope intercept t p z,
    _prophet_predict (flat 100 60) = Ok (mkEstimate t (Fin p) (Fin z)) ∧
    least_squares (Np.arange 30) (tail 30 (closes (flat 100 60))) slope intercept ∧
    (p == slope * 35 + intercept)%Q ∧
    (0.3 <= z <= 0.9)%Q ∧
    (0 < ss_tot (tail 30 (closes (flat 100 60))) →
       z == clamp 0.3 0.9
              (Qabs (1 - ss_res (tail 30 (closes (flat 100 60))) (Np.arange 30) slope intercept
                         / ss_tot (tail 30 (closes (flat 100 60))))))%Q ∧
    (ss_tot (tail 30 (closes (flat 100 60))) == 0 →
       z = 0.3 ∧ t = sideways ∧ Forall (λ c, p == c) (tail 30 (closes (flat 100 60))))%Q.
Proof.
  split; [vm_compute; lia |].
  apply (prophet_predict_fit (flat 100 60)). vm_compute; lia.
Qed.

(** The price of estimator B lies one slope beyond the fitted line taken
    five steps after the last point of the window. *)
Lemma prophet_price_one_step_late (df : list Bar) :
  (30 ≤ length df)%nat →
  ∃ slope intercept e p q,
    Np.polyfit1 (Np.arange 30) (tail 30 (closes df)) = Ok (slope, intercept) ∧
    _prophet_predict df = Ok e ∧ price e = Fin p ∧
    estimator_B_price (closes df) = Some q ∧
    (q == slope * 34 + intercept)%Q ∧
    (p == q + slope)%Q.
Proof.
  intros Hlen.
  destruct (prophet_predict_unfold df Hlen) as (Hw & slope & intercept & cur & Hfit & _ & Hrun).
  eexists slope, intercept, _, _, _. split; [exact Hfit |]. split; [exact Hrun |].
  split; [reflexivity |].
  unfold estimator_B_price. cbv zeta. rewrite Hw, Hfit. split; [reflexivity |].
  unfold steps_beyond, Qlen. rewrite Hw. split; ring.
Qed.

(** C6.  On the 60-bar series [close[i] = 100 + i] the window is the line
    [130 + x] for [x = 0 .. 29] and ends at the last close, 159.  The code
    evaluates the fitted line at [x = len(close) + 5 = 35] and returns 165,
    six bars after the last one; the line five steps beyond the window, at
    [x = 34], is 164. *)
Theorem prophet_predict_rising_series :
  ∃ p q,
    _prophet_predict (rising 100 60) = Ok (mkEstimate up (Fin p) (Fin 0.9)) ∧
    last (closes (rising 100 60)) = Some 159%Q ∧
    (p == 165)%Q ∧
    estimator_B_price (closes (rising 100 60)) = Some q ∧
    (q == 164)%Q.
Proof.
  do 2 eexists. split_and!; try (vm_compute; reflexivity).
Qed.

(* ===================================================================== *)
(** * Estimators B and C: what they return *)
(* ===================================================================== *)

Lemma within_half lo hi : (lo <= 0.5)%Q → (0.5 <= hi)%Q → within lo hi (Fin 0.5).
Proof. intros. exists 0.5%Q. done. Qed.

Lemma within_fin (lo hi q : Q) : within lo hi (Fin q) ↔ (lo <= q <= hi)%Q.
Proof.
  split; [intros (z & [= <-] & ?); done | intros ?; by exists q].
Qed.

(** Estimator B returns on every non-empty frame, with a confidence in
    [[0.3, 0.9]]: the clamped value, or 0.5 from the [except] clause. *)
Lemma prophet_predict_ok (df : list Bar) :
  df ≠ [] → ∃ e, _prophet_predict df = Ok e ∧ within 0.3 0.9 (confidence e).
Proof.
  intros Hdf. destruct (fallback_ok df Hdf) as (c & _ & Hfb).
  unfold _prophet_predict.
  destruct (Np.polyfit1 _ _) as [[slope intercept] | err]; cbn [mbind result_bind try_except].
  - destruct (iloc_last _) as [cur | err]; cbn [mbind result_bind try_except].
    + eexists. split; [reflexivity |]. cbn [confidence].
      destruct (clamp_confidence (Qabs (r2_of (py_slice (Some (-30)%Z) None (closes df))
         (Np.arange (length (py_slice (Some (-30)%Z) None (closes df)))) slope intercept)))
        as (z & -> & _ & Hlo & Hhi).
      by exists z.
    + rewrite Hfb. eexists. split; [reflexivity |]. apply within_half; lra.
  - rewrite Hfb. eexists. split; [reflexivity |]. apply within_half; lra.
Qed.

Section xgb.
Context {sk : Sklearn}.

(** Estimator C with its slices and its handler resolved. *)
Lemma xgboost_predict_unfold (df : list Bar) (c : Q) :
  last (closes df) = Some c →
  let valid := dropna (build_features df) in
  _xgboost_predict df =
    if (length valid <? 50)%nat then Ok (mkEstimate sideways (Fin c) (Fin 0.5)) else
    match fit_predict_proba 50 3 42
            (feature_cols <$> take (length valid - 5) valid)
            (target <$> take (length valid - 5) valid)
            (feature_cols <$> tail 1 valid) with
    | Raise _ => Ok (mkEstimate sideways (Fin c) (Fin 0.5))
    | Ok prob =>
      let '(t, conf) := decide_trend prob in
      Ok (mkEstimate t
            match t with
            | up => pf_mul (Fin c) (pf_add (Fin 1) (pf_mul (Fin 0.03) conf))
            | down => pf_mul (Fin c) (pf_sub (Fin 1) (pf_mul (Fin 0.03) conf))
            | sideways => Fin c
            end conf)
    end.
Proof.
  intros Hc valid.
  assert (fallback df = Ok (mkEstimate sideways (Fin c) (Fin 0.5))) as Hfb.
  { unfold fallback, iloc_last. by rewrite Hc. }
  unfold _xgboost_predict. fold valid.
  destruct (length valid <? 50)%nat; [by rewrite Hfb |].
  rewrite (py_slice_but_last 5) by lia.
  change (Some (-1)%Z) with (Some (- Z.of_nat 1)%Z).
  rewrite (py_slice_last 1) by lia.
  destruct (fit_predict_proba _ _ _ _ _ _) as [prob | err];
    cbn [mbind result_bind try_except]; [| by rewrite Hfb].
  unfold decide_trend, iloc_last. rewrite Hc. cbn [mbind result_bind].
  by repeat (case_match; simplify_eq).
Qed.


(** The first 19 rows have no 20-bar average and are dropped. *)
Lemma warmup_has_nan (xs : list Q) (i : nat) :
  (i < 19)%nat → has_nan (features_at xs i) = true.
Proof.
  intros Hi.
  assert (rolling_mean_at 20 xs i = NaN) as H20.
  { unfold rolling_mean_at. by rewrite (proj2 (Nat.ltb_lt (S i) 20)) by lia. }
  unfold has_nan, features_at.
  cbn [return_1 return_5 return_10 ma5 ma20 ma_ratio volatility existsb].
  rewrite H20. cbn [isna]. by rewrite !orb_true_r.
Qed.

End xgb.

Lemma decide_trend_cases (prob : Q * Q) :
  (0.6 < prob.2 → decide_trend prob = (up, Fin prob.2))%Q ∧
  (prob.2 <= 0.6 → 0.6 < prob.1 → decide_trend prob = (down, Fin prob.1))%Q ∧
  (prob.2 <= 0.6 → prob.1 <= 0.6 →
     ∃ m, decide_trend prob = (sideways, Fin m) ∧ m == Qmax prob.1 prob.2)%Q.
Proof.
  unfold decide_trend. split_and!.
  - intros H%Qgtb_gt. by rewrite H.
  - intros H1%Qgtb_ngt H2%Qgtb_gt. by rewrite H1, H2.
  - intros H1%Qgtb_ngt H2%Qgtb_ngt. rewrite H1, H2.
    unfold py_max, pf_gt. destruct (Qgtb prob.2 prob.1) eqn:E.
    + apply Qgtb_gt in E. eexists; split; [reflexivity |]. rewrite Q.max_r; [reflexivity | lra].
    + apply Qgtb_ngt in E. eexists; split; [reflexivity |]. rewrite Q.max_l; [reflexivity | lra].
Qed.

(** Class probabilities give a confidence between 0.5 and 1. *)
Lemma decide_trend_within (prob : Q * Q) :
  probabilities prob → within 0.5 1 (decide_trend prob).2.
Proof.
  intros (H0 & H1 & Hs).
  destruct (decide_trend_cases prob) as (Hu & Hd & Hsw).
  destruct (Qlt_le_dec 0.6 prob.2) as [Hup | Hup].
  - rewrite (Hu Hup). exists prob.2. simpl. split_and!; [done | lra | lra].
  - destruct (Qlt_le_dec 0.6 prob.1) as [Hdn | Hdn].
    + rewrite (Hd Hup Hdn). exists prob.1. simpl. split_and!; [done | lra | lra].
    + destruct (Hsw Hup Hdn) as (m & -> & Hm). exists m. simpl.
      split; [done |].
      destruct (Q.max_spec prob.1 prob.2) as [[? Hx] | [? Hx]]; rewrite Hx in Hm; lra.
Qed.

Lemma xgboost_predict_ok `{Sklearn} (df : list Bar) :
  df ≠ [] → well_behaved _ →
  ∃ e, _xgboost_predict df = Ok e ∧ within 0.5 1 (confidence e).
Proof.
  intros Hdf Hwb. destruct (fallback_ok df Hdf) as (c & Hc & _).
  rewrite (xgboost_predict_unfold df c Hc). cbv zeta.
  destruct (_ <? 50)%nat.
  { eexists; split; [reflexivity |]. apply within_half; lra. }
  destruct (fit_predict_proba _ _ _ _ _ _) as [prob | err] eqn:E.
  - apply Hwb, decide_trend_within in E.
    destruct (decide_trend prob) as [t conf]. eexists; split; [reflexivity | done].
  - eexists; split; [reflexivity |]. apply within_half; lra.
Qed.

(* ===================================================================== *)
(** * Estimator C: the rows it needs and the rule it applies *)
(* ===================================================================== *)




(** The threshold counts the rows that [dropna] leaves, the five most
    recent ones included: 69 bars leave 50 rows, 45 of them with a label,
    and the classifier is consulted; 68 bars leave 49 and give the
    default. *)
Example threshold_counts_recent_rows :
  length (dropna (@build_features (sk_const 0.05 0.95) (zigzag 69))) = 50%nat ∧
  length (@valid_labelled_rows (sk_const 0.05 0.95) (zigzag 69)) = 45%nat ∧
  @_xgboost_predict (sk_const 0.05 0.95) (zigzag 69)
    = Ok (mkEstimate up (Fin (102 * (1 + 0.03 * 0.95))) (Fin 0.95)) ∧
  @_xgboost_predict (sk_const 0.05 0.95) (zigzag 68)
    = Ok (mkEstimate sideways (Fin 103) (Fin 0.5)).
Proof. vm_compute. done. Qed.

(** A classifier that raises (scikit-learn does on a single-class training
    set) leaves the default. *)
Example xgboost_predict_fit_raises :
  @_xgboost_predict sk_raise (zigzag 69) = Ok (mkEstimate sideways (Fin 102) (Fin 0.5)).
Proof. vm_compute. reflexivity. Qed.

(** ** Which rows [dropna] removes *)

Section warm_up.
Context {sk : Sklearn}.
Local Open Scope Q_scope.

Lemma Qsum_pos (l : list Q) : Forall (λ c, 0 < c) l → l ≠ [] → 0 < Qsum l.
Proof.
  induction 1 as [| c l Hc Hl IH]; [done |]. intros _. rewrite Qsum_cons.
  destruct l as [| d l]; [unfold Qsum; simpl; lra |].
  specialize (IH ltac:(done)). lra.
Qed.

Lemma Qmean_pos (l : list Q) : Forall (λ c, 0 < c) l → l ≠ [] → 0 < Qmean l.
Proof.
  intros Hall Hne. unfold Qmean. apply Qlt_shift_div_l; [by apply Qlen_pos |].
  pose proof (Qsum_pos l Hall Hne). lra.
Qed.

Lemma rolling_mean_pos (w : nat) (xs : list Q) (i : nat) :
  Forall (λ c, 0 < c) xs → (0 < w ≤ S i)%nat → (i < length xs)%nat →
  ∃ m, rolling_mean_at w xs i = Fin m ∧ 0 < m.
Proof.
  intros Hall Hw Hi. unfold rolling_mean_at.
  rewrite (proj2 (Nat.ltb_ge (S i) w)) by lia.
  eexists. split; [reflexivity |]. apply Qmean_pos.
  - by apply Forall_take, Forall_drop.
  - intros E. apply (f_equal length) in E. rewrite length_take, length_drop in E.
    simpl in E. lia.
Qed.

Lemma pf_div_pos (a b : Q) : 0 < b → pf_div (Fin a) (Fin b) = Fin (a / b).
Proof.
  intros Hb. unfold pf_div. destruct (Qeq_bool b 0) eqn:E; [| done].
  apply Qeq_bool_iff in E. lra.
Qed.

Lemma pct_change_defined (k : nat) (xs : list Q) (i : nat) :
  Forall (λ c, 0 < c) xs → (k ≤ i < length xs)%nat →
  isna (Np.pct_change_at k xs i) = false.
Proof.
  intros Hall Hi. unfold Np.pct_change_at.
  rewrite (proj2 (Nat.ltb_ge i k)) by lia.
  destruct (lookup_lt_is_Some_2 xs i) as [a Ha]; [lia |].
  destruct (lookup_lt_is_Some_2 xs (i - k)) as [b Hb]; [lia |].
  rewrite Ha, Hb. rewrite pf_div_pos; [done |].
  by eapply (proj1 (Forall_lookup _ xs) Hall).
Qed.

(** With positive closes, the rows from the 20th on have every feature. *)
Lemma full_rows_defined (xs : list Q) (i : nat) :
  Forall (λ c, 0 < c) xs → (19 ≤ i < length xs)%nat →
  has_nan (features_at xs i) = false.
Proof.
  intros Hall Hi. unfold has_nan, features_at.
  cbn [return_1 return_5 return_10 ma5 ma20 ma_ratio volatility existsb].
  rewrite !pct_change_defined by (done || lia).
  destruct (rolling_mean_pos 5 xs i Hall) as (m5 & -> & H5); [lia | lia |].
  destruct (rolling_mean_pos 20 xs i Hall) as (m20 & -> & H20); [lia | lia |].
  rewrite pf_div_pos by done.
  unfold rolling_std_at. rewrite (proj2 (Nat.ltb_ge (S i) 10)) by lia. done.
Qed.

Lemma has_nan_iff_warmup (xs : list Q) (i : nat) :
  Forall (λ c, 0 < c) xs → (i < length xs)%nat →
  has_nan (features_at xs i) = (i <? 19)%nat.
Proof.
  intros Hall Hi. destruct (Nat.ltb_spec i 19).
  - by apply warmup_has_nan.
  - apply full_rows_defined; [done | lia].
Qed.

(** With positive closes [dropna] removes the first 19 rows and nothing
    else. *)
Lemma dropna_positive_closes (df : list Bar) :
  Forall (λ c, 0 < c) (closes df) →
  dropna (build_features df) = features_at (closes df) <$> seq 19 (length df - 19).
Proof.
  intros Hall. unfold dropna, build_features.
  assert (length (closes df) = length df) as Hlen by (unfold closes; by rewrite length_fmap).
  assert (∀ (a n : nat), (a + n ≤ length df)%nat →
            List.filter (λ r, negb (has_nan r)) (features_at (closes df) <$> seq a n) =
            features_at (closes df) <$> seq (Nat.max a 19) (n - (Nat.max a 19 - a))) as H.
  { intros a n. revert a. induction n as [| n IH]; intros a Ha; [done |].
    cbn [seq fmap list_fmap List.filter]. rewrite has_nan_iff_warmup by (done || lia).
    cbn [fmap] in IH. rewrite IH by lia.
    destruct (Nat.ltb_spec a 19); cbn [negb].
    - replace (Nat.max (S a) 19) with 19%nat by lia.
      replace (Nat.max a 19) with 19%nat by lia.
      f_equal. f_equal. lia.
    - replace (Nat.max (S a) 19) with (S a) by lia.
      replace (Nat.max a 19) with a by lia.
      replace (S n - (a - a))%nat with (S n) by lia.
      replace (n - (S a - S a))%nat with n by lia. done. }
  rewrite (H 0%nat (length df)) by lia. f_equal.
Qed.

Lemma dropna_positive_length (df : list Bar) :
  Forall (λ c, 0 < c) (closes df) →
  length (dropna (build_features df)) = (length df - 19)%nat.
Proof.
  intros Hall. rewrite dropna_positive_closes by done.
  by rewrite length_fmap, length_seq.
Qed.
End warm_up.

(** On positive closes the classifier is consulted from 69 bars on. *)
Lemma xgboost_needs_69_bars `{Sklearn} (df : list Bar) :
  Forall (λ c, (0 < c)%Q) (closes df) →
  ((length (dropna (build_features df)) <? 50)%nat = (length df <? 69)%nat).
Proof.
  intros Hall. rewrite dropna_positive_length by done.
  destruct (Nat.ltb_spec (length df) 69), (Nat.ltb_spec (length df - 19) 50); (done || lia).
Qed.

(* ===================================================================== *)
(** * Confidence ranges *)
(* ===================================================================== *)

Lemma sk_const_well_behaved : well_behaved (sk_const 0.05 0.95).
Proof. intros n d s X y Xl prob [= <-]. unfold probabilities. simpl. lra. Qed.

(** C4, as stated, fails: on the 69-bar zigzag series with a classifier
    that gives the class "up" probability 0.95, the merged record carries
    [xgboost_confidence = 0.95], outside [[0.3, 0.9]]. *)
Lemma xgboost_confidence_not_clamped :
  ¬ (∀ (sk : Sklearn) (df : list Bar) (r : Prediction),
       (60 ≤ length df)%nat → predict_all df = Ok r →
       within 0.3 0.9 (lstm_confidence r) ∧
       within 0.3 0.9 (prophet_confidence r) ∧
       within 0.3 0.9 (xgboost_confidence r)).
Proof.
  intros Hall.
  destruct (Hall (sk_const 0.05 0.95) (zigzag 69) _
              ltac:(vm_compute; lia) ltac:(vm_compute; reflexivity)) as (_ & _ & Hc).
  cbn [xgboost_confidence] in Hc. apply within_fin in Hc. lra.
Qed.

(** C4, amended.  On a series of at least 60 bars [predict_all] returns a
    record in which the confidences of estimators A and B lie within
    [[0.3, 0.9]], and that of estimator C, which is the fallback 0.5 or a
    class probability and is not clamped, lies within [[0.5, 1]]. *)
Theorem confidence_ranges `{Sklearn} (df : list Bar) :
  (60 ≤ length df)%nat → well_behaved _ →
  ∃ r, predict_all df = Ok r ∧
       within 0.3 0.9 (lstm_confidence r) ∧
       within 0.3 0.9 (prophet_confidence r) ∧
       within 0.5 1 (xgboost_confidence r).
Proof.
  intros Hlen Hwb.
  assert (df ≠ []) as Hdf by (intros ->; simpl in Hlen; lia).
  unfold predict_all. rewrite (proj2 (too_short_ge df) Hlen).
  rewrite lstm_predict_is_fallback by lia.
  destruct (fallback_ok df Hdf) as (c & _ & ->).
  destruct (prophet_predict_ok df Hdf) as (eb & -> & Hb).
  destruct (xgboost_predict_ok df Hdf Hwb) as (ec & -> & Hc).
  cbn [mbind result_bind]. eexists. split; [reflexivity |]. cbn.
  split_and!; [apply within_half; lra | done | done].
Qed.

Lemma confidence_ranges_witness :
  (60 ≤ length (zigzag 69))%nat ∧ well_behaved (sk_const 0.05 0.95) ∧
  ∃ r, @predict_all (sk_const 0.05 0.95) (zigzag 69) = Ok r ∧
       within 0.3 0.9 (lstm_confidence r) ∧
       within 0.3 0.9 (prophet_confidence r) ∧
       within 0.5 1 (xgboost_confidence r).
Proof.
  split; [vm_compute; lia |]. split; [apply sk_const_well_behaved |].
  apply (@confidence_ranges (sk_const 0.05 0.95) (zigzag 69));
    [vm_compute; lia | apply sk_const_well_behaved].
Defined.

(* ===================================================================== *)
(** * The kline retriever *)
(* ===================================================================== *)

Section retriever_facts.
Context {up : Upstream}.

Lemma format_dates_length (df df' : list Bar) :
  format_dates df = Ok df' → length df' = length df.
Proof.
  revert df'. induction df as [| b r IH]; intros df'; cbn [format_dates].
  - by intros [= <-].
  - destruct (to_date (date b)) as [d | e]; cbn [mbind result_bind]; [| discriminate].
    destruct (format_dates r) as [r' | e]; cbn [mbind result_bind]; [| discriminate].
    intros [= <-]. cbn [length]. by rewrite (IH r').
Qed.

(** The snapshot adapter swallows every failure. *)
Lemma get_kline_sina_ok (c period : string) : ∃ df, _get_kline_sina c period = Ok df.
Proof.
  unfold _get_kline_sina.
  destruct (try_except _ _) as [[df |] | e] eqn:E; cbn [mbind result_bind]; eauto.
  exfalso. unfold try_except in E.
  repeat (case_match; simplify_eq).
Qed.

(** What the snapshot adapter returns: nothing, or every row that the
    upstream body decodes to, with the amount column set to 0. *)
Lemma get_kline_sina_rows (c period : string) :
  ∃ snap, _get_kline_sina c period = Ok snap ∧
    (snap = [] ∨
     ∃ json rows, sina_decode json = Ok rows ∧
       snap = (λ b, mkBar (date b) (open b) (close b) (high b) (low b) (volume b) 0) <$> rows).
Proof.
  unfold _get_kline_sina.
  destruct (sina_get _ _) as [[status text] | e]; cbn [mbind result_bind try_except];
    [| eauto].
  destruct (status =? 200)%Z; [| eauto].
  destruct (_ && _); [| eauto].
  destruct (sina_decode _) as [[| b rows] | e] eqn:E; cbn [mbind result_bind try_except];
    [eauto | | eauto].
  eexists. split; [reflexivity |]. right. eauto.
Qed.

(** What one pass of the retry loop can return. *)
Lemma akshare_attempt_some (c period : string) (w w' : World) (df : list Bar) :
  akshare_attempt c period w = (Ok (Some df), w') →
  ∃ period' rows rows',
    stock_zh_a_hist c period' (hist_calls w) = Ok (Some rows) ∧
    rows ≠ [] ∧ format_dates rows = Ok rows' ∧ df = tail 250 rows'.
Proof.
  unfold akshare_attempt, call_hist. cbv beta iota zeta.
  set (p := if String.eqb period "weekly" then _ else _).
  intros H. injection H as Hr <-. revert Hr.
  destruct (stock_zh_a_hist c p (hist_calls w)) as [[[| b rows] |] | e] eqn:E;
    cbn [mbind result_bind]; try discriminate.
  destruct (format_dates (b :: rows)) as [rows' | e] eqn:F; cbn [mbind result_bind];
    [| discriminate].
  intros [= <-]. exists p, (b :: rows), rows'. done.
Qed.

Lemma akshare_loop_result (c period : string) (retries : list nat) (w w' : World)
    (df : list Bar) :
  akshare_loop c period retries w = (df, w') →
  df = [] ∨
  ∃ period' n rows rows',
    stock_zh_a_hist c period' n = Ok (Some rows) ∧
    rows ≠ [] ∧ format_dates rows = Ok rows' ∧ df = tail 250 rows'.
Proof.
  revert w. induction retries as [| retry rest IH]; intros w; cbn [akshare_loop].
  - intros [= <- <-]. by left.
  - destruct (akshare_attempt _ _ _) as [r w1] eqn:E.
    destruct r as [[df1 |] | e]; [| by apply IH | by apply IH].
    intros [= <- <-]. right.
    destruct (akshare_attempt_some _ _ _ _ _ E) as (p & rows & rows' & ?).
    by exists p, (hist_calls (sleep (0.3 * inject_Z (Z.of_nat retry)) w)), rows, rows'.
Qed.

Lemma akshare_loop_length (c period : string) (retries : list nat) (w w' : World)
    (df : list Bar) :
  akshare_loop c period retries w = (df, w') → (length df ≤ 250)%nat.
Proof.
  intros H. destruct (akshare_loop_result _ _ _ _ _ _ H)
    as [-> | (p & n & rows & rows' & _ & _ & _ & ->)].
  - simpl; lia.
  - rewrite tail_length. lia.
Qed.

Lemma nonempty_true (df : list Bar) : nonempty df = true ↔ df ≠ [].
Proof. by destruct df. Qed.

Lemma get_kline_akshare_ok (c period : string) (w : World) :
  ∃ hist w', _get_kline_akshare c period w = (Ok hist, w') ∧
             akshare_loop c period (seq 0 3) w = (hist, w').
Proof.
  unfold _get_kline_akshare. destruct (akshare_loop _ _ _ _) as [hist w']. eauto.
Qed.

(** The first answer of the historical provider, when it is a non-empty
    frame whose dates parse, is returned cut to its last 250 rows. *)
Lemma akshare_first_answer (c period : string) (w : World) (rows rows' : list Bar) :
  stock_zh_a_hist c
    (if String.eqb period "weekly" then "weekly"
     else if String.eqb period "monthly" then "monthly" else "daily")
    (hist_calls w) = Ok (Some rows) →
  rows ≠ [] → format_dates rows = Ok rows' →
  ∃ w', _get_kline_akshare c period w = (Ok (tail 250 rows'), w').
Proof.
  intros Hans Hne Hfmt. unfold _get_kline_akshare.
  cbn [seq akshare_loop]. unfold akshare_attempt, call_hist. cbv beta iota zeta.
  cbn [hist_calls sleep]. rewrite Hans. cbn [mbind result_bind].
  destruct rows as [| b rows]; [done |]. rewrite Hfmt. cbn [mbind result_bind]. eauto.
Qed.

(** C3, amended.  [get_kline] always returns a series and never raises.
    It is the snapshot adapter's series when that is not empty, returned as
    the upstream sent it (the code asks for 250 rows and does not cut);
    otherwise it is the historical adapter's series, which is empty when
    all three attempts fail and else the last 250 rows, in order, of the
    frame that an attempt received.  The result has at most 250 bars
    whenever the snapshot upstream sent at most 250 rows. *)
Theorem get_kline_fallback (c period : string) (w : World) :
  ∃ snap df w',
    _get_kline_sina c period = Ok snap ∧
    (snap = [] ∨
     ∃ json rows, sina_decode json = Ok rows ∧
       snap = (λ b, mkBar (date b) (open b) (close b) (high b) (low b) (volume b) 0) <$> rows) ∧
    get_kline c period w = (Ok df, w') ∧
    (snap ≠ [] → df = snap ∧ w' = w) ∧
    (snap = [] →
       _get_kline_akshare c period w = (Ok df, w') ∧
       (length df ≤ 250)%nat ∧
       (df = [] ∨
        ∃ period' n rows rows',
          stock_zh_a_hist c period' n = Ok (Some rows) ∧ rows ≠ [] ∧
          format_dates rows = Ok rows' ∧ df = tail 250 rows') ∧
       (∀ rows rows',
          stock_zh_a_hist c
            (if String.eqb period "weekly" then "weekly"
             else if String.eqb period "monthly" then "monthly" else "daily")
            (hist_calls w) = Ok (Some rows) →
          rows ≠ [] → format_dates rows = Ok rows' → df = tail 250 rows')) ∧
    ((length snap ≤ 250)%nat → (length df ≤ 250)%nat).
Proof.
  destruct (get_kline_sina_rows c period) as (snap & Hsnap & Hrows).
  destruct (get_kline_akshare_ok c period w) as (hist & w1 & Hak & Hloop).
  unfold get_kline. rewrite Hsnap.
  destruct snap as [| b snap]; cbn [nonempty].
  - rewrite Hak.
    assert (∃ df, (if nonempty hist then (Ok hist, w1) else (Ok [], w1)) =
                  (@Ok (list Bar) df, w1) ∧ df = hist) as (df & -> & ->).
    { destruct hist; cbn [nonempty]; eauto. }
    exists [], hist, w1.
    split; [done |]. split; [by left |]. split; [done |]. split; [done |]. split.
    + intros _. split_and!; try done.
      * by eapply akshare_loop_length.
      * by eapply akshare_loop_result.
      * intros rows rows' Hans Hne Hfmt.
        destruct (akshare_first_answer c period w rows rows' Hans Hne Hfmt) as [w2 H2].
        rewrite Hak in H2. by injection H2 as -> _.
    + intros _. by eapply akshare_loop_length.
  - exists (b :: snap), (b :: snap), w. split_and!; try done.
Qed.

End retriever_facts.

(** C3, as stated, fails: a snapshot upstream that answers 251 rows gets
    all 251 returned. *)
Lemma snapshot_series_not_truncated :
  ¬ (∀ (up : Upstream) (c period : string) (w w' : World) (df : list Bar),
       get_kline c period w = (Ok df, w') → df ≠ [] → (length df ≤ 250)%nat).
Proof.
  intros Hall.
  pose (up := upstream (Ok (200%Z, jsonp)) (Ok (rising 100 251)) (fun _ => Ok None)).
  destruct (@get_kline up "600000" "daily" w0) as [r w'] eqn:E.
  vm_compute in E. injection E as <- <-.
  specialize (Hall up "600000" "daily" w0 w0 _ ltac:(vm_compute; reflexivity) ltac:(vm_compute; discriminate)).
  vm_compute in Hall. lia.
Qed.

(** The scenario of the design document: the snapshot adapter has nothing,
    the historical one answers 300 rows, and the last 250 come back. *)
Example get_kline_300_rows :
  @get_kline (upstream (Ok (200%Z, "[]")) (Ok []) (fun _ => Ok (Some (rising 100 300))))
             "600000" "daily" w0
  = (Ok (tail 250 (rising 100 300)), mkWorld 1 [0.3 * 0]%Q).
Proof. vm_compute. reflexivity. Qed.

(** Both providers fail on every attempt: three calls, two pauses of 0.3 s
    and 0.6 s, and an empty series. *)
Example get_kline_no_data :
  @get_kline (upstream (Raise RequestException) (Raise JSONDecodeError)
                       (fun _ => Raise RequestException))
             "600000" "daily" w0
  = (Ok [], mkWorld 3 [0.3 * 0; 0.3 * 1; 0.3 * 2]%Q).
Proof. vm_compute. reflexivity. Qed.

(* ===================================================================== *)
(** * The stock directory search *)
(* ===================================================================== *)

Lemma prefix_occurs (p s : string) :
  String.prefix p s = true ↔ ∃ after, s = String.append p after.
Proof.
  revert s. induction p as [| c p IH]; intros s.
  - split; [intros _; by exists s | by destruct s].
  - destruct s as [| d s]; simpl; [split; [done | intros [? ?]; done] |].
    destruct (Ascii.ascii_dec c d) as [-> | Hne].
    + rewrite IH. split; intros [after H]; exists after; [by rewrite H | by injection H].
    + split; [done | intros [after [= ? ?]]; done].
Qed.

(** [needle in hay] decides whether [needle] occurs in [hay]. *)
Lemma contains_occurs (needle hay : string) :
  contains needle hay = true ↔ occurs_in needle hay.
Proof.
  induction hay as [| c hay IH]; unfold occurs_in in *; cbn [contains].
  - rewrite orb_false_r, prefix_occurs. split.
    + intros [after H]. by exists EmptyString, after.
    + intros ([| ? ?] & after & H); [eauto | done].
  - rewrite orb_true_iff, prefix_occurs, IH. split.
    + intros [[after H] | (before & after & H)].
      * by exists EmptyString, after.
      * exists (String c before), after. by rewrite H.
    + intros ([| d before] & after & H).
      * left. eauto.
      * right. injection H as -> H. eauto.
Qed.

Lemma str_append_cons (a : ascii) (s t : string) : String a s +:+ t = String a (s +:+ t).
Proof. reflexivity. Qed.

Lemma str_append_assoc (a b c : string) : (a +:+ b) +:+ c = a +:+ (b +:+ c).
Proof. induction a as [| x a IH]; [done |]. rewrite !str_append_cons. by rewrite IH. Qed.

Lemma str_append_nil_r (a : string) : a +:+ "" = a.
Proof. induction a as [| x a IH]; [done |]. rewrite str_append_cons. by rewrite IH. Qed.

(** ** Characters *)

Lemma upper_char_digit (c : ascii) :
  (48 <=? nat_of_ascii (upper_char c))%nat && (nat_of_ascii (upper_char c) <=? 57)%nat = true →
  upper_char c = c.
Proof.
  destruct c as [[] [] [] [] [] [] [] []]; vm_compute; congruence.
Qed.

Lemma digit_upper_char (c : ascii) :
  (48 <=? nat_of_ascii c)%nat && (nat_of_ascii c <=? 57)%nat = true → upper_char c = c.
Proof.
  destruct c as [[] [] [] [] [] [] [] []]; vm_compute; congruence.
Qed.

Lemma digit_is_ascii (c : ascii) : isdigit c = true → is_ascii c = true.
Proof.
  unfold isdigit, is_ascii. intros [_ H]%andb_prop. apply Nat.leb_le in H.
  apply Nat.ltb_lt. lia.
Qed.

Lemma upper_char_is_ascii (c : ascii) : is_ascii c = true → is_ascii (upper_char c) = true.
Proof.
  destruct c as [[] [] [] [] [] [] [] []]; vm_compute; congruence.
Qed.

(** Two characters in the relation [case_pair] are both ASCII or equal,
    and have the same capital. *)
Lemma case_pair_upper (a b : ascii) :
  case_pair a b = true →
  upper_char a = upper_char b ∧ is_ascii a = is_ascii b ∧ (is_ascii a = false → a = b).
Proof.
  unfold case_pair. cbv zeta.
  intros [[H | H]%orb_prop | H]%orb_prop.
  - apply Ascii.eqb_eq in H. by subst.
  - apply andb_prop in H as [[H1 H2]%andb_prop H3].
    apply Nat.leb_le in H1, H2. apply Nat.eqb_eq in H3.
    assert (b = ascii_of_nat (nat_of_ascii a - 32)) as ->
      by (by rewrite <- H3, ascii_nat_embedding).
    clear H3. revert H1 H2.
    destruct a as [[] [] [] [] [] [] [] []]; vm_compute; intros; (done || lia).
  - apply andb_prop in H as [[H1 H2]%andb_prop H3].
    apply Nat.leb_le in H1, H2. apply Nat.eqb_eq in H3.
    assert (a = ascii_of_nat (nat_of_ascii b - 32)) as ->
      by (by rewrite <- H3, ascii_nat_embedding).
    clear H3. revert H1 H2.
    destruct b as [[] [] [] [] [] [] [] []]; vm_compute; intros; (done || lia).
Qed.

(** Two ASCII characters with the same capital are in the relation. *)
Lemma upper_char_case_pair (a b : ascii) :
  upper_char a = upper_char b → case_pair a b = true.
Proof.
  unfold upper_char, case_pair. cbv zeta.
  pose proof (nat_ascii_bounded a) as Ba. pose proof (nat_ascii_bounded b) as Bb.
  destruct ((97 <=? nat_of_ascii a)%nat && (nat_of_ascii a <=? 122)%nat) eqn:Ea;
    destruct ((97 <=? nat_of_ascii b)%nat && (nat_of_ascii b <=? 122)%nat) eqn:Eb;
    intros H.
  - apply (f_equal nat_of_ascii) in H. rewrite !nat_ascii_embedding in H by lia.
    apply andb_prop in Ea as [Ea _], Eb as [Eb _]. apply Nat.leb_le in Ea, Eb.
    assert (nat_of_ascii a = nat_of_ascii b) as Hn by lia.
    apply (f_equal ascii_of_nat) in Hn. rewrite !ascii_nat_embedding in Hn. subst.
    by rewrite Ascii.eqb_refl.
  - subst b. rewrite nat_ascii_embedding by lia. rewrite Nat.eqb_refl.
    by rewrite andb_true_r, orb_true_r.
  - subst a. rewrite nat_ascii_embedding by lia. rewrite Nat.eqb_refl.
    by rewrite andb_true_r, orb_true_r.
  - subst. by rewrite Ascii.eqb_refl.
Qed.

(** ** Strings of digits, ASCII strings *)

Lemma digits_forall (s : string) : digits s = str_forall isdigit s.
Proof. induction s as [| c s IH]; [done |]. cbn [digits str_forall]. by rewrite IH. Qed.

Lemma digits_append (a b : string) :
  digits (String.append a b) = digits a && digits b.
Proof.
  induction a as [| c a IH]; [done |]. simpl. rewrite IH.
  by rewrite andb_assoc.
Qed.

Lemma digits_occurs (needle hay : string) :
  digits hay = true → occurs_in needle hay → digits needle = true.
Proof.
  intros Hd (before & after & ->). rewrite !digits_append in Hd.
  apply andb_prop in Hd as [_ Hd]. by apply andb_prop in Hd as [Hd _].
Qed.

Lemma digits_ascii_only (s : string) : digits s = true → ascii_only s = true.
Proof.
  unfold ascii_only. induction s as [| c s IH]; [done |]. cbn [digits str_forall].
  intros [Hc Hs]%andb_prop. rewrite (digit_is_ascii c Hc). by apply IH.
Qed.

Lemma str_map_append (f : ascii → ascii) (a b : string) :
  str_map f (a +:+ b) = str_map f a +:+ str_map f b.
Proof. induction a as [| c a IH]; [done |]. rewrite str_append_cons. cbn [str_map]. by rewrite IH. Qed.

(** A split of the image of [str_map] comes from a split of the string. *)
Lemma str_map_split (f : ascii → ascii) (s a b : string) :
  str_map f s = a +:+ b → ∃ a0 b0, s = a0 +:+ b0 ∧ str_map f a0 = a ∧ str_map f b0 = b.
Proof.
  revert s. induction a as [| c a IH]; intros s H.
  - by exists "", s.
  - destruct s as [| d s]; [done |]. rewrite str_append_cons in H. cbn [str_map] in H.
    injection H as Hc H. destruct (IH s H) as (a0 & b0 & -> & Ha & Hb).
    exists (String d a0), b0. cbn [str_map]. by rewrite Hc, Ha.
Qed.

Lemma ascii_only_append (a b : string) :
  ascii_only (a +:+ b) = ascii_only a && ascii_only b.
Proof.
  unfold ascii_only. induction a as [| c a IH]; [done |]. rewrite str_append_cons.
  cbn [str_forall]. by rewrite IH, andb_assoc.
Qed.

Lemma same_ignoring_case_map (x y : string) :
  same_ignoring_case x y = true → str_map upper_char x = str_map upper_char y.
Proof.
  revert y. induction x as [| a x IH]; intros [| b y]; try done.
  cbn [same_ignoring_case str_map]. intros [Hc Hs]%andb_prop.
  destruct (case_pair_upper a b Hc) as (-> & _). by rewrite (IH y Hs).
Qed.

Lemma map_same_ignoring_case (x y : string) :
  str_map upper_char x = str_map upper_char y → same_ignoring_case x y = true.
Proof.
  revert y. induction x as [| a x IH]; intros [| b y]; try done.
  cbn [same_ignoring_case str_map]. intros [= Hc Hs].
  by rewrite (upper_char_case_pair a b Hc), (IH y Hs).
Qed.

Lemma same_ignoring_case_ascii (x y : string) :
  same_ignoring_case x y = true → ascii_only x = ascii_only y.
Proof.
  unfold ascii_only. revert y. induction x as [| a x IH]; intros [| b y]; try done.
  cbn [same_ignoring_case str_forall]. intros [Hc Hs]%andb_prop.
  destruct (case_pair_upper a b Hc) as (_ & -> & _). by rewrite (IH y Hs).
Qed.

Lemma same_ignoring_case_nil (x y : string) :
  same_ignoring_case x y = true → (x = "" ↔ y = "").
Proof. destruct x, y; done. Qed.

(** ** [str.upper] *)

Section upper_facts.
Context {uc : Unicode}.

(** An ASCII character ends the pending run. *)
Lemma upper_from_app (run a : string) (c : ascii) (r : string) :
  is_ascii c = true →
  upper_from run (a +:+ String c r) = upper_from run a +:+ String (upper_char c) (upper_from "" r).
Proof.
  intros Hc. revert run. induction a as [| d a IH]; intros run.
  - change ("" +:+ String c r) with (String c r). cbn [upper_from]. by rewrite Hc.
  - rewrite str_append_cons. cbn [upper_from]. destruct (is_ascii d).
    + by rewrite IH, str_append_assoc, str_append_cons.
    + apply IH.
Qed.

(** On ASCII characters [str.upper] works character by character. *)
Lemma upper_from_ascii (w t : string) :
  ascii_only w = true → upper_from "" (w +:+ t) = str_map upper_char w +:+ upper_from "" t.
Proof.
  unfold ascii_only. induction w as [| c w IH]; [done |].
  cbn [str_forall]. intros [Hc Hw]%andb_prop.
  rewrite str_append_cons. cbn [upper_from str_map]. rewrite Hc, (IH Hw). done.
Qed.

Lemma upper_ascii (s : string) : ascii_only s = true → upper s = str_map upper_char s.
Proof.
  intros Hs. unfold upper. rewrite <- (str_append_nil_r s) at 1.
  rewrite (upper_from_ascii s "" Hs). cbn [upper_from]. by rewrite str_append_nil_r.
Qed.

(** The upper-casing of a name that holds an ASCII word. *)
Lemma upper_around_ascii (before w after : string) :
  w ≠ "" → ascii_only w = true →
  upper (before +:+ w +:+ after) = upper before +:+ str_map upper_char w +:+ upper after.
Proof.
  intros Hne Hw. destruct w as [| c w]; [done |].
  unfold ascii_only in Hw. cbn [str_forall] in Hw. apply andb_prop in Hw as [Hc Hw].
  unfold upper. rewrite str_append_cons, (upper_from_app "" before c _ Hc).
  rewrite (upper_from_ascii w after Hw). done.
Qed.

(** Strings that differ in the case of ASCII letters only have the same
    upper-casing. *)
Lemma same_ignoring_case_upper (run x y : string) :
  same_ignoring_case x y = true → upper_from run x = upper_from run y.
Proof.
  revert run y. induction x as [| a x IH]; intros run [| b y]; try done.
  cbn [same_ignoring_case upper_from]. intros [Hc Hs]%andb_prop.
  destruct (case_pair_upper a b Hc) as (Hu & Ha & Hn). rewrite <- Ha.
  destruct (is_ascii a) eqn:E.
  - by rewrite Hu, (IH "" y Hs).
  - rewrite <- (Hn eq_refl). by apply IH.
Qed.

Lemma upper_of_digits (s : string) : digits s = true → upper s = s.
Proof.
  intros Hd. rewrite (upper_ascii s (digits_ascii_only s Hd)).
  induction s as [| c s IH]; [done |]. cbn [digits str_map] in *.
  apply andb_prop in Hd as [Hc Hs]. by rewrite (digit_upper_char c Hc), (IH Hs).
Qed.

(** With a Unicode database that makes no digits, an upper-casing made of
    digits is the string itself. *)
Lemma digits_of_upper (s : string) :
  no_digit_upper uc → digits (upper s) = true → upper s = s.
Proof.
  intros Hlaw. unfold upper.
  assert (∀ run, str_forall (λ c, negb (is_ascii c)) run = true →
            digits (upper_from run s) = true → run = "" ∧ upper_from run s = s) as H.
  { induction s as [| c s IH]; intros run Hrun Hd.
    - cbn [upper_from] in *. unfold upper_pending in *.
      destruct (String.eqb_spec run "") as [-> | Hne]; [done |].
      rewrite digits_forall, (Hlaw run Hne Hrun) in Hd. done.
    - cbn [upper_from] in *. destruct (is_ascii c) eqn:Ec.
      + rewrite digits_append in Hd. apply andb_prop in Hd as [Hp Hd].
        cbn [digits] in Hd. apply andb_prop in Hd as [Hc Hs].
        unfold upper_pending in *.
        destruct (String.eqb_spec run "") as [-> | Hne].
        * destruct (IH "" eq_refl Hs) as [_ ->]. by rewrite (upper_char_digit c Hc).
        * rewrite digits_forall, (Hlaw run Hne Hrun) in Hp. done.
      + destruct (IH (run +:+ String c "")) as [Hnil _]; [| done |].
        * clear -Hrun Ec. induction run as [| d run IH].
          -- change ("" +:+ String c "") with (String c ""). cbn [str_forall].
             by rewrite Ec.
          -- rewrite str_append_cons. cbn [str_forall] in *.
             apply andb_prop in Hrun as [-> Hrun]. by apply IH.
        * by destruct run. }
  intros Hd. by destruct (H "" eq_refl Hd).
Qed.

(** On a code made of digits the upper-casing of the keyword changes
    nothing: the code contains the upper-cased keyword exactly when it
    contains the keyword as typed. *)
Lemma contains_upper_digits (keyword c : string) :
  no_digit_upper uc → digits c = true → contains (upper keyword) c = contains keyword c.
Proof.
  intros Hlaw Hc. apply eq_true_iff_eq. rewrite !contains_occurs. split; intros Hocc.
  - by rewrite <- (digits_of_upper keyword Hlaw (digits_occurs _ _ Hc Hocc)).
  - by rewrite (upper_of_digits keyword (digits_occurs _ _ Hc Hocc)).
Qed.

Lemma eqb_empty (s : string) : String.eqb s "" = true ↔ s = "".
Proof. apply String.eqb_eq. Qed.

(** A name holds the keyword in some case exactly when its upper-casing
    holds the upper-cased keyword: for an ASCII keyword and every name one
    way, and for an ASCII name the other way too. *)
Lemma name_match_ignoring_case (keyword nm : string) :
  keyword ≠ "" → ascii_only keyword = true →
  ((∃ w, occurs_in w nm ∧ same_ignoring_case w keyword = true) →
     occurs_in (upper keyword) (upper nm)) ∧
  (ascii_only nm = true → occurs_in (upper keyword) (upper nm) →
     ∃ w, occurs_in w nm ∧ same_ignoring_case w keyword = true).
Proof.
  intros Hne Hk. rewrite (upper_ascii keyword Hk). split.
  - intros (w & (before & after & ->) & Hw).
    assert (ascii_only w = true) as Hwa by (by rewrite (same_ignoring_case_ascii w keyword Hw)).
    assert (w ≠ "") as Hwn by (intros ->; by destruct keyword).
    rewrite (upper_around_ascii before w after Hwn Hwa).
    rewrite (same_ignoring_case_map w keyword Hw). by eexists _, _.
  - intros Hn (before & after & H). rewrite (upper_ascii nm Hn) in H.
    apply str_map_split in H as (b0 & r0 & -> & _ & H).
    apply str_map_split in H as (w & a0 & -> & H & _).
    exists w. split; [by exists b0, a0 |]. by apply map_same_ignoring_case.
Qed.

(** C10.  With an empty keyword [search_stocks] returns the whole
    directory, whatever its size.  With a non-empty keyword it returns at
    most 100 entries: the first 100, in directory order, of the entries
    whose code contains the upper-cased keyword or whose upper-cased name
    contains it.  This match on the name ignores case: for an ASCII keyword
    a name that holds the keyword with its letters in any case is matched,
    and an ASCII name is matched only then.  On a code made of digits,
    containing the upper-cased keyword is the same as containing the
    keyword. *)
Theorem search_stocks_rule (all_stocks : list Stock) (keyword : string) :
  (keyword = "" → search_stocks all_stocks keyword = all_stocks) ∧
  (keyword ≠ "" →
     let hit (s : Stock) :=
       occurs_in (upper keyword) (code s) ∨
       occurs_in (upper keyword) (upper (StockData.name s)) in
     (length (search_stocks all_stocks keyword) ≤ 100)%nat ∧
     search_stocks all_stocks keyword `sublist_of` all_stocks ∧
     (∀ s, s ∈ search_stocks all_stocks keyword → s ∈ all_stocks ∧ hit s) ∧
     (∃ hits, search_stocks all_stocks keyword = take 100 hits ∧
              hits `sublist_of` all_stocks ∧
              ∀ s, s ∈ hits ↔ s ∈ all_stocks ∧ hit s) ∧
     (ascii_only keyword = true →
        ∀ s, ((∃ w, occurs_in w (StockData.name s) ∧ same_ignoring_case w keyword = true) →
                occurs_in (upper keyword) (upper (StockData.name s))) ∧
             (ascii_only (StockData.name s) = true →
                occurs_in (upper keyword) (upper (StockData.name s)) →
                ∃ w, occurs_in w (StockData.name s) ∧ same_ignoring_case w keyword = true)) ∧
     (no_digit_upper uc →
        ∀ s, digits (code s) = true →
             (occurs_in (upper keyword) (code s) ↔ occurs_in keyword (code s)))).
Proof.
  split.
  - intros ->. reflexivity.
  - intros Hkw hit. unfold search_stocks.
    destruct (String.eqb keyword "") eqn:E; [by apply eqb_empty in E |].
    change (Some 100%Z) with (Some (Z.of_nat 100)). rewrite py_slice_first.
    set (hits := List.filter _ all_stocks).
    assert (∀ s, s ∈ hits ↔ s ∈ all_stocks ∧ hit s) as Hhits.
    { intros s. unfold hits, hit. rewrite !list_elem_of_In, filter_In, orb_true_iff.
      by rewrite !contains_occurs. }
    assert (hits `sublist_of` all_stocks) as Hsub.
    { unfold hits. clear. induction all_stocks as [| s l IH]; [done |].
      cbn [List.filter]. destruct (_ || _); by constructor. }
    split_and!.
    + rewrite length_take. lia.
    + etrans; [apply sublist_take | done].
    + intros s Hs. apply Hhits. by eapply subseteq_take.
    + by exists hits.
    + intros Hk s. by apply name_match_ignoring_case.
    + intros Hlaw s Hd. rewrite <- !contains_occurs. by rewrite contains_upper_digits.
Qed.

End upper_facts.

(** The full-width letters have no digits among their capitals. *)
Lemma unicode_no_digit_upper : no_digit_upper unicode.
Proof.
  intros r Hne Hr. destruct r as [| a r]; [done |]. cbn [str_forall] in Hr.
  apply andb_prop in Hr as [Ha _]. apply negb_true_iff in Ha.
  assert (isdigit a = false) as Hd.
  { destruct (isdigit a) eqn:E; [| done]. apply digit_is_ascii in E. congruence. }
  cbn [upper_run unicode upper_fullwidth].
  destruct r as [| b [| c r]]; cbn [str_forall]; try (by rewrite Hd).
  destruct (_ && _); cbn [str_forall]; by rewrite Hd.
Qed.

(** A directory of 150 entries: no keyword returns all of them, the
    keyword "6" is cut to 100, and "bank 14" finds "Bank 14" and
    "Bank 140" to "Bank 149" whatever the case. *)
Example search_stocks_sizes :
  length (@search_stocks unicode (directory 150) "") = 150%nat ∧
  length (@search_stocks unicode (directory 150) "6") = 100%nat ∧
  length (@search_stocks unicode (directory 150) "bank 14") = 11%nat ∧
  @search_stocks unicode (directory 150) "0149" = [mkStock "600149" "Bank 149" "SH"].
Proof. vm_compute. done. Qed.

(** Letters outside ASCII are matched in either case as well: the
    full-width "ａ" of a keyword finds the full-width "Ａ" of a name. *)
Example search_stocks_fullwidth :
  @search_stocks unicode
     [mkStock "000001" "平安银行" "SZ"; mkStock "000002" "万科Ａ" "SZ"] "万科ａ"
  = [mkStock "000002" "万科Ａ" "SZ"].
Proof. vm_compute. reflexivity. Qed.

(** X1.  The search ignores the case of the keyword: two keywords that
    differ at most in the case of their ASCII letters select the same
    entries, in the same order, of any directory, whatever the Unicode
    database. *)
Theorem search_stocks_case_insensitive `{Unicode} (all_stocks : list Stock) (k1 k2 : string) :
  same_ignoring_case k1 k2 = true →
  search_stocks all_stocks k1 = search_stocks all_stocks k2.
Proof.
  intros Hsame. unfold search_stocks.
  assert (upper k1 = upper k2) as Hup by (by apply same_ignoring_case_upper).
  destruct (String.eqb_spec k1 "") as [-> | H1], (String.eqb_spec k2 "") as [-> | H2].
  - done.
  - by destruct k2.
  - by destruct k1.
  - by rewrite Hup.
Qed.

Lemma search_stocks_case_insensitive_witness :
  same_ignoring_case "bank 14" "BaNk 14" = true ∧
  @search_stocks unicode (directory 150) "bank 14"
  = @search_stocks unicode (directory 150) "BaNk 14".
Proof.
  split; [vm_compute; reflexivity |].
  apply (@search_stocks_case_insensitive unicode (directory 150) "bank 14" "BaNk 14").
  vm_compute; reflexivity.
Defined.

(* ===================================================================== *)
(** * The stock directory: its contents, its cache, its lookups *)
(* ===================================================================== *)

(** The first match of [List.find]. *)
Lemma find_first_match {A} (f : A → bool) (l : list A) :
  match List.find f l with
  | Some x => ∃ before after, l = before ++ x :: after ∧ f x = true ∧
                              Forall (λ y, f y = false) before
  | None => Forall (λ y, f y = false) l
  end.
Proof.
  induction l as [| a l IH]; cbn [List.find]; [done |].
  destruct (f a) eqn:E.
  - exists [], l. done.
  - destruct (List.find f l) as [x |].
    + destruct IH as (before & after & -> & ? & ?).
      exists (a :: before), after. split_and!; [done | done | by constructor].
    + by constructor.
Qed.

Section directory_facts.
Context {ls : Listing}.

(** The body of [get_stock_list] never raises. *)
Lemma load_stock_list_ok (n : nat) : ∃ l, load_stock_list n = Ok l.
Proof.
  unfold load_stock_list.
  destruct (stock_info_sh_name_code n) as [sh | e]; cbn [mbind result_bind try_except]; [| eauto].
  destruct (stock_info_sz_name_code n) as [sz | e]; cbn [mbind result_bind try_except]; eauto.
Qed.

Lemma get_stock_list_ok (p : Process) : ∃ l p', get_stock_list p = (Ok l, p').
Proof.
  unfold get_stock_list. destruct (stock_list_cache p); [eauto |].
  destruct (load_stock_list_ok (loads p)) as [l ->]. eauto.
Qed.

(** X2.  What a load of the directory returns: the Shanghai rows whose
    code starts with 6, marked SH, followed by the Shenzhen rows whose code
    starts with 0, marked SZ, each part in the order of its listing; and
    nothing at all, not even the part already read, when either listing
    fails. *)
Theorem load_stock_list_content (n : nat) :
  ∃ sh_list sz_list,
    load_stock_list n = Ok (sh_list ++ sz_list) ∧
    Forall (λ s, market s = "SH" ∧ startswith (code s) "6" = true) sh_list ∧
    Forall (λ s, market s = "SZ" ∧ startswith (code s) "0" = true) sz_list ∧
    (∀ sh sz, stock_info_sh_name_code n = Ok sh → stock_info_sz_name_code n = Ok sz →
       code <$> sh_list = List.filter (λ c, startswith c "6") (fst <$> sh) ∧
       code <$> sz_list = List.filter (λ c, startswith c "0") (fst <$> sz)) ∧
    ((∃ e, stock_info_sh_name_code n = Raise e) ∨ (∃ e, stock_info_sz_name_code n = Raise e) →
       sh_list = [] ∧ sz_list = []).
Proof.
  assert (∀ (m p : string) (rows : list (string * string)),
            Forall (λ s, market s = m ∧ startswith (code s) p = true)
              ((λ row, mkStock row.1 row.2 m) <$> List.filter (λ row, startswith row.1 p) rows)
            ∧ code <$> ((λ row, mkStock row.1 row.2 m) <$> List.filter (λ row, startswith row.1 p) rows)
              = List.filter (λ c, startswith c p) (fst <$> rows)) as Hrows.
  { intros m p rows. induction rows as [| row rows [IH1 IH2]]; [by split |].
    cbn [List.filter fmap list_fmap]. destruct (startswith row.1 p) eqn:E.
    - split; [constructor; [by split | exact IH1] |].
      cbn [fmap list_fmap code]. cbn [fmap] in IH2. by rewrite IH2.
    - done. }
  unfold load_stock_list.
  destruct (stock_info_sh_name_code n) as [sh | e1]; cbn [mbind result_bind try_except].
  - destruct (stock_info_sz_name_code n) as [sz | e2]; cbn [mbind result_bind try_except].
    + eexists _, _. split; [reflexivity |].
      destruct (Hrows "SH" "6" sh) as [? ?], (Hrows "SZ" "0" sz) as [? ?].
      split_and!; try done.
      * intros ? ? [= <-] [= <-]. done.
      * intros [[? ?] | [? ?]]; done.
    + exists [], []. split_and!; try done.
  - exists [], []. split_and!; try done.
Qed.

(** X3.  The directory is loaded at most once per process.  Every call of
    [get_stock_list] returns a list and leaves it in the cache; a call that
    finds the cache filled returns the cached list and loads nothing; and
    the list that the first call stored is what every later call returns,
    the empty list of a failed first load included. *)
Theorem get_stock_list_cached (p : Process) :
  ∃ all_stocks p',
    get_stock_list p = (Ok all_stocks, p') ∧
    stock_list_cache p' = Some all_stocks ∧
    get_stock_list p' = (Ok all_stocks, p') ∧
    (∀ cached, stock_list_cache p = Some cached → all_stocks = cached ∧ p' = p) ∧
    (stock_list_cache p = None →
       loads p' = S (loads p) ∧ load_stock_list (loads p) = Ok all_stocks ∧
       ((∃ e, stock_info_sh_name_code (loads p) = Raise e) → all_stocks = [])).
Proof.
  unfold get_stock_list. destruct (stock_list_cache p) as [cached |] eqn:Hc.
  - exists cached, p. rewrite Hc. split_and!; try done. by intros ? [= <-].
  - destruct (load_stock_list_ok (loads p)) as [l Hl]. rewrite Hl.
    eexists l, _. split; [reflexivity |]. cbn [stock_list_cache loads].
    split_and!; try done. intros _. split_and!; try done.
    intros [e He]. unfold load_stock_list in Hl. rewrite He in Hl.
    cbn [mbind result_bind try_except] in Hl. by injection Hl as <-.
Qed.

End directory_facts.

(** X4.  [get_stock_info] returns the first entry of the directory that
    carries the requested code, and [None] exactly when no entry does. *)
Theorem get_stock_info_first_match (all_stocks : list Stock) (c : string) :
  match StockData.get_stock_info all_stocks c with
  | Some stock =>
      ∃ before after, all_stocks = before ++ stock :: after ∧
        code stock = c ∧ Forall (λ s, code s ≠ c) before
  | None => Forall (λ s, code s ≠ c) all_stocks
  end.
Proof.
  unfold StockData.get_stock_info.
  pose proof (find_first_match (λ stock, String.eqb (code stock) c) all_stocks) as H.
  destruct (List.find _ all_stocks) as [stock |].
  - destruct H as (before & after & -> & Hc & Hb). exists before, after.
    split_and!; [done | by apply String.eqb_eq |].
    eapply Forall_impl; [exact Hb |]. intros s Hs. by apply String.eqb_neq.
  - eapply Forall_impl; [exact H |]. intros s Hs. by apply String.eqb_neq.
Qed.

(** X5.  The info endpoint returns a record for every code, and the record
    carries the requested code: an entry of the directory, or, when the
    directory has no entry with this code, the placeholder with the name
    "未知" and an empty market. *)
Theorem info_route_answers `{Listing} (c : string) (p : Process) :
  ∃ info p' all_stocks,
    Routes.get_stock_info c p = (Ok info, p') ∧
    get_stock_list p = (Ok all_stocks, p') ∧
    code info = c ∧
    (info ∈ all_stocks ∨
     (info = mkStock c "未知" "" ∧ Forall (λ s, code s ≠ c) all_stocks)).
Proof.
  destruct (get_stock_list_ok p) as (l & p' & Hl).
  unfold Routes.get_stock_info, get_stock_info_cached. rewrite Hl.
  cbn [mbind result_bind]. unfold StockData.get_stock_info.
  pose proof (find_first_match (λ stock, String.eqb (code stock) c) l) as Hf.
  destruct (List.find _ l) as [stock |].
  - destruct Hf as (before & after & -> & Hc & _).
    exists stock, p', (before ++ stock :: after). split_and!; try done.
    + by apply String.eqb_eq.
    + left. rewrite elem_of_app, elem_of_cons. tauto.
  - exists (mkStock c "未知" ""), p', l. split_and!; try done. right. split; [done |].
    eapply Forall_impl; [exact Hf |]. intros s Hs. by apply String.eqb_neq.
Qed.

(* ===================================================================== *)
(** * The snapshot adapter: which answers it accepts *)
(* ===================================================================== *)

Lemma str_length_append (a b : string) :
  String.length (a +:+ b) = (String.length a + String.length b)%nat.
Proof.
  induction a as [| c a IH]; [done |]. rewrite str_append_cons. cbn [String.length].
  by rewrite IH.
Qed.

Lemma find_lacks (c : ascii) (s : string) : lacks c s = true → find c s = (-1)%Z.
Proof.
  induction s as [| a s IH]; [done |]. cbn [lacks find].
  intros [Ha Hs]%andb_prop. apply negb_true_iff in Ha. rewrite Ha, (IH Hs). done.
Qed.

Lemma rfind_lacks (c : ascii) (s : string) : lacks c s = true → rfind c s = (-1)%Z.
Proof.
  induction s as [| a s IH]; [done |]. cbn [lacks rfind].
  intros [Ha Hs]%andb_prop. apply negb_true_iff in Ha. rewrite Ha, (IH Hs). done.
Qed.

Lemma find_ge (c : ascii) (s : string) : (-1 ≤ find c s)%Z.
Proof.
  induction s as [| a s IH]; cbn [find]; [lia |].
  destruct (Ascii.eqb a c); [lia |]. destruct (Z.ltb_spec (find c s) 0); lia.
Qed.

(** [s.find(c)] is the length of the longest prefix without [c]. *)
Lemma find_first (c : ascii) (pre rest : string) :
  lacks c pre = true → find c (pre +:+ String c rest) = Z.of_nat (String.length pre).
Proof.
  induction pre as [| a pre IH].
  - intros _. change ("" +:+ String c rest) with (String c rest). cbn [find String.length].
    by rewrite Ascii.eqb_refl.
  - rewrite str_append_cons. cbn [lacks find String.length].
    intros [Ha Hs]%andb_prop. apply negb_true_iff in Ha. rewrite Ha, (IH Hs).
    destruct (Z.ltb_spec (Z.of_nat (String.length pre)) 0); lia.
Qed.

(** [s.rfind(c)] is the position before the longest suffix without [c]. *)
Lemma rfind_last (c : ascii) (s post : string) :
  lacks c post = true → rfind c (s +:+ String c post) = Z.of_nat (String.length s).
Proof.
  intros Hp. induction s as [| a s IH].
  - change ("" +:+ String c post) with (String c post). cbn [rfind String.length].
    by rewrite (rfind_lacks c post Hp), Ascii.eqb_refl.
  - rewrite str_append_cons. cbn [rfind String.length]. rewrite IH.
    destruct (Z.leb_spec 0 (Z.of_nat (String.length s))); lia.
Qed.

Lemma substring_prefix (body rest : string) :
  String.substring 0 (String.length body) (body +:+ rest) = body.
Proof.
  induction body as [| a body IH].
  - change ("" +:+ rest) with rest. cbn [String.length]. by destruct rest.
  - rewrite str_append_cons. cbn [String.length String.substring]. by rewrite IH.
Qed.

Lemma substring_middle (pre body rest : string) :
  String.substring (String.length pre) (String.length body) (pre +:+ body +:+ rest) = body.
Proof.
  induction pre as [| a pre IH].
  - change ("" +:+ body +:+ rest) with (body +:+ rest). apply substring_prefix.
  - rewrite str_append_cons. cbn [String.length String.substring]. exact IH.
Qed.

Section snapshot_facts.
Context {up : Upstream}.

(** X6.  A 200 answer whose text is a non-empty payload between the first
    "(" and the last ")" has exactly this payload decoded, whatever stands
    before and after it: the adapter returns the decoded rows, in order,
    with the amount column set to 0, and the empty frame when the payload
    does not decode. *)
Theorem sina_payload_extracted (c period pre body post : string) :
  lacks "(" pre = true → lacks ")" post = true → body ≠ "" →
  sina_get (if startswith c "6" then "sh" +:+ c else "sz" +:+ c) (scale_map period)
    = Ok (200%Z, wrapped pre body post) →
  _get_kline_sina c period =
    match sina_decode body with
    | Ok rows => Ok ((λ b, mkBar (date b) (open b) (close b) (high b) (low b) (volume b) 0) <$> rows)
    | Raise _ => Ok []
    end.
Proof.
  intros Hpre Hpost Hbody Hget.
  assert (0 < String.length body)%nat as Hlen by (destruct body; [done | cbn; lia]).
  assert (find "(" (wrapped pre body post) = Z.of_nat (String.length pre)) as Hf.
  { by apply (find_first "(" pre (body +:+ String ")" post)). }
  assert (rfind ")" (wrapped pre body post)
          = Z.of_nat (String.length pre + S (String.length body))) as Hr.
  { change (wrapped pre body post) with (pre +:+ String "(" (body +:+ String ")" post)).
    rewrite <- (str_append_cons "(" body), <- str_append_assoc.
    rewrite (rfind_last ")" _ post Hpost), str_length_append. done. }
  assert (str_slice (Z.of_nat (String.length pre) + 1)
            (Z.of_nat (String.length pre + S (String.length body))) (wrapped pre body post)
          = body) as Hs.
  { unfold str_slice.
    replace (Z.to_nat (Z.of_nat (String.length pre) + 1)) with (String.length (pre +:+ "("))
      by (rewrite str_length_append; cbn [String.length]; lia).
    replace (Z.to_nat (Z.of_nat (String.length pre + S (String.length body)) -
                        (Z.of_nat (String.length pre) + 1)))
      with (String.length body) by lia.
    change (wrapped pre body post) with (pre +:+ "(" +:+ body +:+ String ")" post).
    rewrite <- (str_append_assoc pre "("). apply substring_middle. }
  unfold _get_kline_sina. rewrite Hget.
  cbn [mbind result_bind]. change (200 =? 200)%Z with true. cbv iota.
  rewrite Hf, Hr, Hs.
  replace (0 <? Z.of_nat (String.length pre) + 1)%Z with true by (symmetry; apply Z.ltb_lt; lia).
  replace (Z.of_nat (String.length pre) + 1 <?
           Z.of_nat (String.length pre + S (String.length body)))%Z
    with true by (symmetry; apply Z.ltb_lt; lia).
  cbn [andb].
  destruct (sina_decode body) as [[| b rows] | e]; cbn [mbind result_bind try_except]; done.
Qed.

(** X7.  The answers that the snapshot adapter turns into the empty frame
    without decoding anything: a failed request, a status other than 200,
    and a text without an opening or without a closing parenthesis. *)
Theorem sina_rejects (c period : string) :
  let answer :=
    sina_get (if startswith c "6" then "sh" +:+ c else "sz" +:+ c) (scale_map period) in
  (∀ e, answer = Raise e → _get_kline_sina c period = Ok []) ∧
  (∀ status text, answer = Ok (status, text) →
     status ≠ 200%Z ∨ lacks "(" text = true ∨ lacks ")" text = true →
     _get_kline_sina c period = Ok []).
Proof.
  cbv zeta. split.
  - intros e He. unfold _get_kline_sina. by rewrite He.
  - intros status text Hget Hbad. unfold _get_kline_sina. rewrite Hget.
    cbn [mbind result_bind].
    destruct (Z.eqb_spec status 200) as [-> | Hs]; [| done].
    destruct Hbad as [? | [Hl | Hl]]; [done | |].
    + by rewrite (find_lacks _ _ Hl).
    + rewrite (rfind_lacks _ _ Hl). pose proof (find_ge "(" text) as Hf.
      destruct (Z.ltb_spec (find "(" text + 1) (-1)); [lia |].
      by rewrite andb_false_r.
Qed.

End snapshot_facts.

Lemma sina_payload_extracted_witness :
  lacks "(" "/*<script>*/ var _sh600000_240=" = true ∧ lacks ")" ";" = true ∧ "[{}]" ≠ "" ∧
  @_get_kline_sina
     (upstream (Ok (200%Z, wrapped "/*<script>*/ var _sh600000_240=" "[{}]" ";"))
               (Ok (rising 100 3)) (fun _ => Ok None))
     "600000" "daily"
  = Ok ((λ b, mkBar (date b) (open b) (close b) (high b) (low b) (volume b) 0)
          <$> rising 100 3).
Proof.
  split; [reflexivity |]. split; [reflexivity |]. split; [done |].
  apply (@sina_payload_extracted
           (upstream (Ok (200%Z, wrapped "/*<script>*/ var _sh600000_240=" "[{}]" ";"))
                     (Ok (rising 100 3)) (fun _ => Ok None))
           "600000" "daily" "/*<script>*/ var _sh600000_240=" "[{}]" ";");
    [reflexivity | reflexivity | done | reflexivity].
Defined.

(* ===================================================================== *)
(** * The historical adapter: its retries and what they cost *)
(* ===================================================================== *)

Section history_facts.
Context {up : Upstream}.

(** One pass of the retry loop makes one call, and returns exactly when
    the answer is usable. *)
Lemma akshare_attempt_cases (c period : string) (w : World) :
  ∃ r, akshare_attempt c period w = (r, mkWorld (S (hist_calls w)) (slept w)) ∧
    match usable (stock_zh_a_hist c (period_sent period) (hist_calls w)) with
    | Some rows' => r = Ok (Some (tail 250 rows'))
    | None => r = Ok None ∨ ∃ e, r = Raise e
    end.
Proof.
  unfold akshare_attempt, call_hist, usable, period_sent. cbv beta iota zeta.
  set (p := if String.eqb period "weekly" then _ else _).
  eexists. split; [reflexivity |].
  destruct (stock_zh_a_hist c p (hist_calls w)) as [[[| b rows] |] | e];
    cbn [mbind result_bind]; eauto.
  destruct (format_dates (b :: rows)) as [rows' | e]; cbn [mbind result_bind]; eauto.
Qed.

Lemma akshare_loop_step (c period : string) (retry : nat) (rest : list nat) (w : World) :
  akshare_loop c period (retry :: rest) w =
    match usable (stock_zh_a_hist c (period_sent period) (hist_calls w)) with
    | Some rows' =>
        (tail 250 rows',
         mkWorld (S (hist_calls w)) (slept w ++ [0.3 * inject_Z (Z.of_nat retry)]%Q))
    | None =>
        akshare_loop c period rest
          (mkWorld (S (hist_calls w)) (slept w ++ [0.3 * inject_Z (Z.of_nat retry)]%Q))
    end.
Proof.
  cbn [akshare_loop].
  destruct (akshare_attempt_cases c period (sleep (0.3 * inject_Z (Z.of_nat retry)) w))
    as (r & -> & Hr).
  cbn [sleep hist_calls slept] in *.
  destruct (usable _) as [rows' |]; [by subst |].
  by destruct Hr as [-> | [e ->]].
Qed.

Lemma usable_nonempty (answer : result (option (list Bar))) (rows' : list Bar) :
  usable answer = Some rows' → tail 250 rows' ≠ [].
Proof.
  unfold usable. destruct answer as [[[| b rows] |] | e]; try done.
  destruct (format_dates (b :: rows)) as [r' | e] eqn:F; [| done].
  intros [= <-]. apply format_dates_length in F.
  intros Hnil. apply (f_equal length) in Hnil. rewrite tail_length in Hnil.
  cbn [length] in *. lia.
Qed.

Lemma akshare_loop_effects (c period : string) (retries : list nat) (w : World) :
  ∃ df w' calls,
    akshare_loop c period retries w = (df, w') ∧
    (calls ≤ length retries)%nat ∧ (retries ≠ [] → 1 ≤ calls)%nat ∧
    hist_calls w' = (hist_calls w + calls)%nat ∧
    slept w' = slept w ++ ((λ retry, 0.3 * inject_Z (Z.of_nat retry))%Q <$> take calls retries) ∧
    (df = [] → calls = length retries).
Proof.
  revert w. induction retries as [| retry rest IH]; intros w.
  - exists [], w, 0%nat. cbn. rewrite app_nil_r. split_and!; try done; lia.
  - rewrite akshare_loop_step.
    destruct (usable (stock_zh_a_hist c (period_sent period) (hist_calls w))) as [rows' |] eqn:E.
    + eexists _, _, 1%nat. split; [reflexivity |]. cbn [hist_calls slept length take fmap list_fmap].
      split_and!; try done; try lia. intros Hnil. by apply usable_nonempty in E.
    + destruct (IH (mkWorld (S (hist_calls w))
                      (slept w ++ [0.3 * inject_Z (Z.of_nat retry)]%Q)))
        as (df & w' & calls & -> & ? & ? & Hc & Hs & Hd).
      cbn [hist_calls slept] in Hc, Hs.
      exists df, w', (S calls). split; [done |]. cbn [length take fmap list_fmap].
      split_and!; try done; try lia.
      * by rewrite Hs, <- app_assoc.
      * intros Hnil. by rewrite Hd.
Qed.

(** X8.  The historical adapter returns the last 250 rows of the first
    usable answer among those to at most three calls, a usable answer being
    a non-empty frame whose dates all parse; it stops there, having made
    one call per answer seen and paused 0 s, 0.3 s and 0.6 s before them.
    With no usable answer among the three it returns the empty frame. *)
Theorem akshare_first_usable (c period : string) (w : World) :
  let answer (n : nat) :=
    usable (stock_zh_a_hist c (period_sent period) (hist_calls w + n)) in
  _get_kline_akshare c period w =
    match list_find is_Some (answer <$> [0; 1; 2]%nat) with
    | Some (k, Some rows') =>
        (Ok (tail 250 rows'),
         mkWorld (hist_calls w + S k) (slept w ++ take (S k) pauses))
    | _ => (Ok [], mkWorld (hist_calls w + 3) (slept w ++ pauses))
    end.
Proof.
  cbv zeta. unfold _get_kline_akshare. cbn [seq].
  rewrite akshare_loop_step. cbn [fmap list_fmap list_find].
  replace (hist_calls w + 0)%nat with (hist_calls w) by lia.
  destruct (usable (stock_zh_a_hist c (period_sent period) (hist_calls w))) as [r0 |] eqn:E0.
  { rewrite decide_True by eauto. cbn.
    by replace (hist_calls w + 1)%nat with (S (hist_calls w)) by lia. }
  rewrite decide_False by (by intros [? ?]).
  rewrite akshare_loop_step. cbn [hist_calls slept].
  replace (hist_calls w + 1)%nat with (S (hist_calls w)) by lia.
  destruct (usable (stock_zh_a_hist c (period_sent period) (S (hist_calls w)))) as [r1 |] eqn:E1.
  { rewrite decide_True by eauto. cbn [fmap option_fmap option_map prod_map fst snd].
    replace (hist_calls w + 2)%nat with (S (S (hist_calls w))) by lia.
    by rewrite <- app_assoc. }
  rewrite decide_False by (by intros [? ?]).
  rewrite akshare_loop_step. cbn [hist_calls slept].
  replace (hist_calls w + 2)%nat with (S (S (hist_calls w))) by lia.
  destruct (usable (stock_zh_a_hist c (period_sent period) (S (S (hist_calls w))))) as [r2 |] eqn:E2.
  { rewrite decide_True by eauto. cbn [fmap option_fmap option_map prod_map fst snd].
    replace (hist_calls w + 3)%nat with (S (S (S (hist_calls w)))) by lia.
    by rewrite <- !app_assoc. }
  rewrite decide_False by (by intros [? ?]).
  cbn [akshare_loop fmap option_fmap option_map].
  replace (hist_calls w + 3)%nat with (S (S (S (hist_calls w)))) by lia.
  by rewrite <- !app_assoc.
Qed.

(** X9.  The historical adapter never raises and its cost is bounded: it
    makes between one and three calls and pauses before each of them, for
    0.9 s at most in total; an empty result always costs all three calls. *)
Theorem akshare_effects_bounded (c period : string) (w : World) :
  ∃ df w' calls,
    _get_kline_akshare c period w = (Ok df, w') ∧
    (1 ≤ calls ≤ 3)%nat ∧
    hist_calls w' = (hist_calls w + calls)%nat ∧
    slept w' = slept w ++ take calls pauses ∧
    (Qsum (take calls pauses) <= 0.9)%Q ∧
    (df = [] → calls = 3%nat).
Proof.
  destruct (akshare_loop_effects c period (seq 0 3) w)
    as (df & w' & calls & Hl & Hle & Hge & Hc & Hs & Hd).
  exists df, w', calls. unfold _get_kline_akshare. rewrite Hl.
  cbn [seq length] in *. split_and!; try done; try lia.
  - by apply Hge.
  - rewrite Hs. do 4 (destruct calls as [| calls]; [done |]). lia.
  - do 4 (destruct calls as [| calls]; [by vm_compute |]). lia.
Qed.

Lemma scale_map_unknown (period : string) :
  period ≠ "weekly" → period ≠ "monthly" → scale_map period = scale_map "daily".
Proof.
  intros H1 H2. unfold scale_map.
  destruct (String.eqb_spec period "daily"); [done |].
  destruct (String.eqb_spec period "weekly"); [done |].
  by destruct (String.eqb_spec period "monthly").
Qed.

Lemma akshare_loop_period (c p1 p2 : string) (retries : list nat) (w : World) :
  period_sent p1 = period_sent p2 →
  akshare_loop c p1 retries w = akshare_loop c p2 retries w.
Proof.
  intros Hp. revert w. induction retries as [| retry rest IH]; intros w; [done |].
  rewrite !akshare_loop_step, Hp. destruct (usable _); [done | apply IH].
Qed.

(** X10.  A period that is neither "weekly" nor "monthly" is served as
    "daily": the same requests are made and the same series comes back. *)
Theorem get_kline_unknown_period (c period : string) (w : World) :
  period ≠ "weekly" → period ≠ "monthly" →
  get_kline c period w = get_kline c "daily" w.
Proof.
  intros H1 H2. unfold get_kline, _get_kline_sina, _get_kline_akshare.
  rewrite (scale_map_unknown period H1 H2).
  rewrite (akshare_loop_period c period "daily"); [done |].
  unfold period_sent.
  destruct (String.eqb_spec period "weekly"); [done |].
  by destruct (String.eqb_spec period "monthly").
Qed.

(** [get_kline] never raises. *)
Lemma get_kline_ok (c period : string) (w : World) :
  ∃ df w', get_kline c period w = (Ok df, w').
Proof.
  unfold get_kline.
  destruct (get_kline_sina_ok c period) as [snap ->].
  destruct (nonempty snap); [eauto |].
  destruct (get_kline_akshare_ok c period w) as (hist & w1 & -> & _).
  destruct (nonempty hist); eauto.
Qed.

End history_facts.

Lemma get_kline_unknown_period_witness :
  "hourly" ≠ "weekly" ∧ "hourly" ≠ "monthly" ∧
  @get_kline (upstream (Ok (200%Z, "[]")) (Ok []) (fun _ => Ok (Some (rising 100 300))))
     "600000" "hourly" w0
  = @get_kline (upstream (Ok (200%Z, "[]")) (Ok []) (fun _ => Ok (Some (rising 100 300))))
     "600000" "daily" w0.
Proof.
  split; [done |]. split; [done |].
  apply (@get_kline_unknown_period
           (upstream (Ok (200%Z, "[]")) (Ok []) (fun _ => Ok (Some (rising 100 300))))
           "600000" "hourly" w0); done.
Defined.

(* ===================================================================== *)
(** * The indicator set: its keys, its values, its levels *)
(* ===================================================================== *)

Lemma tail_fmap {A B} (f : A → B) (k : nat) (l : list A) : tail k (f <$> l) = f <$> tail k l.
Proof. unfold tail. by rewrite length_fmap, fmap_drop. Qed.

Lemma tail_nonempty {A} (k : nat) (l : list A) : (0 < k)%nat → l ≠ [] → tail k l ≠ [].
Proof.
  intros Hk Hl Hnil. apply (f_equal length) in Hnil. rewrite tail_length in Hnil.
  destruct l; [done |]. cbn [length] in Hnil. lia.
Qed.

Lemma tail_split {A} (j k : nat) (l : list A) :
  (j ≤ k ≤ length l)%nat → tail k l = take (k - j) (tail k l) ++ tail j l.
Proof.
  intros H. unfold tail. rewrite <- (take_drop (k - j) (drop (length l - k) l)) at 1.
  f_equal. rewrite drop_drop. f_equal. lia.
Qed.

(** [series.min()] is an element of the series below all the others. *)
Lemma series_min_spec (xs : list Q) :
  xs ≠ [] → ∃ m, series_min xs = Fin m ∧ m ∈ xs ∧ Forall (λ x, (m <= x)%Q) xs.
Proof.
  destruct xs as [| x r]; [done |]. intros _. cbn [series_min].
  eexists. split; [reflexivity |].
  revert x. induction r as [| y r IH]; intros x; cbn [foldl].
  - split; [rewrite !elem_of_cons in *; tauto |]. constructor; [lra | done].
  - destruct (Qltb y x) eqn:E.
    + apply Qltb_lt in E. destruct (IH y) as [Hin Hall].
      split; [rewrite !elem_of_cons in *; tauto |].
      apply Forall_cons in Hall as [H1 H2]. repeat constructor; try done; lra.
    + apply Qltb_nlt in E. destruct (IH x) as [Hin Hall].
      split; [rewrite !elem_of_cons in *; tauto |].
      apply Forall_cons in Hall as [H1 H2]. repeat constructor; try done.
      set (m := foldl _ x r) in *. lra.
Qed.

Lemma series_max_spec (xs : list Q) :
  xs ≠ [] → ∃ m, series_max xs = Fin m ∧ m ∈ xs ∧ Forall (λ x, (x <= m)%Q) xs.
Proof.
  destruct xs as [| x r]; [done |]. intros _. cbn [series_max].
  eexists. split; [reflexivity |].
  revert x. induction r as [| y r IH]; intros x; cbn [foldl].
  - split; [rewrite !elem_of_cons in *; tauto |]. constructor; [lra | done].
  - destruct (Qgtb y x) eqn:E.
    + apply Qgtb_gt in E. destruct (IH y) as [Hin Hall].
      split; [rewrite !elem_of_cons in *; tauto |].
      apply Forall_cons in Hall as [H1 H2]. repeat constructor; try done; lra.
    + apply Qgtb_ngt in E. destruct (IH x) as [Hin Hall].
      split; [rewrite !elem_of_cons in *; tauto |].
      apply Forall_cons in Hall as [H1 H2]. repeat constructor; try done.
      set (m := foldl _ x r) in *. lra.
Qed.

(** Once the window is full the last rolling mean is the mean of the last
    [w] values. *)
Lemma rolling_mean_last_fin (w : nat) (xs : list Q) :
  (0 < w ≤ length xs)%nat →
  rolling_mean_last w xs = Fin (Qmean (tail w xs)).
Proof.
  intros Hw. unfold rolling_mean_last, rolling_mean_at, tail.
  destruct (Nat.ltb_spec (S (length xs - 1)) w); [lia |].
  replace (S (length xs - 1) - w)%nat with (length xs - w)%nat by lia.
  rewrite take_ge; [done |]. rewrite length_drop. lia.
Qed.

Section indicator_facts.
Context {ta : TaLib}.

(** X11.  On a series of at least 60 bars the indicator set has exactly
    these seventeen keys. *)
Theorem calculate_all_keys (df : list Bar) :
  (60 ≤ length df)%nat →
  dom (calculate_all df) =
    list_to_set
      ["current_price"; "ma5"; "ma10"; "ma20"; "ma60"; "macd"; "signal"; "hist";
       "rsi"; "kdj_k"; "kdj_d"; "kdj_j"; "boll_upper"; "boll_middle"; "boll_lower";
       "support_level"; "resistance_level"].
Proof.
  intros Hlen. apply too_short_ge in Hlen. unfold calculate_all. rewrite Hlen. cbv zeta.
  rewrite !dom_insert_L, dom_empty_L. cbn [list_to_set]. set_solver.
Qed.

(** X12.  On a series of at least 60 bars no indicator other than J is
    NaN, whatever the [ta] package computes, and the price, the four
    moving averages and the two levels are finite numbers. *)
Theorem calculate_all_defined (df : list Bar) :
  (60 ≤ length df)%nat →
  ∀ key v, calculate_all df !! key = Some v →
    (key ≠ "kdj_j" → isna v = false) ∧
    (key ∈ ["current_price"; "ma5"; "ma10"; "ma20"; "ma60"; "support_level"; "resistance_level"]
       → ∃ q, v = Fin q).
Proof.
  intros Hlen key v. pose proof Hlen as Hshort. apply too_short_ge in Hshort.
  unfold calculate_all. rewrite Hshort. cbv zeta.
  assert (length (closes df) = length df) as Hc by (unfold closes; by rewrite length_fmap).
  assert (df ≠ []) as Hne by (intros ->; cbn in Hlen; lia).
  destruct (series_min_spec (tail 20 (lows df))) as (lo & Hlo & _).
  { unfold lows. rewrite tail_fmap. intros H%fmap_nil_inv. by eapply tail_nonempty in H; [| lia |]. }
  destruct (series_max_spec (tail 20 (highs df))) as (hi & Hhi & _).
  { unfold highs. rewrite tail_fmap. intros H%fmap_nil_inv. by eapply tail_nonempty in H; [| lia |]. }
  rewrite Hlo, Hhi.
  rewrite !rolling_mean_last_fin by lia.
  intros H.
  repeat (apply lookup_insert_Some in H as [[<- <-] | [? H]];
          [split; [intros ?; first [apply float_or_not_nan | reflexivity | done]
                  | intros Hin;
                    first [by eexists
                          | (rewrite !elem_of_cons, elem_of_nil in Hin; intuition discriminate)]] |]).
  done.
Qed.

(** X13.  On a series of at least 60 bars the support level is the lowest
    low and the resistance level the highest high of the last 20 bars; when
    in each of these bars the low does not exceed the high, the support
    does not exceed the resistance. *)
Theorem support_below_resistance (df : list Bar) :
  (60 ≤ length df)%nat →
  ∃ lo hi,
    calculate_all df !! "support_level" = Some (Fin lo) ∧
    calculate_all df !! "resistance_level" = Some (Fin hi) ∧
    lo ∈ lows (tail 20 df) ∧ Forall (λ b, (lo <= low b)%Q) (tail 20 df) ∧
    hi ∈ highs (tail 20 df) ∧ Forall (λ b, (high b <= hi)%Q) (tail 20 df) ∧
    (Forall (λ b, (low b <= high b)%Q) (tail 20 df) → (lo <= hi)%Q).
Proof.
  intros Hlen. pose proof Hlen as Hshort. apply too_short_ge in Hshort.
  assert (df ≠ []) as Hne by (intros ->; cbn in Hlen; lia).
  assert (tail 20 df ≠ []) as Hne20 by (apply tail_nonempty; [lia | done]).
  destruct (series_min_spec (tail 20 (lows df))) as (lo & Hlo & Hlin & Hlall).
  { unfold lows. rewrite tail_fmap. by intros H%fmap_nil_inv. }
  destruct (series_max_spec (tail 20 (highs df))) as (hi & Hhi & Hhin & Hhall).
  { unfold highs. rewrite tail_fmap. by intros H%fmap_nil_inv. }
  exists lo, hi. unfold calculate_all. rewrite Hshort. cbv zeta. rewrite Hlo, Hhi.
  unfold lows, highs in *. rewrite tail_fmap in Hlin, Hlall, Hhin, Hhall.
  rewrite Forall_fmap in Hlall, Hhall.
  split_and!; try done; try assumption.
  intros Hbars. destruct (tail 20 df) as [| b r]; [done |].
  apply Forall_cons in Hlall as [? _], Hhall as [? _], Hbars as [? _].
  cbn in *. lra.
Qed.

(** The three entries that the alignment signal reads. *)
Lemma lookup_calculate_all (df : list Bar) :
  (60 ≤ length df)%nat →
  dict_get (calculate_all df) "current_price" (Fin 0) = Fin (List.last (closes df) 0%Q) ∧
  dict_get (calculate_all df) "ma5" (Fin 0) = Fin (Qmean (tail 5 (closes df))) ∧
  dict_get (calculate_all df) "ma20" (Fin 0) = Fin (Qmean (tail 20 (closes df))).
Proof.
  intros Hlen. pose proof Hlen as Hshort. apply too_short_ge in Hshort.
  assert (length (closes df) = length df) as Hc by (unfold closes; by rewrite length_fmap).
  unfold calculate_all, dict_get. rewrite Hshort. cbv zeta.
  rewrite <- !(rolling_mean_last_fin) by lia.
  split_and!; by simplify_map_eq.
Qed.

End indicator_facts.

Lemma calculate_all_keys_witness :
  (60 ≤ length (zigzag 69))%nat ∧
  dom (@calculate_all (ta_const NaN) (zigzag 69)) =
    list_to_set
      ["current_price"; "ma5"; "ma10"; "ma20"; "ma60"; "macd"; "signal"; "hist";
       "rsi"; "kdj_k"; "kdj_d"; "kdj_j"; "boll_upper"; "boll_middle"; "boll_lower";
       "support_level"; "resistance_level"].
Proof.
  split; [vm_compute; lia |].
  apply (@calculate_all_keys (ta_const NaN) (zigzag 69)). vm_compute; lia.
Defined.

Lemma calculate_all_defined_witness :
  (60 ≤ length (zigzag 69))%nat ∧
  ∀ key v, @calculate_all (ta_const NaN) (zigzag 69) !! key = Some v →
    (key ≠ "kdj_j" → isna v = false) ∧
    (key ∈ ["current_price"; "ma5"; "ma10"; "ma20"; "ma60"; "support_level"; "resistance_level"]
       → ∃ q, v = Fin q).
Proof.
  split; [vm_compute; lia |].
  apply (@calculate_all_defined (ta_const NaN) (zigzag 69)). vm_compute; lia.
Defined.

Lemma support_below_resistance_witness :
  (60 ≤ length (zigzag 69))%nat ∧
  ∃ lo hi,
    @calculate_all (ta_const NaN) (zigzag 69) !! "support_level" = Some (Fin lo) ∧
    @calculate_all (ta_const NaN) (zigzag 69) !! "resistance_level" = Some (Fin hi) ∧
    lo ∈ lows (tail 20 (zigzag 69)) ∧ Forall (λ b, (lo <= low b)%Q) (tail 20 (zigzag 69)) ∧
    hi ∈ highs (tail 20 (zigzag 69)) ∧ Forall (λ b, (high b <= hi)%Q) (tail 20 (zigzag 69)) ∧
    (Forall (λ b, (low b <= high b)%Q) (tail 20 (zigzag 69)) → (lo <= hi)%Q).
Proof.
  split; [vm_compute; lia |].
  apply (@support_below_resistance (ta_const NaN) (zigzag 69)). vm_compute; lia.
Defined.

(* ===================================================================== *)
(** * The alignment signal *)
(* ===================================================================== *)

(** X14.  The fourth signal is bullish exactly when price > MA5 > MA20,
    bearish exactly when price < MA5 < MA20, and neutral otherwise, each
    missing entry read as 0 and each comparison with NaN false. *)
Theorem get_signals_ma_alignment (indicators : gmap string pyfloat) :
  let price := dict_get indicators "current_price" (Fin 0) in
  let ma5 := dict_get indicators "ma5" (Fin 0) in
  let ma20 := dict_get indicators "ma20" (Fin 0) in
  ∃ s1 s2 s3 s4,
    get_signals indicators = [s1; s2; s3; s4] ∧
    Indicators.name s4 = "均线" ∧
    (type s4 = bullish ↔ gt_float price ma5 ∧ gt_float ma5 ma20) ∧
    (type s4 = bearish ↔ gt_float ma5 price ∧ gt_float ma20 ma5) ∧
    (type s4 = neutral ↔
       ¬ (gt_float price ma5 ∧ gt_float ma5 ma20) ∧ ¬ (gt_float ma5 price ∧ gt_float ma20 ma5)).
Proof.
  intros price ma5 ma20. unfold get_signals. fold price ma5 ma20.
  destruct (pf_gt price ma5) eqn:E1; destruct (pf_gt ma5 ma20) eqn:E2;
    destruct (pf_lt price ma5) eqn:E3; destruct (pf_lt ma5 ma20) eqn:E4;
    cbn [andb]; break_ifs; cbn [app];
    do 4 eexists; (split; [reflexivity |]); cbn [Indicators.name type];
    unfold pf_lt in *;
    repeat match goal with
           | H : pf_gt _ _ = true |- _ => apply pf_gt_spec in H
           | H : pf_gt _ _ = false |- _ => apply pf_gt_false in H
           end;
    try (exfalso; eapply gt_float_asym; eassumption);
    split_and!; try done; try tauto; split; try done; try tauto.
Qed.

Lemma ma_signal_bullish (indicators : gmap string pyfloat) :
  pf_gt (dict_get indicators "current_price" (Fin 0)) (dict_get indicators "ma5" (Fin 0)) = true →
  pf_gt (dict_get indicators "ma5" (Fin 0)) (dict_get indicators "ma20" (Fin 0)) = true →
  ∃ s1 s2 s3, get_signals indicators = [s1; s2; s3; mkSignal "均线" bullish "多头排列"].
Proof.
  intros H1 H2. unfold get_signals. rewrite H1, H2. cbn [andb].
  break_ifs; cbn [app]; by do 3 eexists.
Qed.

Lemma ma_signal_bearish (indicators : gmap string pyfloat) :
  pf_lt (dict_get indicators "current_price" (Fin 0)) (dict_get indicators "ma5" (Fin 0)) = true →
  pf_lt (dict_get indicators "ma5" (Fin 0)) (dict_get indicators "ma20" (Fin 0)) = true →
  ∃ s1 s2 s3, get_signals indicators = [s1; s2; s3; mkSignal "均线" bearish "空头排列"].
Proof.
  intros H1 H2. unfold get_signals. rewrite H1, H2. cbn [andb].
  assert (pf_gt (dict_get indicators "current_price" (Fin 0))
                (dict_get indicators "ma5" (Fin 0)) = false) as ->.
  { apply pf_gt_false. apply pf_lt_spec in H1. by apply gt_float_asym. }
  cbn [andb]. break_ifs; cbn [app]; by do 3 eexists.
Qed.

Section monotone.
Local Open Scope Q_scope.

Lemma increasing_cons (x : Q) (r : list Q) :
  increasing (x :: r) = true → Forall (λ y, x < y) r ∧ increasing r = true.
Proof.
  revert x. induction r as [| y r IH]; intros x; [done |].
  intros [Hxy Hr]%andb_prop. apply Qltb_lt in Hxy.
  destruct (IH y Hr) as [Hall Hr']. split; [| done].
  constructor; [done |]. eapply Forall_impl; [exact Hall |]. intros z Hz. cbn in Hz. lra.
Qed.

Lemma increasing_app (l1 l2 : list Q) :
  increasing (l1 ++ l2) = true →
  increasing l2 = true ∧ Forall (λ a, Forall (λ b, a < b) l2) l1.
Proof.
  induction l1 as [| x l1 IH]; [done |]. rewrite <- app_comm_cons.
  intros [Hall Hr]%increasing_cons. destruct (IH Hr) as [H2 H1].
  split; [done |]. constructor; [| done]. by apply Forall_app in Hall as [_ ?].
Qed.

Lemma increasing_drop (k : nat) (l : list Q) : increasing l = true → increasing (drop k l) = true.
Proof.
  intros H. rewrite <- (take_drop k l) in H. by apply increasing_app in H as [? _].
Qed.

Lemma decreasing_opp (xs : list Q) : decreasing xs = true → increasing (Qopp <$> xs) = true.
Proof.
  induction xs as [| x [| y r] IH]; [done | done |].
  intros [Hxy Hr]%andb_prop. apply Qgtb_gt in Hxy.
  change (increasing (Qopp <$> x :: y :: r))
    with (Qltb (- x) (- y) && increasing (Qopp <$> y :: r)).
  rewrite (IH Hr), andb_true_r. apply Qltb_lt. lra.
Qed.

Lemma Qsum_app (l1 l2 : list Q) : Qsum (l1 ++ l2) == Qsum l1 + Qsum l2.
Proof.
  induction l1 as [| x l1 IH];
    [change (Qsum ([] ++ l2)) with (Qsum l2); change (Qsum []) with 0; lra |].
  rewrite <- app_comm_cons, !Qsum_cons, IH. lra.
Qed.

Lemma Qlen_app {A} (l1 l2 : list A) : Qlen (l1 ++ l2) == Qlen l1 + Qlen l2.
Proof.
  unfold Qlen. rewrite length_app, Nat2Z.inj_add, inject_Z_plus. reflexivity.
Qed.

Lemma Qsum_opp (l : list Q) : Qsum (Qopp <$> l) == - Qsum l.
Proof.
  induction l as [| x l IH]; [reflexivity |].
  rewrite fmap_cons, !Qsum_cons, IH. ring.
Qed.

Lemma Qmean_opp (l : list Q) : l ≠ [] → Qmean (Qopp <$> l) == - Qmean l.
Proof.
  intros Hl. unfold Qmean. rewrite Qsum_opp. unfold Qlen. rewrite length_fmap.
  pose proof (Qlen_pos l Hl) as Hn. unfold Qlen in Hn. field. lra.
Qed.

Lemma Qsum_lt_bound (l : list Q) (m : Q) :
  Forall (λ a, a < m) l → l ≠ [] → Qsum l < Qlen l * m.
Proof.
  induction 1 as [| a l Ha Hl IH]; [done |]. intros _.
  rewrite Qsum_cons, Qlen_cons.
  destruct l as [| b l]; [rewrite Qlen_nil; change (Qsum []) with 0; lra |].
  specialize (IH ltac:(done)). lra.
Qed.

Lemma Qsum_ge_bound (l : list Q) (m : Q) :
  Forall (λ a, m <= a) l → Qlen l * m <= Qsum l.
Proof.
  induction 1 as [| a l Ha Hl IH]; [rewrite Qlen_nil; change (Qsum []) with 0; lra |].
  rewrite Qsum_cons, Qlen_cons. lra.
Qed.

(** In a rising run the mean lies below the last value. *)
Lemma Qmean_lt_last (l : list Q) (z : Q) :
  increasing l = true → (2 ≤ length l)%nat → last l = Some z → Qmean l < z.
Proof.
  intros Hinc Hlen Hlast.
  destruct (last_Some l z) as [[init ->] _]; [done |].
  apply increasing_app in Hinc as [_ Hall].
  assert (init ≠ []) as Hne by (intros ->; cbn in Hlen; lia).
  assert (Forall (λ a, a < z) init) as Hlt.
  { eapply Forall_impl; [exact Hall |]. intros a Ha. by apply Forall_cons in Ha as [? _]. }
  pose proof (Qsum_lt_bound init z Hlt Hne) as Hs.
  unfold Qmean. apply Qlt_shift_div_r.
  - apply Qlen_pos. by destruct init.
  - rewrite Qsum_app, Qlen_app, Qlen_cons, Qlen_nil, Qsum_cons.
    change (Qsum []) with 0. lra.
Qed.

(** In a rising run the mean of a proper suffix lies above the mean of the
    whole. *)
Lemma Qmean_lt_suffix (l1 l2 : list Q) :
  increasing (l1 ++ l2) = true → l1 ≠ [] → l2 ≠ [] → Qmean (l1 ++ l2) < Qmean l2.
Proof.
  intros Hinc H1 H2. destruct l2 as [| f l2]; [done |].
  apply increasing_app in Hinc as [Hinc2 Hall].
  apply increasing_cons in Hinc2 as [Hf _].
  assert (Forall (λ a, a < f) l1) as Hlt.
  { eapply Forall_impl; [exact Hall |]. intros a Ha. by apply Forall_cons in Ha as [? _]. }
  assert (Forall (λ a, f <= a) (f :: l2)) as Hge.
  { constructor; [lra |]. eapply Forall_impl; [exact Hf |]. intros a Ha. cbn in Ha. lra. }
  pose proof (Qsum_lt_bound l1 f Hlt H1) as Hs1.
  pose proof (Qsum_ge_bound _ f Hge) as Hs2.
  pose proof (Qlen_pos l1 H1) as Hn1.
  pose proof (Qlen_pos (f :: l2) ltac:(done)) as Hn2.
  set (n1 := Qlen l1) in *. set (n2 := Qlen (f :: l2)) in *.
  set (S1 := Qsum l1) in *. set (S2 := Qsum (f :: l2)) in *.
  unfold Qmean. rewrite Qsum_app, Qlen_app. fold n1 n2 S1 S2.
  apply Qlt_shift_div_r; [lra |].
  assert (S2 / n2 * (n1 + n2) == (S2 * n1 + S2 * n2) / n2) as -> by (field; lra).
  apply Qlt_shift_div_l; [lra |].
  assert (n2 * S1 < n2 * (n1 * f)) as Ha by (apply Qmult_lt_l; lra).
  assert (n1 * (n2 * f) <= n1 * S2) as Hb by (apply Qmult_le_l; lra).
  lra.
Qed.

(** On a rising series of at least 20 closes the last close lies above
    the mean of the last 5, which lies above the mean of the last 20. *)
Lemma rising_means (xs : list Q) (z : Q) :
  (20 ≤ length xs)%nat → increasing xs = true → last xs = Some z →
  Qmean (tail 5 xs) < z ∧ Qmean (tail 20 xs) < Qmean (tail 5 xs).
Proof.
  intros Hl Hinc Hz. split.
  - apply Qmean_lt_last.
    + by apply increasing_drop.
    + rewrite tail_length. lia.
    + by rewrite last_tail by lia.
  - rewrite (tail_split 5 20 xs) by lia.
    apply Qmean_lt_suffix.
    + rewrite <- tail_split by lia. by apply increasing_drop.
    + intros E. apply (f_equal length) in E. rewrite length_take, tail_length in E.
      cbn [length] in E. lia.
    + intros E. apply (f_equal length) in E. rewrite tail_length in E.
      cbn [length] in E. lia.
Qed.

(** X15.  A series of at least 60 bars whose closes strictly rise gets a
    bullish alignment signal, and one whose closes strictly fall a bearish
    one, whatever the [ta] package computes. *)
Theorem monotone_series_alignment `{TaLib} (df : list Bar) :
  (60 ≤ length df)%nat →
  (increasing (closes df) = true →
     ∃ s1 s2 s3, get_signals (calculate_all df) = [s1; s2; s3; mkSignal "均线" bullish "多头排列"]) ∧
  (decreasing (closes df) = true →
     ∃ s1 s2 s3, get_signals (calculate_all df) = [s1; s2; s3; mkSignal "均线" bearish "空头排列"]).
Proof.
  intros Hlen.
  destruct (lookup_calculate_all df Hlen) as (Hp & H5 & H20).
  assert (length (closes df) = length df) as Hc by (unfold closes; by rewrite length_fmap).
  assert (closes df ≠ []) as Hne by (intros E; rewrite E in Hc; cbn in Hc; lia).
  destruct (iloc_last_ok _ Hne) as (z & _ & Hz).
  assert (List.last (closes df) 0 = z) as Hlast.
  { clear -Hz. induction (closes df) as [| a [| b l] IH]; [done | by injection Hz | ].
    change (List.last (a :: b :: l) 0) with (List.last (b :: l) 0).
    apply IH. by rewrite <- Hz. }
  assert (tail 5 (closes df) ≠ []) as Hne5 by (apply tail_nonempty; [lia | done]).
  assert (tail 20 (closes df) ≠ []) as Hne20 by (apply tail_nonempty; [lia | done]).
  split.
  - intros Hinc.
    assert (20 ≤ length (closes df))%nat as Hl20 by lia.
    destruct (rising_means (closes df) z Hl20 Hinc Hz) as [Ha Hb].
    apply ma_signal_bullish.
    + rewrite Hp, H5, Hlast. by apply Qgtb_gt.
    + rewrite H5, H20. by apply Qgtb_gt.
  - intros Hdec. apply decreasing_opp in Hdec.
    assert (20 ≤ length (Qopp <$> closes df))%nat as Hl20 by (rewrite length_fmap; lia).
    destruct (rising_means (Qopp <$> closes df) (- z) Hl20 Hdec) as [Ha Hb].
    { by rewrite fmap_last, Hz. }
    rewrite tail_fmap in Ha. rewrite !tail_fmap in Hb.
    pose proof (Qmean_opp (tail 5 (closes df)) Hne5) as E5.
    pose proof (Qmean_opp (tail 20 (closes df)) Hne20) as E20.
    apply ma_signal_bearish.
    + rewrite Hp, H5, Hlast. apply Qgtb_gt. lra.
    + rewrite H5, H20. apply Qgtb_gt. lra.
Qed.

End monotone.

Lemma monotone_series_alignment_witness :
  (60 ≤ length (rising 100 60))%nat ∧ increasing (closes (rising 100 60)) = true ∧
  (∃ s1 s2 s3, get_signals (@calculate_all (ta_const NaN) (rising 100 60))
               = [s1; s2; s3; mkSignal "均线" bullish "多头排列"]) ∧
  (60 ≤ length (falling 200 60))%nat ∧ decreasing (closes (falling 200 60)) = true ∧
  (∃ s1 s2 s3, get_signals (@calculate_all (ta_const NaN) (falling 200 60))
               = [s1; s2; s3; mkSignal "均线" bearish "空头排列"]).
Proof.
  split; [vm_compute; lia |]. split; [vm_compute; reflexivity |].
  split.
  { apply (@monotone_series_alignment (ta_const NaN) (rising 100 60));
      [vm_compute; lia | vm_compute; reflexivity]. }
  split; [vm_compute; lia |]. split; [vm_compute; reflexivity |].
  apply (@monotone_series_alignment (ta_const NaN) (falling 200 60));
    [vm_compute; lia | vm_compute; reflexivity].
Defined.

(** X16.  When the [ta] package has no value for MACD, its signal line,
    RSI, K and D on a series of at least 60 bars, the defaults 0, 0, 50, 50
    and 50 stand in: J is 50, the MACD signal is bearish (0 > 0 is false)
    and the RSI and KDJ signals are neutral. *)
Theorem undefined_oscillators_signals `{TaLib} (df : list Bar) :
  (60 ≤ length df)%nat →
  macd (closes df) = NaN → macd_signal (closes df) = NaN → rsi (closes df) = NaN →
  stoch (highs df) (lows df) (closes df) = NaN →
  stoch_signal (highs df) (lows df) (closes df) = NaN →
  calculate_all df !! "kdj_j" = Some (Fin (3 * 50 - 2 * 50)) ∧
  ∃ s4, get_signals (calculate_all df) =
          [mkSignal "MACD" bearish "死叉"; mkSignal "RSI" neutral "中性";
           mkSignal "KDJ" neutral "中性"; s4].
Proof.
  intros Hlen Hm Hs Hr Hk Hd. apply too_short_ge in Hlen.
  unfold calculate_all. rewrite Hlen. cbv zeta. rewrite Hm, Hs, Hr, Hk, Hd.
  unfold get_signals, dict_get, getitem. simplify_map_eq. cbn.
  split; [done |]. break_ifs; by eexists.
Qed.

Lemma undefined_oscillators_signals_witness :
  (60 ≤ length (zigzag 69))%nat ∧
  @calculate_all (ta_const NaN) (zigzag 69) !! "kdj_j" = Some (Fin (3 * 50 - 2 * 50)) ∧
  ∃ s4, get_signals (@calculate_all (ta_const NaN) (zigzag 69)) =
          [mkSignal "MACD" bearish "死叉"; mkSignal "RSI" neutral "中性";
           mkSignal "KDJ" neutral "中性"; s4].
Proof.
  split; [vm_compute; lia |].
  apply (@undefined_oscillators_signals (ta_const NaN) (zigzag 69));
    [vm_compute; lia | reflexivity | reflexivity | reflexivity | reflexivity | reflexivity].
Defined.

(* ===================================================================== *)
(** * The estimators: when they return, and what they return *)
(* ===================================================================== *)

Lemma try_except_fallback (df : list Bar) (body : result Estimate) :
  df ≠ [] → ∃ e, try_except body (λ _, fallback df) = Ok e.
Proof.
  intros Hdf. destruct (fallback_ok df Hdf) as (c & _ & Hfb).
  destruct body as [e | err]; cbn [try_except]; [eauto | rewrite Hfb; eauto].
Qed.

Lemma lstm_predict_ok (df : list Bar) : df ≠ [] → ∃ e, _lstm_predict df = Ok e.
Proof. intros Hdf. unfold _lstm_predict. by apply try_except_fallback. Qed.

Lemma xgboost_predict_returns `{Sklearn} (df : list Bar) :
  df ≠ [] → ∃ e, _xgboost_predict df = Ok e.
Proof. intros Hdf. unfold _xgboost_predict. by apply try_except_fallback. Qed.

(** [predict_all] never raises, whatever the classifier does. *)
Lemma predict_all_ok `{Sklearn} (df : list Bar) : ∃ r, predict_all df = Ok r.
Proof.
  unfold predict_all. destruct (too_short df) eqn:E; [eauto |].
  apply too_short_ge in E.
  assert (df ≠ []) as Hdf by (intros ->; cbn in E; lia).
  destruct (lstm_predict_ok df Hdf) as [a ->].
  destruct (prophet_predict_ok df Hdf) as (b & -> & _).
  destruct (xgboost_predict_returns df Hdf) as [c ->].
  cbn [mbind result_bind]. eauto.
Qed.


(** [min(0.9, max(0.3, v))] lies in [[0.3, 0.9]] for every float [v]: an
    undefined [v] gives 0.3. *)
Lemma clamp_any (v : pyfloat) : within 0.3 0.9 (py_min (Fin 0.9) (py_max (Fin 0.3) v)).
Proof.
  destruct v as [q | | |].
  - destruct (clamp_confidence q) as (z & -> & _ & ? & ?). by exists z.
  - exists 0.9%Q. split; [reflexivity | lra].
  - exists 0.3%Q. split; [reflexivity | lra].
  - exists 0.3%Q. split; [reflexivity | lra].
Qed.

(** X18.  On every non-empty frame, of any length, estimator A returns a
    confidence within [[0.3, 0.9]]: the clamp holds for an undefined or
    infinite consistency as well, and the [except] clause answers 0.5. *)
Theorem lstm_confidence_clamped (df : list Bar) :
  df ≠ [] → ∃ e, _lstm_predict df = Ok e ∧ within 0.3 0.9 (confidence e).
Proof.
  intros Hdf. destruct (fallback_ok df Hdf) as (c & Hc & Hfb).
  assert (within 0.3 0.9 (Fin 0.5)) as Hhalf by (apply within_half; lra).
  unfold _lstm_predict. cbv zeta.
  destruct (Np.ewm_mean_last 5 _) as [es | err]; cbn [mbind result_bind try_except];
    [| rewrite Hfb; eauto].
  destruct (Np.ewm_mean_last 20 _) as [el | err]; cbn [mbind result_bind try_except];
    [| rewrite Hfb; eauto].
  destruct (iloc_last _) as [cur | err]; cbn [mbind result_bind try_except];
    [| rewrite Hfb; eauto].
  destruct (Np.divide _ _) as [rr | err]; cbn [mbind result_bind try_except];
    [| rewrite Hfb; eauto].
  eexists. split; [reflexivity |]. cbn [confidence]. apply clamp_any.
Qed.

Lemma lstm_confidence_clamped_witness :
  rising 100 10 ≠ [] ∧
  ∃ e, _lstm_predict (rising 100 10) = Ok e ∧ within 0.3 0.9 (confidence e).
Proof.
  split; [done |]. apply (lstm_confidence_clamped (rising 100 10)). done.
Defined.

(** X19.  On at least 30 bars the label of estimator B agrees with its
    price: up exactly when the fitted slope is positive and the price lies
    more than 1% above the last close, down exactly when the slope is
    negative and the price lies more than 1% below it, sideways otherwise. *)
Theorem prophet_trend_follows_price (df : list Bar) :
  (30 ≤ length df)%nat →
  ∃ slope intercept cur e p,
    Np.polyfit1 (Np.arange 30) (tail 30 (closes df)) = Ok (slope, intercept) ∧
    last (closes df) = Some cur ∧
    _prophet_predict df = Ok e ∧ price e = Fin p ∧
    (trend e = up ↔ (0 < slope ∧ cur * 1.01 < p)%Q) ∧
    (trend e = down ↔ (slope < 0 ∧ p < cur * 0.99)%Q) ∧
    (trend e = sideways ↔
       ¬ (0 < slope ∧ cur * 1.01 < p)%Q ∧ ¬ (slope < 0 ∧ p < cur * 0.99)%Q).
Proof.
  intros Hlen.
  destruct (prophet_predict_unfold df Hlen) as (Hw & slope & intercept & cur & Hfit & Hcur & Hrun).
  eexists slope, intercept, cur, _, _. split; [exact Hfit |]. split; [exact Hcur |].
  split; [exact Hrun |]. split; [reflexivity |]. cbn [trend].
  set (p := (slope * (Qlen (tail 30 (closes df)) + 5) + intercept)%Q).
  destruct (Qgtb slope 0) eqn:E1; [apply Qgtb_gt in E1 | apply Qgtb_ngt in E1];
    (destruct (Qgtb p (cur * 1.01)) eqn:E2; [apply Qgtb_gt in E2 | apply Qgtb_ngt in E2]);
    (destruct (Qltb slope 0) eqn:E3; [apply Qltb_lt in E3 | apply Qltb_nlt in E3]);
    (destruct (Qltb p (cur * 0.99)) eqn:E4; [apply Qltb_lt in E4 | apply Qltb_nlt in E4]);
    cbn [andb]; split_and!; split; try done; try lra; intros; try (exfalso; lra);
    try (split; lra); try (split; intros [? ?]; lra).
Qed.

Lemma prophet_trend_follows_price_witness :
  (30 ≤ length (zigzag 69))%nat ∧
  ∃ slope intercept cur e p,
    Np.polyfit1 (Np.arange 30) (tail 30 (closes (zigzag 69))) = Ok (slope, intercept) ∧
    last (closes (zigzag 69)) = Some cur ∧
    _prophet_predict (zigzag 69) = Ok e ∧ price e = Fin p ∧
    (trend e = up ↔ (0 < slope ∧ cur * 1.01 < p)%Q) ∧
    (trend e = down ↔ (slope < 0 ∧ p < cur * 0.99)%Q) ∧
    (trend e = sideways ↔
       ¬ (0 < slope ∧ cur * 1.01 < p)%Q ∧ ¬ (slope < 0 ∧ p < cur * 0.99)%Q).
Proof.
  split; [vm_compute; lia |].
  apply (prophet_trend_follows_price (zigzag 69)). vm_compute; lia.
Defined.

Section exact_fit.
Local Open Scope Q_scope.

Lemma linear_sums (a b : Q) (x y : list Q) :
  Forall2 (λ c xi, c == a * xi + b) y x →
  Qsum y == a * Np.Sx x + Qlen x * b ∧
  Np.Sxy x y == a * Np.Sxx x + b * Np.Sx x ∧
  ss_res y x a b == 0.
Proof.
  induction 1 as [| c xi y x Hc Hall (IH1 & IH2 & IH3)].
  - unfold Np.Sx, Np.Sxy, Np.Sxx, ss_res. cbn. rewrite Qlen_nil.
    change (Qsum []) with 0. split_and!; ring.
  - unfold Np.Sx, Np.Sxy, Np.Sxx, ss_res in *. cbn [fmap list_fmap zip_with] in *.
    rewrite !Qsum_cons, Qlen_cons, IH1, IH2, IH3, Hc. split_and!; ring.
Qed.

(** The fit of points that lie on a line is that line. *)
Lemma polyfit1_exact (a b : Q) (x y : list Q) (slope intercept : Q) :
  Np.polyfit1 x y = Ok (slope, intercept) →
  Forall2 (λ c xi, c == a * xi + b) y x →
  slope == a ∧ intercept == b ∧ ss_res y x slope intercept == 0.
Proof.
  intros Hfit Hline.
  destruct (polyfit1_normal x y slope intercept Hfit) as (Hlen & Hden & H1 & H2).
  destruct (linear_sums a b x y Hline) as (Hs & Hxy & Hres).
  pose proof (polyfit1_least_squares x y slope intercept Hfit a b) as Hls.
  pose proof (ss_res_nonneg x y slope intercept) as Hnn.
  assert (x ≠ []) as Hne by (intros ->; discriminate).
  pose proof (Qlen_pos x Hne) as Hn.
  split_and!; [| | lra].
  all: rewrite Hs in H1; rewrite Hxy in H2; clear Hls Hnn Hres Hs Hxy.
  all: revert Hden H1 H2 Hn; generalize (Np.Sxx x) (Np.Sx x) (Qlen x);
       intros sxx sx n Hden H1 H2 Hn.
  all: assert ((slope - a) * (n * sxx - sx * sx) == 0) as Ha
         by (assert ((slope - a) * (n * sxx - sx * sx)
                     == n * ((intercept * sx + slope * sxx) - (a * sxx + b * sx))
                        - sx * ((n * intercept + slope * sx) - (a * sx + n * b))) as -> by ring;
             rewrite H1, H2; ring).
  all: apply Qmult_integral in Ha; destruct Ha as [Ha | Ha]; [| done].
  - lra.
  - assert (slope == a) as Hsl by lra. rewrite Hsl in H1.
    assert (n * (intercept - b) == 0) as Hb by lra.
    apply Qmult_integral in Hb. lra.
Qed.

(** X20.  When the last 30 closes lie on a line [a * x + b] at
    [x = 0 .. 29], estimator B recovers this line, prices it at [x = 35],
    and, unless the line is flat, returns the confidence 0.9. *)
Theorem prophet_exact_on_line (df : list Bar) (a b : Q) :
  (30 ≤ length df)%nat →
  Forall2 (λ c xi, c == a * xi + b) (tail 30 (closes df)) (Np.arange 30) →
  ∃ slope intercept e p,
    Np.polyfit1 (Np.arange 30) (tail 30 (closes df)) = Ok (slope, intercept) ∧
    slope == a ∧ intercept == b ∧
    _prophet_predict df = Ok e ∧ price e = Fin p ∧ p == a * 35 + b ∧
    (¬ a == 0 → confidence e = Fin 0.9).
Proof.
  intros Hlen Hline.
  destruct (prophet_predict_unfold df Hlen) as (Hw & slope & intercept & cur & Hfit & Hcur & Hrun).
  destruct (polyfit1_exact a b _ _ slope intercept Hfit Hline) as (Hsl & Hic & Hres).
  eexists slope, intercept, _, _. split; [exact Hfit |]. split; [exact Hsl |].
  split; [exact Hic |]. split; [exact Hrun |]. split; [reflexivity |]. split.
  - unfold Qlen. rewrite Hw, Hsl, Hic. reflexivity.
  - intros Ha. cbn [confidence].
    set (w := tail 30 (closes df)) in *. set (x := Np.arange 30) in *.
    assert (0 < ss_tot w) as Htot.
    { pose proof (ss_tot_nonneg w) as Hnn.
      destruct (Qlt_le_dec 0 (ss_tot w)) as [? | Hle]; [done |].
      assert (ss_tot w == 0) as Hz by lra.
      apply sum_sq_zero in Hz.
      destruct (polyfit1_constant _ _ _ _ _ Hfit Hz) as [H0 _].
      exfalso. apply Ha. by rewrite <- Hsl. }
    assert (Qabs (r2_of w x slope intercept) == 1) as Hr2.
    { unfold r2_of. rewrite (proj2 (Qgtb_gt _ _) Htot), Hres.
      assert (1 - 0 / ss_tot w == 1) as -> by (field; lra). reflexivity. }
    unfold py_min, py_max, pf_lt, pf_gt.
    assert (Qgtb (Qabs (r2_of w x slope intercept)) 0.3 = true) as ->
      by (apply Qgtb_gt; rewrite Hr2; lra).
    assert (Qgtb 0.9 (Qabs (r2_of w x slope intercept)) = false) as ->
      by (apply Qgtb_ngt; rewrite Hr2; lra).
    done.
Qed.

End exact_fit.

Lemma prophet_exact_on_line_witness :
  (30 ≤ length (rising 100 60))%nat ∧
  ∃ slope intercept e p,
    Np.polyfit1 (Np.arange 30) (tail 30 (closes (rising 100 60))) = Ok (slope, intercept) ∧
    (slope == 1)%Q ∧ (intercept == 130)%Q ∧
    _prophet_predict (rising 100 60) = Ok e ∧ price e = Fin p ∧ (p == 1 * 35 + 130)%Q ∧
    (¬ (1 == 0)%Q → confidence e = Fin 0.9).
Proof.
  split; [vm_compute; lia |].
  apply (prophet_exact_on_line (rising 100 60) 1 130); [vm_compute; lia |].
  vm_compute. repeat constructor.
Defined.

Section classifier_facts.
Context {sk : Sklearn}.

(** Whatever the closes, [dropna] removes at least the first 19 rows. *)
Lemma dropna_length_le (df : list Bar) :
  (length (dropna (build_features df)) ≤ length df - 19)%nat.
Proof.
  unfold dropna, build_features.
  assert (∀ k a, (length (List.filter (λ r, negb (has_nan r))
                            (features_at (closes df) <$> seq a k)) ≤ k - (19 - a))%nat) as H.
  { induction k as [| k IH]; intros a; [cbn; lia |].
    cbn [seq fmap list_fmap List.filter]. specialize (IH (S a)). cbn [fmap] in IH.
    destruct (Nat.ltb_spec a 19) as [Ha | Ha].
    - rewrite warmup_has_nan by done. cbn [negb]. lia.
    - destruct (negb _); cbn [length]; lia. }
  specialize (H (length df) 0%nat). lia.
Qed.

(** X21.  On fewer than 69 bars estimator C answers sideways, the last
    close and 0.5 whatever the prices and whatever the classifier would
    say: fewer than 50 rows survive [dropna]. *)
Theorem xgboost_short_frame_default (df : list Bar) (c : Q) :
  last (closes df) = Some c → (length df < 69)%nat →
  _xgboost_predict df = Ok (mkEstimate sideways (Fin c) (Fin 0.5)).
Proof.
  intros Hc Hlen. rewrite (xgboost_predict_unfold df c Hc). cbv zeta.
  pose proof (dropna_length_le df) as Hle.
  by rewrite (proj2 (Nat.ltb_lt _ 50)) by lia.
Qed.

(** X22.  With a positive last close and a classifier that returns class
    probabilities, the price of estimator C stays within 3% of the last
    close; it lies more than 1.8% above it when the label is up, more than
    1.8% below it when the label is down, and is the last close itself
    when the label is sideways. *)
Theorem xgboost_price_band (df : list Bar) (c : Q) :
  last (closes df) = Some c → (0 < c)%Q → well_behaved sk →
  ∃ e p, _xgboost_predict df = Ok e ∧ price e = Fin p ∧
    (c * 0.97 <= p <= c * 1.03)%Q ∧
    (trend e = up → (c * 1.018 < p)%Q) ∧
    (trend e = down → (p < c * 0.982)%Q) ∧
    (trend e = sideways → p = c).
Proof.
  intros Hc Hpos Hwb. rewrite (xgboost_predict_unfold df c Hc). cbv zeta.
  assert (∃ e p, Ok (mkEstimate sideways (Fin c) (Fin 0.5)) = Ok e ∧ price e = Fin p ∧
    (c * 0.97 <= p <= c * 1.03)%Q ∧
    (trend e = up → (c * 1.018 < p)%Q) ∧
    (trend e = down → (p < c * 0.982)%Q) ∧
    (trend e = sideways → p = c)) as Hdefault.
  { eexists _, _. split; [reflexivity |]. split; [reflexivity |]. cbn [trend].
    split_and!; try done; lra. }
  destruct (_ <? 50)%nat; [exact Hdefault |].
  destruct (fit_predict_proba _ _ _ _ _ _) as [prob | err] eqn:E; [| exact Hdefault].
  apply Hwb in E. destruct E as (H0 & H1 & Hsum).
  destruct (decide_trend_cases prob) as (Hu & Hd & Hs).
  destruct (Qlt_le_dec 0.6 prob.2) as [Hup | Hup].
  - rewrite (Hu Hup). eexists _, _. split; [reflexivity |]. cbn [price trend pf_mul pf_add].
    split; [reflexivity |].
    assert (c * 0.6 < c * prob.2)%Q by (apply Qmult_lt_l; lra).
    assert (c * prob.2 <= c * 1)%Q by (apply Qmult_le_l; lra).
    split_and!; try done; lra.
  - destruct (Qlt_le_dec 0.6 prob.1) as [Hdn | Hdn].
    + rewrite (Hd Hup Hdn). eexists _, _. split; [reflexivity |].
      cbn [price trend pf_mul pf_add pf_sub pf_neg].
      split; [reflexivity |].
      assert (c * 0.6 < c * prob.1)%Q by (apply Qmult_lt_l; lra).
      assert (c * prob.1 <= c * 1)%Q by (apply Qmult_le_l; lra).
      split_and!; try done; lra.
    + destruct (Hs Hup Hdn) as (m & -> & _). eexists _, _. split; [reflexivity |].
      cbn [price trend]. split; [reflexivity |]. split_and!; try done; lra.
Qed.


End classifier_facts.

Lemma xgboost_short_frame_default_witness :
  last (closes (zigzag 68)) = Some 103%Q ∧ (length (zigzag 68) < 69)%nat ∧
  @_xgboost_predict (sk_const 0.05 0.95) (zigzag 68)
    = Ok (mkEstimate sideways (Fin 103) (Fin 0.5)).
Proof.
  split; [vm_compute; reflexivity |]. split; [vm_compute; lia |].
  apply (@xgboost_short_frame_default (sk_const 0.05 0.95) (zigzag 68) 103);
    [vm_compute; reflexivity | vm_compute; lia].
Defined.

Lemma xgboost_price_band_witness :
  last (closes (zigzag 69)) = Some 102%Q ∧ (0 < 102)%Q ∧ well_behaved (sk_const 0.05 0.95) ∧
  ∃ e p, @_xgboost_predict (sk_const 0.05 0.95) (zigzag 69) = Ok e ∧ price e = Fin p ∧
    (102 * 0.97 <= p <= 102 * 1.03)%Q ∧
    (trend e = up → (102 * 1.018 < p)%Q) ∧
    (trend e = down → (p < 102 * 0.982)%Q) ∧
    (trend e = sideways → p = 102%Q).
Proof.
  split; [vm_compute; reflexivity |]. split; [lra |].
  split; [apply sk_const_well_behaved |].
  apply (@xgboost_price_band (sk_const 0.05 0.95) (zigzag 69) 102);
    [vm_compute; reflexivity | lra | apply sk_const_well_behaved].
Defined.


(* ===================================================================== *)
(** * The endpoints *)
(* ===================================================================== *)

Section endpoint_facts.
Context {up : Upstream} {ta : TaLib} {sk : Sklearn}.

(** X24.  The prediction endpoint returns a body for every request.  The
    body carries the error "获取数据失败" with the default record exactly
    when the retriever has no bar; otherwise it is the record of
    [predict_all] on the retrieved series, without an error, and on fewer
    than 60 bars this record is the default one too. *)
Theorem predict_route_answers (c period : string) (w : World) :
  ∃ df w' resp,
    get_kline c period w = (Ok df, w') ∧
    Routes.predict c period w = (Ok resp, w') ∧
    (df = [] →
       Routes.predict_error resp = Some "获取数据失败" ∧
       Routes.predict_result resp = _empty_result) ∧
    (df ≠ [] →
       Routes.predict_error resp = None ∧ predict_all df = Ok (Routes.predict_result resp)) ∧
    ((length df < 60)%nat → Routes.predict_result resp = _empty_result).
Proof.
  destruct (get_kline_ok c period w) as (df & w' & Hk).
  unfold Routes.predict. rewrite Hk. cbn [mbind result_bind].
  destruct df as [| b df]; cbn [nonempty negb].
  - eexists [], w', _. split; [done |]. split; [reflexivity |]. cbn.
    split_and!; done.
  - destruct (predict_all_ok (b :: df)) as [r Hr].
    rewrite Hr. cbn [mbind result_bind].
    eexists (b :: df), w', _. split; [done |]. split; [reflexivity |].
    cbn [Routes.predict_error Routes.predict_result]. split_and!; try done.
    intros Hlt. apply too_short_lt in Hlt. unfold predict_all in Hr. rewrite Hlt in Hr.
    by injection Hr as <-.
Qed.

(** X25.  The indicator endpoint always works on the daily series and
    returns a body for every request: the error "获取数据失败" exactly when
    the retriever has no bar, otherwise the indicator set of the series
    with the signals read from it; on 1 to 59 bars that is the empty set
    with the signals bearish, neutral, neutral, neutral. *)
Theorem indicators_route_answers (c : string) (w : World) :
  ∃ df w' resp,
    get_kline c "daily" w = (Ok df, w') ∧
    Routes.get_indicators c w = (Ok resp, w') ∧
    (df = [] → resp = Routes.IndicatorsError "获取数据失败") ∧
    (df ≠ [] →
       resp = Routes.IndicatorsOk (calculate_all df) (get_signals (calculate_all df))) ∧
    (df ≠ [] → (length df < 60)%nat →
       resp = Routes.IndicatorsOk ∅
                [mkSignal "MACD" bearish "死叉"; mkSignal "RSI" neutral "中性";
                 mkSignal "KDJ" neutral "中性"; mkSignal "均线" neutral "交织"]).
Proof.
  destruct (get_kline_ok c "daily" w) as (df & w' & Hk).
  unfold Routes.get_indicators. rewrite Hk. cbn [mbind result_bind].
  destruct df as [| b df]; cbn [nonempty negb].
  - eexists [], w', _. split; [done |]. split; [reflexivity |]. split_and!; done.
  - eexists (b :: df), w', _. split; [done |]. split; [reflexivity |].
    split_and!; try done.
    intros _ Hlt. apply too_short_lt in Hlt. unfold calculate_all. by rewrite Hlt.
Qed.

End endpoint_facts.

(* ===================================================================== *)
(** * Quotes and announcements *)
(* ===================================================================== *)

Lemma find_head_filter {A} (f : A → bool) (l : list A) :
  List.find f l = head (List.filter f l).
Proof. induction l as [| r l IH]; [done |]. cbn [List.find List.filter]. by destruct (f r). Qed.

(** X26.  [get_realtime_quote] never raises.  It answers [None] when the
    spot table cannot be fetched or has no row with the requested code;
    otherwise it reads the first such row only, and answers the quote made
    of the requested code, the row's name and its eight numeric cells when
    all eight convert, and [None] when one of them does not. *)
Theorem realtime_quote_spec `{SpotTable} (c : string) :
  ∃ answer, get_realtime_quote c = Ok answer ∧
    (∀ e, stock_zh_a_spot_em = Raise e → answer = None) ∧
    (∀ df, stock_zh_a_spot_em = Ok df →
       match List.find (λ row, String.eqb (spot_code row) c) df with
       | None => answer = None
       | Some row =>
           match answer with
           | Some q =>
               q_code q = c ∧ q_name q = spot_name row ∧
               Ok <$> [q_price q; q_change q; q_change_pct q; q_open q; q_high q; q_low q;
                       q_volume q; q_amount q] = cells row
           | None => ∃ e, Raise e ∈ cells row
           end
       end).
Proof.
  unfold get_realtime_quote.
  destruct stock_zh_a_spot_em as [df | e]; cbn [mbind result_bind try_except].
  2: { exists None. split_and!; done. }
  assert (∀ answer row,
    List.find (λ row, String.eqb (spot_code row) c) df = Some row →
    match answer with
    | Some q =>
        q_code q = c ∧ q_name q = spot_name row ∧
        Ok <$> [q_price q; q_change q; q_change_pct q; q_open q; q_high q; q_low q;
                q_volume q; q_amount q] = cells row
    | None => ∃ e, Raise e ∈ cells row
    end →
    (∀ e, Ok df = Raise e → answer = None) ∧
    (∀ df0, Ok df = Ok df0 →
       match List.find (λ row, String.eqb (spot_code row) c) df0 with
       | None => answer = None
       | Some row =>
           match answer with
           | Some q =>
               q_code q = c ∧ q_name q = spot_name row ∧
               Ok <$> [q_price q; q_change q; q_change_pct q; q_open q; q_high q; q_low q;
                       q_volume q; q_amount q] = cells row
           | None => ∃ e, Raise e ∈ cells row
           end
       end)) as Hwrap.
  { intros answer row Hrow Hans. split; [done |]. intros df0 [= <-]. by rewrite Hrow. }
  destruct (List.filter _ df) as [| row rest] eqn:Hf.
  { exists None. split; [done |]. split; [done |]. intros df0 [= <-].
    by rewrite find_head_filter, Hf. }
  assert (List.find (λ row, String.eqb (spot_code row) c) df = Some row) as Hrow
    by (by rewrite find_head_filter, Hf).
  unfold cells in Hwrap.
  destruct (spot_price row) as [v1 | e1] eqn:E1; cbn [mbind result_bind try_except];
    [| exists None; split; [done |]; apply (Hwrap None row Hrow); rewrite E1;
       eexists; repeat (rewrite elem_of_cons); auto 10].
  destruct (spot_change row) as [v2 | e2] eqn:E2; cbn [mbind result_bind try_except];
    [| exists None; split; [done |]; apply (Hwrap None row Hrow); rewrite E2;
       eexists; repeat (rewrite elem_of_cons); auto 10].
  destruct (spot_change_pct row) as [v3 | e3] eqn:E3; cbn [mbind result_bind try_except];
    [| exists None; split; [done |]; apply (Hwrap None row Hrow); rewrite E3;
       eexists; repeat (rewrite elem_of_cons); auto 10].
  destruct (spot_open row) as [v4 | e4] eqn:E4; cbn [mbind result_bind try_except];
    [| exists None; split; [done |]; apply (Hwrap None row Hrow); rewrite E4;
       eexists; repeat (rewrite elem_of_cons); auto 10].
  destruct (spot_high row) as [v5 | e5] eqn:E5; cbn [mbind result_bind try_except];
    [| exists None; split; [done |]; apply (Hwrap None row Hrow); rewrite E5;
       eexists; repeat (rewrite elem_of_cons); auto 10].
  destruct (spot_low row) as [v6 | e6] eqn:E6; cbn [mbind result_bind try_except];
    [| exists None; split; [done |]; apply (Hwrap None row Hrow); rewrite E6;
       eexists; repeat (rewrite elem_of_cons); auto 10].
  destruct (spot_volume row) as [v7 | e7] eqn:E7; cbn [mbind result_bind try_except];
    [| exists None; split; [done |]; apply (Hwrap None row Hrow); rewrite E7;
       eexists; repeat (rewrite elem_of_cons); auto 10].
  destruct (spot_amount row) as [v8 | e8] eqn:E8; cbn [mbind result_bind try_except];
    [| exists None; split; [done |]; apply (Hwrap None row Hrow); rewrite E8;
       eexists; repeat (rewrite elem_of_cons); auto 10].
  eexists. split; [reflexivity |]. apply (Hwrap _ row Hrow).
  cbn. rewrite E1, E2, E3, E4, E5, E6, E7, E8. done.
Qed.

(** X27.  [get_stock_news] never raises.  A failed request gives the empty
    list; otherwise there is one entry per announcement read, never more
    than the feed sent and, for a limit that is not negative, never more
    than the limit: the titles of the first [limit] announcements, in
    order, an absent title read as the empty string.  Every entry names
    the source "东方财富" and carries a time of at most 10 characters. *)
Theorem stock_news_spec `{NoticeFeed} (c : string) (limit : Z) :
  ∃ news, get_stock_news c limit = Ok news ∧
    (∀ e, notice_list c limit = Raise e → news = []) ∧
    (∀ items, notice_list c limit = Ok items →
       (length news ≤ length items)%nat ∧
       ((0 ≤ limit)%Z → (Z.of_nat (length news) ≤ limit)%Z ∧
          news_title <$> news = (λ item, default "" (item_title item)) <$> take (Z.to_nat limit) items) ∧
       Forall (λ n, news_source n = "东方财富" ∧ (String.length (news_time n) ≤ 10)%nat) news).
Proof.
  unfold get_stock_news.
  destruct (notice_list c limit) as [items | e]; cbn [mbind result_bind try_except].
  2: { exists []. split_and!; done. }
  eexists. split; [reflexivity |]. split; [done |]. intros ? [= <-].
  split_and!.
  - rewrite length_fmap, py_slice_length. cbn [from_option].
    pose proof (slice_index_range (Z.of_nat (length items)) limit ltac:(lia)). lia.
  - intros Hlim. destruct (Z_of_nat_complete limit Hlim) as [k ->].
    rewrite py_slice_first, Nat2Z.id, length_fmap, length_take. split; [lia |].
    by rewrite <- list_fmap_compose.
  - apply Forall_fmap, Forall_forall. intros item _. cbn. split; [done |].
    unfold notice_time. destruct (item_notice_date item) as [d |]; [| cbn; lia].
    destruct (String.eqb d ""); [cbn; lia |].
    generalize 10%nat. clear. intros n. revert n.
    induction d as [| a d IH]; intros [| n]; cbn; try lia. specialize (IH n). lia.
Qed.
